(** * Federated GAN round logic: gans/gan_training_tf_fns.py

    A shallow embedding of the client and server round functions and of the
    two training-step factories.  Tensors carry float32 values (the binary32
    instance of the Standard Library's [spec_float]); the two Keras models are
    lists of variable cells; the mutable [ServerState] objects and their
    counter dictionaries live in a store addressed by references.

    Three things are taken as TensorFlow has them.  The float32 kernels
    flush subnormal numbers to zero.  Counters and example counts are int32
    tensors: their sums wrap around at [2^31].  The two round functions are
    [tf.function]s: an exception of the Python body is raised while the
    graph is built, before any of its operations has run.

    The counters of a [ClientOutput] are an [OrderedDict], walked in the
    order of insertion.  The counters of a [ServerState] are never walked,
    and are kept as a finite map. *)

From Stdlib Require Import ZArith Bool List String Lia.
From Stdlib Require Import Floats.SpecFloat.
From stdpp Require Import gmap strings list fin_maps.

(** ** float32 arithmetic *)

Module F32.

Definition prec : Z := 24.
Definition emax : Z := 128.

Definition valid (x : spec_float) : bool := valid_binary prec emax x.

(** A nonzero number below the smallest normal float32, [2^-126]. *)
Definition is_subnormal (x : spec_float) : bool :=
  match x with
  | S754_finite _ m e => (Z.pos (digits2_pos m) + e <=? -126)%Z
  | _ => false
  end.

(** Flush to zero: the kernels read a subnormal operand, and write a
    subnormal result, as the zero of its sign. *)
Definition flush (x : spec_float) : spec_float :=
  match x with
  | S754_finite s _ _ => if is_subnormal x then S754_zero s else x
  | _ => x
  end.

(** An exponent range in which no product of two float32 numbers underflows:
    a product is flushed when it is below [2^-126] once rounded to 24 bits. *)
Definition wide_emax : Z := 1024.

Definition add (x y : spec_float) : spec_float :=
  flush (SFadd prec emax (flush x) (flush y)).
Definition sub (x y : spec_float) : spec_float :=
  flush (SFsub prec emax (flush x) (flush y)).
Definition mul (x y : spec_float) : spec_float :=
  let rounded := SFmul prec wide_emax (flush x) (flush y) in
  if is_subnormal rounded then flush rounded
  else SFmul prec emax (flush x) (flush y).

(** [tf.cast(n, tf.float32)] of an integer tensor. *)
Definition of_Z (n : Z) : spec_float := binary_normalize prec emax n 0 false.

(** [tf.math.is_finite]. *)
Definition is_finite (x : spec_float) : bool :=
  match x with
  | S754_zero _ | S754_finite _ _ _ => true
  | S754_infinity _ | S754_nan => false
  end.

Definition is_zero (x : spec_float) : bool :=
  match x with
  | S754_zero _ => true
  | _ => false
  end.

(** The literals of the source. *)
Definition zero : spec_float := S754_zero false.                       (* 0.0 *)
Definition one : spec_float := S754_finite false 8388608 (-23).        (* 1.0 *)
Definition neg_one : spec_float := S754_finite true 8388608 (-23).     (* -1.0 *)
Definition ten : spec_float := S754_finite false 10485760 (-20).       (* 10.0 *)
Definition lr_0_0005 : spec_float := S754_finite false 8589935 (-34).  (* 0.0005 *)
Definition lr_0_005 : spec_float := S754_finite false 10737418 (-31).  (* 0.005 *)

(** Equality of the numbers two floats denote: the two zeros are the same
    number. *)
Definition same_number (x y : spec_float) : Prop :=
  x = y ∨ (is_zero x = true ∧ is_zero y = true).

End F32.

(** ** int32 arithmetic *)

(** The value of an int32 tensor is an integer from [-2^31] up to [2^31];
    a sum that leaves the range wraps around. *)
Module Int32.

Definition in_range (z : Z) : Prop := (-2147483648 ≤ z < 2147483648)%Z.

Definition wrap (z : Z) : Z := ((z + 2147483648) `mod` 4294967296 - 2147483648)%Z.

Definition add (x y : Z) : Z := wrap (x + y).

End Int32.

(** ** Tensors *)

Record Tensor := { shape : list nat; data : list spec_float }.

(** A batch is a tensor seen along its leading dimension: the list of its
    rows.  [tf.shape(b)[0]] is [length b] and [b[0:n]] is [take n b]. *)
Definition Batch : Type := list (list spec_float).

Inductive exn :=
  | ValueError            (* structure or shape mismatch *)
  | KeyError (key : string)
  | ReferenceError.       (* a reference to no object of the store *)

Inductive outcome (A : Type) :=
  | Ok (a : A)
  | Raise (e : exn).
Arguments Ok {A} a.
Arguments Raise {A} e.

#[global] Instance outcome_ret : MRet outcome := λ A a, Ok a.
#[global] Instance outcome_bind : MBind outcome := λ A B k m,
  match m with
  | Ok a => k a
  | Raise e => Raise e
  end.

Definition zeros_like (t : Tensor) : Tensor :=
  {| shape := shape t; data := (λ _, F32.zero) <$> data t |}.

(** [c * t] for a Python float [c]. *)
Definition scalar_mul (c : spec_float) (t : Tensor) : Tensor :=
  {| shape := shape t; data := F32.mul c <$> data t |}.

(** [tf.subtract] on tensors of one shape.  Broadcasting between different
    shapes is not modelled: the call raises. *)
Definition tf_subtract (a b : Tensor) : outcome Tensor :=
  if decide (shape a = shape b)
  then Ok {| shape := shape a; data := zip_with F32.sub (data a) (data b) |}
  else Raise ValueError.

(** [tf.nest.map_structure(f, xs, ys)] on two flat lists: the structures are
    compared before [f] is applied anywhere. *)
Fixpoint traverse2 {A B C} (f : A → B → outcome C) (xs : list A) (ys : list B)
    : outcome (list C) :=
  match xs, ys with
  | x :: xs', y :: ys' => c ← f x y; cs ← traverse2 f xs' ys'; mret (c :: cs)
  | _, _ => mret []
  end.

Definition assert_same_structure {A B} (xs : list A) (ys : list B) : outcome unit :=
  if decide (length xs = length ys) then Ok () else Raise ValueError.

Definition map_structure2 {A B C} (f : A → B → outcome C) (xs : list A) (ys : list B)
    : outcome (list C) :=
  assert_same_structure xs ys;; traverse2 f xs ys.

(** ** Variables and models *)

Record TfVariable := { trainable : bool; value : Tensor }.

(** [v.assign(t)]: the shape of a variable is fixed. *)
Definition assign (v : TfVariable) (t : Tensor) : outcome TfVariable :=
  if decide (shape (value v) = shape t)
  then Ok {| trainable := trainable v; value := t |}
  else Raise ValueError.

Record Model := { weights : list TfVariable }.

Definition trainable_variables (m : Model) : list TfVariable :=
  List.filter trainable (weights m).

(** The variables of [trainable_variables] are the very cells of [weights]:
    writing them is writing the trainable cells of the model, in order. *)
Fixpoint write_trainable (ws : list TfVariable) (new : list TfVariable) : list TfVariable :=
  match ws with
  | [] => []
  | v :: ws' =>
      if trainable v then
        match new with
        | n :: new' => n :: write_trainable ws' new'
        | [] => v :: ws'
        end
      else v :: write_trainable ws' new
  end.

Definition with_values (vs : list TfVariable) (ts : list Tensor) : list TfVariable :=
  zip_with (λ v t, {| trainable := trainable v; value := t |}) vs ts.

Definition _weights (model : Model) : list Tensor := value <$> weights model.

(** ** Optimizers *)

(** A Keras optimizer is given by its dense update rule, from the gradient and
    the value of a variable to the new value. *)
Record Optimizer := { resource_apply_dense : Tensor → Tensor → outcome Tensor }.

Fixpoint apply_gradients (opt : Optimizer) (grads_and_vars : list (Tensor * TfVariable))
    : outcome (list TfVariable) :=
  match grads_and_vars with
  | [] => mret []
  | (g, v) :: rest =>
      t ← resource_apply_dense opt g (value v);
      v' ← assign v t;
      vs ← apply_gradients opt rest;
      mret (v' :: vs)
  end.

(** [tf.keras.optimizers.SGD(lr)], no momentum: [var -= lr * grad]. *)
Definition SGD (lr : spec_float) : Optimizer :=
  {| resource_apply_dense := λ grad var, tf_subtract var (scalar_mul lr grad) |}.

(** ** Loss functions *)

(** Modelled from the spec: [gans/gan_losses] is not among the sources.  Its
    interface [AbstractGanLossFns] gives two losses, each a pure function of
    the two models and the batches to a scalar. *)
Record GanLossFns := {
  generator_loss : Model → Model → Batch → spec_float;
  discriminator_loss : Model → Model → Batch → Batch → spec_float;
}.

(** What the round functions take from outside this file: the type of the
    aggregation state with its default value [()], the differentiation of a
    loss with respect to a list of variables (a gradient has the shape of its
    variable), and the constructor
    [gan_losses.WassersteinGanLossFns(grad_penalty_lambda)]. *)
Class Capabilities := {
  AggregationState : Type;
  no_aggregation_state : AggregationState;
  gradients : (list Tensor → spec_float) → list Tensor → list Tensor;
  gradients_shape : ∀ loss vals,
    Forall2 (λ g v, shape g = shape v) (gradients loss vals) vals;
  WassersteinGanLossFns : spec_float → GanLossFns;
}.

(** Modelled from the spec: the scan of [utils/tensor_utils], which is not
    among the sources, for a NaN or Inf element anywhere in a structure of
    tensors. *)
Definition any_non_finite (structure : list Tensor) : bool :=
  existsb (λ t, existsb (λ x, negb (F32.is_finite x)) (data t)) structure.

(** Modelled from the spec: [utils/tensor_utils.zero_all_if_any_non_finite] is
    not among the sources.  If any element is non-finite every tensor is
    replaced by a zero tensor of the same shape and the flag is true, otherwise
    the structure is returned unchanged and the flag is false. *)
Definition zero_all_if_any_non_finite (structure : list Tensor) : list Tensor * bool :=
  if any_non_finite structure
  then (zeros_like <$> structure, true)
  else (structure, false).

(** ** The containers of the round *)

Definition loc : Type := positive.

Module FromServer.
Record t := {
  generator_weights : list Tensor;
  discriminator_weights : list Tensor;
}.
End FromServer.

(** A [collections.OrderedDict] from strings to int32 tensors: its items in
    the order of insertion, no key twice. *)
Record OrderedDict := {
  items : list (string * Z);
  items_unique : bool_decide (NoDup items.*1);
}.

(** [d[k]], [d.keys()] and [OrderedDict(k=v)]. *)
#[global] Instance ordered_dict_lookup : Lookup string Z OrderedDict :=
  λ k d, (list_to_map (items d) : gmap string Z) !! k.
#[global] Instance ordered_dict_dom : Dom OrderedDict (gset string) :=
  λ d, list_to_set (items d).*1.
#[global] Instance ordered_dict_singleton : SingletonM string Z OrderedDict :=
  λ k v, {| items := [(k, v)]; items_unique := bool_decide_pack _ (NoDup_singleton k) |}.

Module ClientOutput.
Record t := {
  discriminator_weights_delta : list Tensor;
  update_weight : spec_float;
  counters : OrderedDict;
}.
End ClientOutput.

(** [ServerState] is the one container that is not frozen: its attributes are
    rebound in place, and [counters] refers to a dictionary object. *)
Module ServerState.
Record t `{Capabilities} := {
  generator_weights : list Tensor;
  discriminator_weights : list Tensor;
  counters : loc;
  aggregation_state : AggregationState;
}.
End ServerState.

(** The calls made to the training steps, in order: a record kept beside the
    program state to count the steps and to name their arguments. *)
Inductive Event :=
  | DiscriminatorStep (generator_inputs real_data : Batch)
  | GeneratorStep (generator_inputs : Batch).

Section Round.
Context `{Capabilities}.

(** The objects a round function can reach: the variables of the two models
    it is handed (its [generator] and [discriminator] arguments), the
    [ServerState] objects and the dictionaries. *)
Record World := {
  generator : Model;
  discriminator : Model;
  states : gmap loc ServerState.t;
  dicts : gmap loc (gmap string Z);
  trace : list Event;
}.

(** Computations that read and write the world and may raise; the world at
    the point of the raise is kept. *)
Definition M (A : Type) : Type := World → outcome A * World.

#[global] Instance M_ret : MRet M := λ A a w, (Ok a, w).
#[global] Instance M_bind : MBind M := λ A B k m w,
  match m w with
  | (Ok a, w') => k a w'
  | (Raise e, w') => (Raise e, w')
  end.

Definition lift {A} (o : outcome A) : M A := λ w, (o, w).
Definition gets {A} (f : World → A) : M A := λ w, (Ok (f w), w).
Definition modify (f : World → World) : M unit := λ w, (Ok (), f w).

Definition set_generator (m : Model) (w : World) : World :=
  {| generator := m; discriminator := discriminator w; states := states w;
     dicts := dicts w; trace := trace w |}.
Definition set_discriminator (m : Model) (w : World) : World :=
  {| generator := generator w; discriminator := m; states := states w;
     dicts := dicts w; trace := trace w |}.
Definition set_states (s : gmap loc ServerState.t) (w : World) : World :=
  {| generator := generator w; discriminator := discriminator w; states := s;
     dicts := dicts w; trace := trace w |}.
Definition set_dicts (d : gmap loc (gmap string Z)) (w : World) : World :=
  {| generator := generator w; discriminator := discriminator w; states := states w;
     dicts := d; trace := trace w |}.
Definition record (e : Event) : M unit := modify (λ w,
  {| generator := generator w; discriminator := discriminator w; states := states w;
     dicts := dicts w; trace := trace w ++ [e] |}).

(** Python's [for x in xs: acc = body(acc, x)]. *)
Fixpoint for_each {A S} (xs : list A) (body : S → A → M S) (acc : S) : M S :=
  match xs with
  | [] => mret acc
  | x :: xs' => acc' ← body acc x; for_each xs' body acc'
  end.

(** [@tf.function]: the Python body runs once, on symbolic tensors, to build
    the graph, and the graph runs after.  Lengths, shapes and dictionary
    keys are known to the body, so what it raises it raises while the graph
    is built: no variable has been written and no step has run. *)
Definition tf_function {A} (python_function : M A) : M A := λ w,
  match python_function w with
  | (Ok a, w') => (Ok a, w')
  | (Raise e, _) => (Raise e, w)
  end.

(** *** Store operations *)

Definition read_state (l : loc) : M ServerState.t := λ w,
  match states w !! l with
  | Some s => (Ok s, w)
  | None => (Raise ReferenceError, w)
  end.

Definition write_state (l : loc) (s : ServerState.t) : M unit :=
  modify (λ w, set_states (<[l := s]> (states w)) w).

Definition new_state (s : ServerState.t) : M loc := λ w,
  let l := fresh (dom (states w)) in
  (Ok l, set_states (<[l := s]> (states w)) w).

Definition read_dict (l : loc) : M (gmap string Z) := λ w,
  match dicts w !! l with
  | Some d => (Ok d, w)
  | None => (Raise ReferenceError, w)
  end.

Definition new_dict (d : gmap string Z) : M loc := λ w,
  let l := fresh (dom (dicts w)) in
  (Ok l, set_dicts (<[l := d]> (dicts w)) w).

(** [d[k] += v] on a dictionary object of int32 tensors: reading a missing
    key raises. *)
Definition dict_iadd (l : loc) (k : string) (v : Z) : M unit :=
  d ← read_dict l;
  match d !! k with
  | Some x => modify (λ w, set_dicts (<[l := <[k := Int32.add x v]> d]> (dicts w)) w)
  | None => lift (Raise (KeyError k))
  end.

(** [tf.nest.map_structure(lambda a, b: a.assign(b), model.weights, ws)].
    Lengths and shapes are static: a mismatch is reported before any
    variable is written. *)
Definition load_weights (model : Model) (ws : list Tensor) : outcome Model :=
  vs ← map_structure2 assign (weights model) ws; mret {| weights := vs |}.

(** *** Training-step factories *)

Definition TrainGeneratorFn : Type := Batch → M Z.
Definition TrainDiscriminatorFn : Type := Batch → Batch → M Z.

(** [optimizer.minimize(loss, var_list)]: differentiate the loss at the
    current values of [var_list], then apply the gradients. *)
Definition minimize (optimizer : Optimizer) (loss : list Tensor → spec_float)
    (var_list : list TfVariable) : outcome (list TfVariable) :=
  let grads := gradients loss (value <$> var_list) in
  apply_gradients optimizer (zip grads var_list).

(** The model [m] with its trainable variables holding [vals]. *)
Definition at_values (m : Model) (vals : list Tensor) : Model :=
  {| weights := write_trainable (weights m) (with_values (trainable_variables m) vals) |}.

Definition create_train_generator_fn (gan_loss_fns : GanLossFns)
    (gen_optimizer : Optimizer) : TrainGeneratorFn :=
  λ generator_inputs,
    g ← gets generator;
    d ← gets discriminator;
    let gen_loss := λ vals,
      generator_loss gan_loss_fns (at_values g vals) d generator_inputs in
    vs ← lift (minimize gen_optimizer gen_loss (trainable_variables g));
    modify (set_generator {| weights := write_trainable (weights g) vs |});;
    record (GeneratorStep generator_inputs);;
    mret (Z.of_nat (length generator_inputs)).

Definition create_train_discriminator_fn (gan_loss_fns : GanLossFns)
    (disc_optimizer : Optimizer) : TrainDiscriminatorFn :=
  λ generator_inputs real_data,
    g ← gets generator;
    d ← gets discriminator;
    let disc_loss := λ vals,
      discriminator_loss gan_loss_fns g (at_values d vals) generator_inputs real_data in
    vs ← lift (minimize disc_optimizer disc_loss (trainable_variables d));
    modify (set_discriminator {| weights := write_trainable (weights d) vs |});;
    record (DiscriminatorStep generator_inputs real_data);;
    mret (Z.of_nat (length real_data)).

(** *** The client round *)

Definition load_generator (ws : list Tensor) : M unit :=
  g ← gets generator; g' ← lift (load_weights g ws); modify (set_generator g').

Definition load_discriminator (ws : list Tensor) : M unit :=
  d ← gets discriminator; d' ← lift (load_weights d ws); modify (set_discriminator d').

(** The body of the client loop, lines 138-149. *)
Definition client_step (tmp_train_discriminator_fn : TrainDiscriminatorFn)
    (num_examples : Z) (pair : Batch * Batch) : M Z :=
  let '(gen_inputs, real_data) := pair in
  let min_batch_size := length real_data `min` length gen_inputs in
  let real_data := take min_batch_size real_data in
  let gen_inputs := take min_batch_size gen_inputs in
  n ← tmp_train_discriminator_fn gen_inputs real_data;
  mret (Int32.add num_examples n).

(** [client_computation], lines 101-166, a [tf.function].  The datasets are
    the lists of their batches; the [generator] and [discriminator]
    arguments are the two models of the world. *)
Definition client_computation (gen_inputs_ds real_data_ds : list Batch)
    (from_server : FromServer.t)
    (train_discriminator_fn : TrainDiscriminatorFn) : M ClientOutput.t := tf_function (
  load_generator (FromServer.generator_weights from_server);;
  load_discriminator (FromServer.discriminator_weights from_server);;
  let gan_loss_fns := WassersteinGanLossFns F32.ten in
  let disc_optimizer := SGD F32.lr_0_0005 in
  let tmp_train_discriminator_fn :=
    create_train_discriminator_fn gan_loss_fns disc_optimizer in
  let gen_inputs_and_real_data := zip gen_inputs_ds real_data_ds in
  num_examples ←
    for_each gen_inputs_and_real_data (client_step tmp_train_discriminator_fn) 0%Z;
  d ← gets discriminator;
  weights_delta ← lift (map_structure2 tf_subtract (_weights d)
                          (FromServer.discriminator_weights from_server));
  let '(weights_delta, has_non_finite_delta) :=
    zero_all_if_any_non_finite weights_delta in
  let update_weight := F32.of_Z num_examples in
  let update_weight :=
    if (Z.b2z has_non_finite_delta =? 0)%Z then update_weight else F32.zero in
  mret {| ClientOutput.discriminator_weights_delta := weights_delta;
          ClientOutput.update_weight := update_weight;
          ClientOutput.counters :=
            {[ "num_discriminator_train_examples" := num_examples ]} |}).

(** *** The server round *)

(** [server_initial_state], lines 169-178. *)
Definition server_initial_state : M loc :=
  g ← gets generator;
  d ← gets discriminator;
  counters ← new_dict (<[ "num_discriminator_train_examples" := 0%Z ]>
                      (<[ "num_generator_train_examples" := 0%Z ]>
                      {[ "num_rounds" := 0%Z ]}));
  new_state {| ServerState.generator_weights := _weights g;
               ServerState.discriminator_weights := _weights d;
               ServerState.counters := counters;
               ServerState.aggregation_state := no_aggregation_state |}.

(** Attribute access on a [ServerState] object. *)
Definition state_counters (l : loc) : M loc :=
  s ← read_state l; mret (ServerState.counters s).

Definition set_state_aggregation_state (l : loc) (a : AggregationState) : M unit :=
  s ← read_state l;
  write_state l {| ServerState.generator_weights := ServerState.generator_weights s;
                   ServerState.discriminator_weights := ServerState.discriminator_weights s;
                   ServerState.counters := ServerState.counters s;
                   ServerState.aggregation_state := a |}.

Definition set_state_generator_weights (l : loc) (ws : list Tensor) : M unit :=
  s ← read_state l;
  write_state l {| ServerState.generator_weights := ws;
                   ServerState.discriminator_weights := ServerState.discriminator_weights s;
                   ServerState.counters := ServerState.counters s;
                   ServerState.aggregation_state := ServerState.aggregation_state s |}.

Definition set_state_discriminator_weights (l : loc) (ws : list Tensor) : M unit :=
  s ← read_state l;
  write_state l {| ServerState.generator_weights := ServerState.generator_weights s;
                   ServerState.discriminator_weights := ws;
                   ServerState.counters := ServerState.counters s;
                   ServerState.aggregation_state := ServerState.aggregation_state s |}.

(** [attr.evolve(server_state, counters=collections.OrderedDict(server_state.counters))],
    lines 213-214: a new dictionary with the entries of the old one, and a
    new [ServerState] object with the other attributes of the old one. *)
Definition evolve_with_copied_counters (server_state : loc) : M loc :=
  s ← read_state server_state;
  c ← read_dict (ServerState.counters s);
  counters ← new_dict c;
  new_state {| ServerState.generator_weights := ServerState.generator_weights s;
               ServerState.discriminator_weights := ServerState.discriminator_weights s;
               ServerState.counters := counters;
               ServerState.aggregation_state := ServerState.aggregation_state s |}.

(** Lines 221-227: the aggregated delta applied as a negated gradient. *)
Definition update_server_discriminator (client_output : ClientOutput.t)
    (server_disc_update_optimizer : Optimizer) : M unit :=
  let delta := ClientOutput.discriminator_weights_delta client_output in
  d ← gets discriminator;
  lift (assert_same_structure delta (weights d));;
  let grads_and_vars :=
    zip_with (λ x v, (scalar_mul F32.neg_one x, v)) delta (weights d) in
  vs ← lift (apply_gradients server_disc_update_optimizer grads_and_vars);
  modify (set_discriminator {| weights := vs |}).

(** The body of the server loop, lines 243-245. *)
Definition server_step (tmp_train_generator_fn : TrainGeneratorFn)
    (gen_examples_this_round : Z) (gen_inputs : Batch) : M Z :=
  n ← tmp_train_generator_fn gen_inputs;
  mret (Int32.add gen_examples_this_round n).

(** [server_computation], lines 181-252, a [tf.function].  [server_state] is
    rebound to the copy at once; the attributes of the copy are then written
    in place. *)
Definition server_computation (server_state : loc) (gen_inputs_ds : list Batch)
    (client_output : ClientOutput.t)
    (server_disc_update_optimizer : Optimizer)
    (train_generator_fn : TrainGeneratorFn)
    (new_aggregation_state : AggregationState) : M loc := tf_function (
  server_state ← evolve_with_copied_counters server_state;
  s ← read_state server_state;
  load_generator (ServerState.generator_weights s);;
  s ← read_state server_state;
  load_discriminator (ServerState.discriminator_weights s);;
  update_server_discriminator client_output server_disc_update_optimizer;;
  for_each (items (ClientOutput.counters client_output))
    (λ _ '(k, v), c ← state_counters server_state; dict_iadd c k v) ();;
  set_state_aggregation_state server_state new_aggregation_state;;
  let gan_loss_fns := WassersteinGanLossFns F32.ten in
  let gen_optimizer := SGD F32.lr_0_005 in
  let tmp_train_generator_fn :=
    create_train_generator_fn gan_loss_fns gen_optimizer in
  gen_examples_this_round ←
    for_each gen_inputs_ds (server_step tmp_train_generator_fn) 0%Z;
  c ← state_counters server_state;
  dict_iadd c "num_generator_train_examples" gen_examples_this_round;;
  c ← state_counters server_state;
  dict_iadd c "num_rounds" 1;;
  g ← gets generator;
  set_state_generator_weights server_state (_weights g);;
  d ← gets discriminator;
  set_state_discriminator_weights server_state (_weights d);;
  mret server_state).

(** The entry [k] of the counters of the [ServerState] object [l]. *)
Definition counter_of (w : World) (l : loc) (k : string) : option Z :=
  s ← states w !! l; d ← dicts w !! ServerState.counters s; d !! k.

End Round.

(** * Vocabulary of the properties *)

(** The same variables, up to their values: position by position the same
    flag and the same shape. *)
Definition same_layout (vs vs' : list TfVariable) : Prop :=
  Forall2 (λ v v', trainable v = trainable v' ∧ shape (value v) = shape (value v'))
    vs vs'.

(** The tensors [ws] can be assigned to the variables of [m]: as many, and of
    the same shapes. *)
Definition loadable (m : Model) (ws : list Tensor) : Prop :=
  Forall2 (λ v t, shape (value v) = shape t) (weights m) ws.

(** The element-wise differences [xs - ys]. *)
Definition subtract_all (xs ys : list Tensor) : list Tensor :=
  zip_with (λ a b, {| shape := shape a; data := zip_with F32.sub (data a) (data b) |})
    xs ys.

(** Every element of every tensor is a zero. *)
Definition all_zero (ts : list Tensor) : Prop :=
  Forall (λ t, Forall (λ x, F32.is_zero x = true) (data t)) ts.

(** A pair of batches cut to the smaller of the two leading dimensions, the
    step called on it, and the number of examples it counts. *)
Definition truncated (pair : Batch * Batch) : Batch * Batch :=
  let n := length pair.2 `min` length pair.1 in (take n pair.1, take n pair.2).

Definition step_event (pair : Batch * Batch) : Event :=
  DiscriminatorStep (truncated pair).1 (truncated pair).2.

Definition examples_in (pair : Batch * Batch) : Z :=
  Z.of_nat (length pair.2 `min` length pair.1).

Definition sum_Z (xs : list Z) : Z := foldr Z.add 0%Z xs.

(** What the client returns after [num_examples] examples, when training has
    left the discriminator at [d]. *)
Definition client_output_of (num_examples : Z) (d : Model) (from_server : FromServer.t)
    : ClientOutput.t :=
  let raw := subtract_all (_weights d) (FromServer.discriminator_weights from_server) in
  {| ClientOutput.discriminator_weights_delta :=
       if any_non_finite raw then zeros_like <$> raw else raw;
     ClientOutput.update_weight := if any_non_finite raw then F32.zero else F32.of_Z num_examples;
     ClientOutput.counters := {[ "num_discriminator_train_examples" := num_examples ]} |}.

(** The world once the client has loaded the broadcast weights. *)
Definition client_loaded `{Capabilities} (from_server : FromServer.t) (w : World) : World :=
  {| generator := {| weights := with_values (weights (generator w))
                                  (FromServer.generator_weights from_server) |};
     discriminator := {| weights := with_values (weights (discriminator w))
                                      (FromServer.discriminator_weights from_server) |};
     states := states w; dicts := dicts w; trace := trace w |}.

(** An optimizer that takes every gradient of the shape of its variable. *)
Definition accepts (opt : Optimizer) : Prop :=
  ∀ g v, shape g = shape v → ∃ t, resource_apply_dense opt g v = Ok t ∧ shape t = shape v.

(** The number of rows of a dataset: the sum of the leading dimensions of its
    batches. *)
Definition rows (ds : list Batch) : Z := sum_Z (Z.of_nat ∘ length <$> ds).

(** What the server itself adds to the counter [k] in a round over [ds]. *)
Definition bump (ds : list Batch) (k : string) : Z :=
  if decide (k = "num_generator_train_examples") then rows ds
  else if decide (k = "num_rounds") then 1%Z else 0%Z.

(** The counter [k] after a round, from its value [x] before: the client's
    value is added, if the client has one, and then the server's own
    increment, if [k] is one of the two the server adds to; each time in
    int32. *)
Definition after_round (client : OrderedDict) (ds : list Batch) (k : string) (x : Z) : Z :=
  let x' := match client !! k with Some v => Int32.add x v | None => x end in
  if decide (k = "num_generator_train_examples") then Int32.add x' (Int32.wrap (rows ds))
  else if decide (k = "num_rounds") then Int32.add x' 1
  else x'.

(** The counters [d] after a round. *)
Definition round_counters (d : gmap string Z) (client : OrderedDict) (ds : list Batch)
    : gmap string Z :=
  map_imap (λ k x, Some (after_round client ds k x)) d.

(** The first of [keys] that the dictionary [d] does not have. *)
Fixpoint first_missing (d : gmap string Z) (keys : list string) : option string :=
  match keys with
  | [] => None
  | k :: keys' => if d !! k is Some _ then first_missing d keys' else Some k
  end.

(** The inputs on which a server round gets as far as the counters: the state
    and its dictionary exist, the weights of the state fit the models, the
    delta fits the discriminator and the optimizer takes it. *)
Record round_loads `{Capabilities} (w : World) (server_state : loc) (s : ServerState.t)
    (d : gmap string Z) (client_output : ClientOutput.t) (opt : Optimizer) : Prop := {
  loads_state : states w !! server_state = Some s;
  loads_counters : dicts w !! ServerState.counters s = Some d;
  loads_generator : loadable (generator w) (ServerState.generator_weights s);
  loads_discriminator : loadable (discriminator w) (ServerState.discriminator_weights s);
  loads_delta :
    Forall2 (λ x t, shape x = shape t)
      (ClientOutput.discriminator_weights_delta client_output)
      (ServerState.discriminator_weights s);
  loads_optimizer : accepts opt;
}.

(** The inputs on which a server round runs to completion: moreover every
    counter that is added to exists. *)
Record round_ready `{Capabilities} (w : World) (server_state : loc) (s : ServerState.t)
    (d : gmap string Z) (client_output : ClientOutput.t) (opt : Optimizer) : Prop := {
  ready_loads : round_loads w server_state s d client_output opt;
  ready_client_keys : dom (ClientOutput.counters client_output) ⊆ dom d;
  ready_examples_key : is_Some (d !! "num_generator_train_examples");
  ready_rounds_key : is_Some (d !! "num_rounds");
}.

(** The objects of [w0] are as they were, and the [ServerState] object [l]
    refers to the dictionary [c]. *)
Definition untouched `{Capabilities} (w0 : World) (l c : loc) (w : World) : Prop :=
  (∀ l0, l0 ∈ dom (states w0) → states w !! l0 = states w0 !! l0) ∧
  (∀ c0, c0 ∈ dom (dicts w0) → dicts w !! c0 = dicts w0 !! c0) ∧
  ∃ s, states w !! l = Some s ∧ ServerState.counters s = c.

(** [m] keeps the invariant [I], whether it returns or raises, and what it
    returns satisfies [post]. *)
Definition ends_with `{Capabilities} {A} (I : World → Prop) (post : A → Prop) (m : M A) : Prop :=
  ∀ w, I w → I (m w).2 ∧ ∀ a, (m w).1 = Ok a → post a.

(** One plain-SGD server step on a single weight: [v - lr * (-1.0 * x)]. *)
Definition stepped (lr : spec_float) (v x : Tensor) : Tensor :=
  {| shape := shape v;
     data := zip_with (λ a b, F32.sub a (F32.mul lr (F32.mul F32.neg_one b))) (data v) (data x) |}.

(** The tensor [v] as a kernel reads it: its subnormal elements as zeros. *)
Definition flushed (v : Tensor) : Tensor :=
  {| shape := shape v; data := F32.flush <$> data v |}.

(** No element of [v] is subnormal. *)
Definition all_normal (v : Tensor) : Prop :=
  Forall (λ a, F32.is_subnormal a = false) (data v).

(** [v + x], element by element. *)
Definition plus_delta (v x : Tensor) : Tensor :=
  {| shape := shape v; data := zip_with F32.add (data v) (data x) |}.

(** Two tensors of one shape holding the same numbers. *)
Definition same_numbers (a b : Tensor) : Prop :=
  shape a = shape b ∧ Forall2 F32.same_number (data a) (data b).

(** * Sample inputs *)

Module Sample.

Definition ones_like (t : Tensor) : Tensor :=
  {| shape := shape t; data := (λ _, F32.one) <$> data t |}.

(** Stand-ins for what the round takes from outside: an aggregation state
    without content, losses that are constantly 0.0 and a differentiation
    that answers 1.0 in every coordinate. *)
Definition capabilities : Capabilities.
Proof.
  refine {| AggregationState := unit;
            no_aggregation_state := ();
            gradients := λ _ vals, ones_like <$> vals;
            WassersteinGanLossFns := λ _,
              {| generator_loss := λ _ _ _, F32.zero;
                 discriminator_loss := λ _ _ _ _, F32.zero |} |}.
  intros _ vals. induction vals; constructor; auto.
Defined.

#[local] Existing Instance capabilities.

Definition vec (xs : list spec_float) : Tensor := {| shape := [length xs]; data := xs |}.
Definition cell (xs : list spec_float) : TfVariable :=
  {| trainable := true; value := vec xs |}.
Definition fixed_cell (xs : list spec_float) : TfVariable :=
  {| trainable := false; value := vec xs |}.

Definition half : spec_float := S754_finite false 8388608 (-24).   (* 0.5 *)

Definition counters : gmap string Z :=
  {[ "num_discriminator_train_examples" := 0%Z;
     "num_generator_train_examples" := 0%Z;
     "num_rounds" := 0%Z ]}.

Definition state : ServerState.t :=
  {| ServerState.generator_weights := [vec [F32.one]; vec [F32.zero]];
     ServerState.discriminator_weights := [vec [F32.one; F32.zero]];
     ServerState.counters := 1%positive;
     ServerState.aggregation_state := () |}.

(** A generator of one trainable and one fixed variable, a discriminator of
    one trainable variable of two elements, and the state of round 0. *)
Definition world : World :=
  {| generator := {| weights := [cell [F32.one]; fixed_cell [F32.zero]] |};
     discriminator := {| weights := [cell [F32.one; F32.zero]] |};
     states := {[ 1%positive := state ]};
     dicts := {[ 1%positive := counters ]};
     trace := [] |}.

Definition from_server : FromServer.t :=
  {| FromServer.generator_weights := [vec [F32.ten]; vec [F32.one]];
     FromServer.discriminator_weights := [vec [F32.ten; F32.one]] |}.

Definition row : list spec_float := [F32.one].
Definition gen_inputs_ds : list Batch := [[row; row]; [row]].
Definition real_data_ds : list Batch := [[row]; [row; row; row]; [row]].

Definition train_discriminator_fn : TrainDiscriminatorFn := λ _ _, mret 0%Z.
Definition train_generator_fn : TrainGeneratorFn := λ _, mret 0%Z.

Definition client_output : ClientOutput.t :=
  {| ClientOutput.discriminator_weights_delta := [vec [F32.one; F32.one]];
     ClientOutput.update_weight := F32.of_Z 7;
     ClientOutput.counters := {[ "num_discriminator_train_examples" := 7%Z ]} |}.

Definition zero_client_output : ClientOutput.t :=
  {| ClientOutput.discriminator_weights_delta := [vec [F32.zero; F32.zero]];
     ClientOutput.update_weight := F32.zero;
     ClientOutput.counters := {[ "num_discriminator_train_examples" := 0%Z ]} |}.

(** A client output that counts rounds itself. *)
Definition round_counting_output : ClientOutput.t :=
  {| ClientOutput.discriminator_weights_delta := [vec [F32.one; F32.one]];
     ClientOutput.update_weight := F32.of_Z 7;
     ClientOutput.counters := {[ "num_rounds" := 5%Z ]} |}.

(** A client output with a counter the server does not have. *)
Definition new_key_output : ClientOutput.t :=
  {| ClientOutput.discriminator_weights_delta := [vec [F32.one; F32.one]];
     ClientOutput.update_weight := F32.of_Z 7;
     ClientOutput.counters := {[ "num_batches" := 3%Z ]} |}.

(** A delta of one tensor, as the discriminator has one weight, but of
    another shape; and a delta of two tensors. *)
Definition other_shape_output : ClientOutput.t :=
  {| ClientOutput.discriminator_weights_delta := [vec [F32.one]];
     ClientOutput.update_weight := F32.of_Z 7;
     ClientOutput.counters := {[ "num_discriminator_train_examples" := 7%Z ]} |}.

Definition other_count_output : ClientOutput.t :=
  {| ClientOutput.discriminator_weights_delta := [vec [F32.one; F32.one]; vec [F32.one]];
     ClientOutput.update_weight := F32.of_Z 7;
     ClientOutput.counters := {[ "num_discriminator_train_examples" := 7%Z ]} |}.

(** An optimizer whose update rule leaves every variable as it is. *)
Definition keep_optimizer : Optimizer := {| resource_apply_dense := λ _ var, Ok var |}.

(** A batch of [2^30] rows. *)
Definition big_batch : Batch := replicate (Pos.to_nat 1073741824) row.

(** Broadcast weights with an infinite discriminator weight. *)
Definition infinite_from_server : FromServer.t :=
  {| FromServer.generator_weights := [vec [F32.ten]; vec [F32.one]];
     FromServer.discriminator_weights := [vec [S754_infinity false; F32.one]] |}.

(** The smallest positive float32, [2^-149], and a world whose discriminator
    holds it. *)
Definition tiny : spec_float := S754_finite false 1 (-149).

Definition world_with_subnormal_weight : World :=
  {| generator := generator world;
     discriminator := {| weights := [cell [tiny; F32.one]] |};
     states := states world;
     dicts := dicts world;
     trace := [] |}.

(** A state whose discriminator holds that number, and a world that stores
    it as state 1. *)
Definition subnormal_state : ServerState.t :=
  {| ServerState.generator_weights := [vec [F32.one]; vec [F32.zero]];
     ServerState.discriminator_weights := [vec [tiny; F32.one]];
     ServerState.counters := 1%positive;
     ServerState.aggregation_state := () |}.

Definition world_with_subnormal_state : World :=
  {| generator := generator world;
     discriminator := discriminator world;
     states := {[ 1%positive := subnormal_state ]};
     dicts := dicts world;
     trace := [] |}.

(** Counters at the last round an int32 can count, and a world whose state
    refers to them. *)
Definition counters_at_last_round : gmap string Z :=
  {[ "num_discriminator_train_examples" := 0%Z;
     "num_generator_train_examples" := 0%Z;
     "num_rounds" := 2147483647%Z ]}.

Definition world_at_last_round : World :=
  {| generator := generator world;
     discriminator := discriminator world;
     states := states world;
     dicts := {[ 1%positive := counters_at_last_round ]};
     trace := [] |}.

(** A client output that names two counters the server does not have. *)
Definition two_new_keys_output : ClientOutput.t :=
  {| ClientOutput.discriminator_weights_delta := [vec [F32.one; F32.one]];
     ClientOutput.update_weight := F32.of_Z 7;
     ClientOutput.counters :=
       {| items := [("zebra", 1%Z); ("apple", 2%Z)]; items_unique := I |} |}.

End Sample.

(** * Vocabulary of the further properties *)

(** The same variables, the fixed ones with their values: position by
    position the same flag and the same shape, and the same value where the
    variable is not trainable. *)
Definition keeps_fixed (vs vs' : list TfVariable) : Prop :=
  Forall2 (λ v v', trainable v = trainable v' ∧ shape (value v) = shape (value v') ∧
                   (trainable v = false → value v' = value v)) vs vs'.

(** The counters of the initial state, lines 174-177. *)
Definition zero_counters : gmap string Z :=
  <[ "num_discriminator_train_examples" := 0%Z ]>
    (<[ "num_generator_train_examples" := 0%Z ]> {[ "num_rounds" := 0%Z ]}).

(** What a server broadcasts from a state. *)
Definition broadcast `{Capabilities} (s : ServerState.t) : FromServer.t :=
  {| FromServer.generator_weights := ServerState.generator_weights s;
     FromServer.discriminator_weights := ServerState.discriminator_weights s |}.

(** ** Nested structures and [assert_no_anon_tuples] *)

(** A nested structure as [tf.nest] walks it: a leaf, of which the check
    reads [str(type(t))] only, or a sequence of structures. *)
#[warnings="-register-all"] Inductive Nest :=
  | Leaf (type_str : string)
  | Nested (children : list Nest).

(** [tf.nest.flatten]: the leaves from left to right. *)
Fixpoint flatten (x : Nest) : list string :=
  match x with
  | Leaf t => [t]
  | Nested xs => concat (List.map flatten xs)
  end.

(** [needle in hay] on Python strings. *)
Fixpoint str_contains (needle hay : string) : bool :=
  String.prefix needle hay ||
  match hay with
  | EmptyString => false
  | String _ hay' => str_contains needle hay'
  end.

Definition check_anon (type_str : string) : outcome unit :=
  if str_contains "Struct" type_str then Raise ValueError else Ok ().

(** [tf.nest.map_structure] of a function called for its exception alone:
    the leaves are visited in order, the first exception ends the walk. *)
Fixpoint visit_leaves (f : string → outcome unit) (leaves : list string) : outcome unit :=
  match leaves with
  | [] => Ok ()
  | t :: leaves' => f t;; visit_leaves f leaves'
  end.

Definition assert_no_anon_tuples (x : Nest) : outcome Nest :=
  visit_leaves check_anon (flatten x);; mret x.

(** The string [t] has [needle] inside. *)
Definition has_inside (needle t : string) : Prop := ∃ a b, t = a +:+ needle +:+ b.

(** * Further sample inputs *)

Module FurtherSample.

#[local] Existing Instance Sample.capabilities.

(** A discriminator of one trainable and one fixed variable, and broadcast
    weights for it. *)
Definition world_with_fixed_variable : World :=
  {| generator := generator Sample.world;
     discriminator := {| weights := [Sample.cell [F32.one; F32.zero];
                                     Sample.fixed_cell [F32.zero]] |};
     states := states Sample.world;
     dicts := dicts Sample.world;
     trace := [] |}.

Definition from_server_two_weights : FromServer.t :=
  {| FromServer.generator_weights := [Sample.vec [F32.ten]; Sample.vec [F32.one]];
     FromServer.discriminator_weights := [Sample.vec [F32.ten; F32.one];
                                          Sample.vec [F32.one]] |}.

(** Counters without the two entries that the server itself adds to, and a
    world whose state refers to them. *)
Definition client_counters_only : gmap string Z :=
  {[ "num_discriminator_train_examples" := 0%Z ]}.

Definition world_without_round_counters : World :=
  {| generator := generator Sample.world;
     discriminator := discriminator Sample.world;
     states := states Sample.world;
     dicts := {[ 1%positive := client_counters_only ]};
     trace := [] |}.

End FurtherSample.

(** * Proofs *)

Section Proofs.
Context `{Capabilities}.

Lemma bind_ok {A B} (m : M A) (k : A → M B) w a w' :
  m w = (Ok a, w') → (m ≫= k) w = k a w'.
Proof. intros E. unfold mbind, M_bind. by rewrite E. Qed.

Lemma bind_raise {A B} (m : M A) (k : A → M B) w e w' :
  m w = (Raise e, w') → (m ≫= k) w = (Raise e, w').
Proof. intros E. unfold mbind, M_bind. by rewrite E. Qed.

Lemma same_layout_refl vs : same_layout vs vs.
Proof. induction vs; constructor; auto. Qed.

Lemma same_layout_trans vs1 vs2 vs3 :
  same_layout vs1 vs2 → same_layout vs2 vs3 → same_layout vs1 vs3.
Proof.
  intros H12. revert vs3.
  induction H12 as [|a b ? ? [? ?] ? IH]; intros vs3 H23;
    inversion H23 as [|? c ? ? [? ?]]; subst; constructor.
  - split; congruence.
  - by apply IH.
Qed.

Lemma tf_function_ok {A} (m : M A) w a w' :
  m w = (Ok a, w') → tf_function m w = (Ok a, w').
Proof. intros E. unfold tf_function. by rewrite E. Qed.

Lemma tf_function_raise {A} (m : M A) w e :
  (m w).1 = Raise e → tf_function m w = (Raise e, w).
Proof. unfold tf_function. destruct (m w) as [[a|e'] w']; [done|]. by intros [= ->]. Qed.

Lemma tf_function_fst {A} (m : M A) w : (tf_function m w).1 = (m w).1.
Proof. unfold tf_function. by destruct (m w) as [[a|e] w']. Qed.

(** *** int32 facts *)

Lemma wrap_in_range z : Int32.in_range z → Int32.wrap z = z.
Proof.
  unfold Int32.in_range, Int32.wrap. intros Hz.
  rewrite Z.mod_small by lia. lia.
Qed.

Lemma wrap_range z : Int32.in_range (Int32.wrap z).
Proof.
  unfold Int32.in_range, Int32.wrap.
  pose proof (Z.mod_pos_bound (z + 2147483648) 4294967296). lia.
Qed.

Lemma wrap_add_l x y : Int32.wrap (Int32.wrap x + y) = Int32.wrap (x + y).
Proof.
  unfold Int32.wrap. f_equal.
  replace ((x + 2147483648) `mod` 4294967296 - 2147483648 + y + 2147483648)%Z
    with ((x + 2147483648) `mod` 4294967296 + y)%Z by lia.
  rewrite Zplus_mod_idemp_l. f_equal. lia.
Qed.

Lemma wrap_add_r x y : Int32.wrap (x + Int32.wrap y) = Int32.wrap (x + y).
Proof. by rewrite Z.add_comm, wrap_add_l, Z.add_comm. Qed.

Lemma wrap_wrap z : Int32.wrap (Int32.wrap z) = Int32.wrap z.
Proof. apply wrap_in_range, wrap_range. Qed.

(** Whatever the optimizer, a variable keeps its flag and its shape. *)
Lemma apply_gradients_layout opt gvs vs :
  apply_gradients opt gvs = Ok vs → same_layout (gvs.*2) vs.
Proof.
  revert vs. induction gvs as [|[g v] gvs IH]; intros vs; simpl.
  - intros [= <-]. constructor.
  - destruct (resource_apply_dense opt g (value v)) as [t|]; simpl; [|done].
    unfold assign. destruct (decide _) as [E|]; simpl; [|done].
    destruct (apply_gradients opt gvs) as [vs'|]; simpl; [|done].
    intros [= <-]. constructor; [done|]. by apply IH.
Qed.

(** *** Ordered dictionaries *)

Lemma items_NoDup (d : OrderedDict) : NoDup (items d).*1.
Proof. exact (bool_decide_unpack _ (items_unique d)). Qed.

Lemma ordered_dict_elem_of_dom (d : OrderedDict) k : k ∈ dom d ↔ is_Some (d !! k).
Proof.
  unfold dom, ordered_dict_dom, lookup, ordered_dict_lookup.
  by rewrite <- elem_of_dom, dom_list_to_map_L.
Qed.

Lemma ordered_dict_lookup_singleton k v : ({[ k := v ]} : OrderedDict) !! k = Some v.
Proof.
  unfold lookup, ordered_dict_lookup. cbn [items singletonM ordered_dict_singleton].
  cbn [list_to_map foldr uncurry]. apply lookup_insert_eq.
Qed.

Lemma ordered_dict_lookup_singleton_ne k k' v :
  k ≠ k' → ({[ k := v ]} : OrderedDict) !! k' = None.
Proof.
  intros Hne. unfold lookup, ordered_dict_lookup.
  cbn [items singletonM ordered_dict_singleton list_to_map foldr uncurry].
  by rewrite lookup_insert_ne.
Qed.

Lemma ordered_dict_dom_singleton k v : dom ({[ k := v ]} : OrderedDict) = {[ k ]}.
Proof.
  unfold dom, ordered_dict_dom. cbn [items singletonM ordered_dict_singleton].
  cbn. apply (right_id_L ∅ (∪)).
Qed.

Lemma first_missing_None d keys :
  first_missing d keys = None ↔ Forall (λ k, is_Some (d !! k)) keys.
Proof.
  induction keys as [|k keys IH]; cbn [first_missing]; [by split; [constructor|]|].
  destruct (d !! k) as [x|] eqn:Ek.
  - rewrite IH. split; [intros Hf; constructor; [by rewrite Ek|done]|].
    by intros [_ Hf]%Forall_cons.
  - split; [done|]. intros [[x Hx] _]%Forall_cons. congruence.
Qed.

Lemma first_missing_Some d keys k :
  first_missing d keys = Some k → k ∈ keys ∧ d !! k = None.
Proof.
  induction keys as [|k' keys IH]; cbn [first_missing]; [done|].
  destruct (d !! k') as [x|] eqn:Ek.
  - intros [Hin Hk]%IH. split; [by right|done].
  - intros [= <-]. split; [by left|done].
Qed.

Lemma first_missing_insert d keys k x y :
  d !! k = Some x → first_missing (<[k := y]> d) keys = first_missing d keys.
Proof.
  intros Ek. induction keys as [|k' keys IH]; cbn [first_missing]; [done|].
  destruct (decide (k = k')) as [<-|Hne].
  - by rewrite lookup_insert_eq, Ek.
  - rewrite lookup_insert_ne by done. by rewrite IH.
Qed.

Lemma first_missing_keys (d : gmap string Z) (client : OrderedDict) :
  first_missing d (items client).*1 = None ↔ dom client ⊆ dom d.
Proof.
  rewrite first_missing_None, Forall_forall. split.
  - intros Hf k Hk. apply elem_of_dom, Hf.
    unfold dom, ordered_dict_dom in Hk. by apply elem_of_list_to_set in Hk.
  - intros Hs k Hk. apply elem_of_dom, Hs.
    unfold dom, ordered_dict_dom. by apply elem_of_list_to_set.
Qed.

Lemma write_trainable_layout ws new :
  same_layout (List.filter trainable ws) new → same_layout ws (write_trainable ws new).
Proof.
  revert new. induction ws as [|v ws IH]; intros new; simpl; [constructor|].
  destruct (trainable v) eqn:Et.
  - inversion 1 as [|? n ? new' [? ?]]; subst. constructor; [split; congruence|]. by apply IH.
  - intros Hl. constructor; [done|]. by apply IH.
Qed.

Lemma SGD_apply_gradients_ok lr gvs :
  Forall (λ gv, shape gv.1 = shape (value gv.2)) gvs →
  ∃ vs, apply_gradients (SGD lr) gvs = Ok vs.
Proof.
  induction 1 as [|[g v] gvs E _ [vs IH]]; simpl in *; [by eexists|].
  unfold tf_subtract. simpl. rewrite decide_True by done. simpl.
  unfold assign. simpl. rewrite decide_True by done. simpl.
  rewrite IH. simpl. by eexists.
Qed.

Lemma minimize_SGD_ok lr loss vars :
  ∃ vs, minimize (SGD lr) loss vars = Ok vs ∧ same_layout vars vs.
Proof.
  unfold minimize.
  destruct (SGD_apply_gradients_ok lr (zip (gradients loss (value <$> vars)) vars)) as [vs E].
  - pose proof (gradients_shape loss (value <$> vars)) as Hs.
    apply Forall2_fmap_r in Hs. revert Hs. generalize (gradients loss (value <$> vars)).
    intros gs Hs. induction Hs; simpl; constructor; auto.
  - exists vs. split; [done|]. apply apply_gradients_layout in E.
    rewrite snd_zip in E; [done|].
    pose proof (gradients_shape loss (value <$> vars)) as Hs.
    apply Forall2_length in Hs. rewrite length_fmap in Hs. lia.
Qed.

Lemma sum_Z_cons x xs : sum_Z (x :: xs) = (x + sum_Z xs)%Z.
Proof. reflexivity. Qed.

Ltac run := unfold gets, lift, modify, record, mbind, M_bind, mret, M_ret; simpl.
Ltac unret := unfold mret, M_ret.

Lemma train_discriminator_fn_spec fns lr gi rd w :
  ∃ d', same_layout (weights (discriminator w)) (weights d') ∧
    create_train_discriminator_fn fns (SGD lr) gi rd w =
      (Ok (Z.of_nat (length rd)),
       {| generator := generator w; discriminator := d'; states := states w;
          dicts := dicts w; trace := trace w ++ [DiscriminatorStep gi rd] |}).
Proof.
  unfold create_train_discriminator_fn. run.
  match goal with |- context [minimize _ ?l ?v] =>
    destruct (minimize_SGD_ok lr l v) as (vs & -> & Hl) end.
  eexists {| weights := _ |}. split; [|reflexivity].
  simpl. by apply write_trainable_layout.
Qed.

Lemma train_generator_fn_spec fns lr gi w :
  ∃ g', same_layout (weights (generator w)) (weights g') ∧
    create_train_generator_fn fns (SGD lr) gi w =
      (Ok (Z.of_nat (length gi)),
       {| generator := g'; discriminator := discriminator w; states := states w;
          dicts := dicts w; trace := trace w ++ [GeneratorStep gi] |}).
Proof.
  unfold create_train_generator_fn. run.
  match goal with |- context [minimize _ ?l ?v] =>
    destruct (minimize_SGD_ok lr l v) as (vs & -> & Hl) end.
  eexists {| weights := _ |}. split; [|reflexivity].
  simpl. by apply write_trainable_layout.
Qed.

Lemma client_loop_spec fns lr pairs acc w :
  Int32.wrap acc = acc →
  ∃ d', same_layout (weights (discriminator w)) (weights d') ∧
    for_each pairs (client_step (create_train_discriminator_fn fns (SGD lr))) acc w =
      (Ok (Int32.wrap (acc + sum_Z (examples_in <$> pairs))),
       {| generator := generator w; discriminator := d'; states := states w;
          dicts := dicts w; trace := trace w ++ (step_event <$> pairs) |}).
Proof.
  revert acc w. induction pairs as [|[gi rd] pairs IH]; intros acc w Hacc.
  - exists (discriminator w). split; [apply same_layout_refl|].
    simpl. run. rewrite Z.add_0_r, Hacc, app_nil_r. by destruct w.
  - destruct (train_discriminator_fn_spec fns lr
                (take (length rd `min` length gi) gi)
                (take (length rd `min` length gi) rd) w) as (d1 & Hl1 & E1).
    match type of E1 with _ = (Ok ?n, ?w1) =>
      destruct (IH (Int32.add acc n) w1) as (d' & Hl & E) end.
    { apply wrap_wrap. }
    exists d'. split; [by eapply same_layout_trans|].
    cbn [for_each].
    erewrite bind_ok;
      [|unfold client_step; cbn beta iota; erewrite bind_ok; [|exact E1]; reflexivity].
    rewrite E. cbn [generator discriminator states dicts trace].
    rewrite !fmap_cons, sum_Z_cons, length_take, <- app_assoc.
    unfold examples_in at 2. cbn [fst snd]. unfold Int32.add. rewrite wrap_add_l.
    do 3 f_equal; lia.
Qed.

Lemma server_loop_spec fns lr ds acc w :
  Int32.wrap acc = acc →
  ∃ g', same_layout (weights (generator w)) (weights g') ∧
    for_each ds (server_step (create_train_generator_fn fns (SGD lr))) acc w =
      (Ok (Int32.wrap (acc + rows ds)),
       {| generator := g'; discriminator := discriminator w; states := states w;
          dicts := dicts w; trace := trace w ++ (GeneratorStep <$> ds) |}).
Proof.
  unfold rows. revert acc w. induction ds as [|gi ds IH]; intros acc w Hacc.
  - exists (generator w). split; [apply same_layout_refl|].
    simpl. run. rewrite Z.add_0_r, Hacc, app_nil_r. by destruct w.
  - destruct (train_generator_fn_spec fns lr gi w) as (g1 & Hl1 & E1).
    match type of E1 with _ = (Ok ?n, ?w1) =>
      destruct (IH (Int32.add acc n) w1) as (g' & Hl & E) end.
    { apply wrap_wrap. }
    exists g'. split; [by eapply same_layout_trans|].
    cbn [for_each].
    erewrite bind_ok;
      [|unfold server_step; erewrite bind_ok; [|exact E1]; reflexivity].
    rewrite E. cbn [generator discriminator states dicts trace].
    rewrite !fmap_cons, sum_Z_cons, <- app_assoc.
    cbn [compose]. unfold Int32.add. rewrite wrap_add_l. do 3 f_equal; lia.
Qed.

Lemma assign_ok v t :
  shape (value v) = shape t → assign v t = Ok {| trainable := trainable v; value := t |}.
Proof. intros E. unfold assign. by rewrite decide_True. Qed.

Lemma assign_raises v t : shape (value v) ≠ shape t → assign v t = Raise ValueError.
Proof. intros E. unfold assign. by rewrite decide_False. Qed.

Lemma tf_subtract_ok a b :
  shape a = shape b →
  tf_subtract a b = Ok {| shape := shape a; data := zip_with F32.sub (data a) (data b) |}.
Proof. intros E. unfold tf_subtract. by rewrite decide_True. Qed.

Lemma traverse2_assign vs ts :
  Forall2 (λ v t, shape (value v) = shape t) vs ts →
  traverse2 assign vs ts = Ok (with_values vs ts).
Proof.
  induction 1 as [|v t vs ts E _ IH]; simpl; [done|].
  by rewrite IH, assign_ok.
Qed.

Lemma load_weights_ok m ws :
  loadable m ws → load_weights m ws = Ok {| weights := with_values (weights m) ws |}.
Proof.
  intros Hl. unfold load_weights, map_structure2, assert_same_structure.
  rewrite decide_True by by eapply Forall2_length. simpl.
  by rewrite traverse2_assign.
Qed.

Lemma with_values_values vs ts :
  length vs = length ts → value <$> with_values vs ts = ts.
Proof.
  revert ts. induction vs as [|v vs IH]; intros [|t ts]; simpl; try done.
  intros [= E]. by rewrite IH.
Qed.

Lemma with_values_layout vs ts :
  Forall2 (λ v t, shape (value v) = shape t) vs ts → same_layout vs (with_values vs ts).
Proof. induction 1; constructor; auto. Qed.

Lemma traverse2_subtract xs ys :
  Forall2 (λ a b, shape a = shape b) xs ys →
  traverse2 tf_subtract xs ys = Ok (subtract_all xs ys).
Proof.
  induction 1 as [|a b xs ys E _ IH]; simpl; [done|].
  by rewrite IH, tf_subtract_ok.
Qed.

Lemma load_generator_ok ws w :
  loadable (generator w) ws →
  load_generator ws w =
    (Ok (), set_generator {| weights := with_values (weights (generator w)) ws |} w).
Proof. intros Hl. unfold load_generator. run. by rewrite load_weights_ok. Qed.

Lemma load_discriminator_ok ws w :
  loadable (discriminator w) ws →
  load_discriminator ws w =
    (Ok (), set_discriminator {| weights := with_values (weights (discriminator w)) ws |} w).
Proof. intros Hl. unfold load_discriminator. run. by rewrite load_weights_ok. Qed.

Lemma layout_shapes vs vs' ts :
  Forall2 (λ v t, shape (value v) = shape t) vs ts → same_layout vs vs' →
  Forall2 (λ a b, shape a = shape b) (value <$> vs') ts.
Proof.
  intros Hs Hl. revert ts Hs.
  induction Hl as [|v v' vs vs' [_ E] _ IH]; intros ts Hs; inversion Hs; subst; simpl;
    constructor; [congruence|by apply IH].
Qed.

Lemma client_computation_from_loop gens reals from_server f w n w1 :
  loadable (generator w) (FromServer.generator_weights from_server) →
  loadable (discriminator w) (FromServer.discriminator_weights from_server) →
  for_each (zip gens reals)
    (client_step (create_train_discriminator_fn (WassersteinGanLossFns F32.ten)
                    (SGD F32.lr_0_0005))) 0%Z (client_loaded from_server w) = (Ok n, w1) →
  same_layout (weights (discriminator (client_loaded from_server w)))
    (weights (discriminator w1)) →
  client_computation gens reals from_server f w =
    (Ok (client_output_of n (discriminator w1) from_server), w1).
Proof.
  intros Hg Hd Eloop Hl. unfold client_computation. apply tf_function_ok.
  erewrite bind_ok; [|by apply load_generator_ok].
  erewrite bind_ok; [|by apply load_discriminator_ok].
  erewrite bind_ok; [|exact Eloop].
  run. unfold map_structure2, assert_same_structure.
  assert (Forall2 (λ a b, shape a = shape b) (_weights (discriminator w1))
            (FromServer.discriminator_weights from_server)) as Hs.
  { eapply layout_shapes; [|exact Hl]. simpl.
    clear -Hd. unfold loadable in Hd. induction Hd; simpl; constructor; auto. }
  rewrite decide_True by by eapply Forall2_length. simpl.
  rewrite traverse2_subtract by done. simpl.
  unfold zero_all_if_any_non_finite, client_output_of.
  by destruct (any_non_finite _).
Qed.

Lemma client_computation_spec gens reals from_server f w :
  loadable (generator w) (FromServer.generator_weights from_server) →
  loadable (discriminator w) (FromServer.discriminator_weights from_server) →
  ∃ d',
    same_layout (weights (discriminator (client_loaded from_server w))) (weights d') ∧
    client_computation gens reals from_server f w =
      (Ok (client_output_of (Int32.wrap (sum_Z (examples_in <$> zip gens reals)))
             d' from_server),
       {| generator := generator (client_loaded from_server w);
          discriminator := d'; states := states w; dicts := dicts w;
          trace := trace w ++ (step_event <$> zip gens reals) |}).
Proof.
  intros Hg Hd.
  destruct (client_loop_spec (WassersteinGanLossFns F32.ten) F32.lr_0_0005
              (zip gens reals) 0%Z (client_loaded from_server w)) as (d' & Hl & E);
    [reflexivity|].
  exists d'. split; [done|].
  erewrite client_computation_from_loop; [|done|done|exact E|done].
  reflexivity.
Qed.

(** *** The server round *)

Lemma read_state_ok l s w : states w !! l = Some s → read_state l w = (Ok s, w).
Proof. intros E. unfold read_state. by rewrite E. Qed.

Lemma read_dict_ok l d w : dicts w !! l = Some d → read_dict l w = (Ok d, w).
Proof. intros E. unfold read_dict. by rewrite E. Qed.

Lemma state_counters_ok l s w :
  states w !! l = Some s → state_counters l w = (Ok (ServerState.counters s), w).
Proof. intros E. unfold state_counters. by erewrite bind_ok; [|by apply read_state_ok]. Qed.

Lemma dict_iadd_ok l d k x v w :
  dicts w !! l = Some d → d !! k = Some x →
  dict_iadd l k v w = (Ok (), set_dicts (<[l := <[k := Int32.add x v]> d]> (dicts w)) w).
Proof.
  intros E Ek. unfold dict_iadd.
  erewrite bind_ok; [|by apply read_dict_ok]. by rewrite Ek.
Qed.

Lemma dict_iadd_missing l d k v w :
  dicts w !! l = Some d → d !! k = None →
  dict_iadd l k v w = (Raise (KeyError k), w).
Proof.
  intros E Ek. unfold dict_iadd.
  erewrite bind_ok; [|by apply read_dict_ok]. by rewrite Ek.
Qed.

Lemma evolve_with_copied_counters_ok l s d w :
  states w !! l = Some s → dicts w !! ServerState.counters s = Some d →
  evolve_with_copied_counters l w =
    (Ok (fresh (dom (states w))),
     {| generator := generator w; discriminator := discriminator w;
        states := <[fresh (dom (states w)) :=
                      {| ServerState.generator_weights := ServerState.generator_weights s;
                         ServerState.discriminator_weights := ServerState.discriminator_weights s;
                         ServerState.counters := fresh (dom (dicts w));
                         ServerState.aggregation_state := ServerState.aggregation_state s |}]>
                  (states w);
        dicts := <[fresh (dom (dicts w)) := d]> (dicts w);
        trace := trace w |}).
Proof.
  intros Es Ed. unfold evolve_with_copied_counters.
  erewrite bind_ok; [|by apply read_state_ok].
  erewrite bind_ok; [|by apply read_dict_ok].
  reflexivity.
Qed.

(** The client counters summed into the dictionary [c], entry by entry. *)
Lemma sum_counters_ok l s (kvs : list (string * Z)) : ∀ d w,
  states w !! l = Some s → dicts w !! ServerState.counters s = Some d →
  NoDup kvs.*1 → Forall (λ kv, is_Some (d !! kv.1)) kvs →
  ∃ d',
    for_each kvs (λ _ '(k, v), c ← state_counters l; dict_iadd c k v) () w =
      (Ok (), set_dicts (<[ServerState.counters s := d']> (dicts w)) w) ∧
    ∀ k, d' !! k =
           (λ x, match (list_to_map kvs : gmap string Z) !! k with
                 | Some v => Int32.add x v
                 | None => x
                 end) <$> d !! k.
Proof.
  induction kvs as [|[k v] kvs IH]; intros d w Es Ed Hnd Hin.
  - exists d. split.
    + simpl. run. rewrite insert_id by done. by destruct w.
    + intros k. simpl. rewrite lookup_empty. by destruct (d !! k).
  - apply NoDup_cons in Hnd as [Hk Hnd]. apply Forall_cons in Hin as [[x Ex] Hin].
    simpl in Ex.
    destruct (IH (<[k := Int32.add x v]> d)
                (set_dicts (<[ServerState.counters s := <[k := Int32.add x v]> d]>
                              (dicts w)) w))
      as (d' & E & Hd').
    + done.
    + simpl. by rewrite lookup_insert_eq.
    + done.
    + eapply Forall_impl; [exact Hin|]. intros [k' v'] [y Ey]. simpl in *.
      destruct (decide (k = k')) as [->|Hne].
      * rewrite lookup_insert_eq. by eexists.
      * rewrite lookup_insert_ne by done. by eexists.
    + exists d'. split.
      * cbn [for_each].
        erewrite bind_ok;
          [|erewrite bind_ok; [|by apply state_counters_ok]; by eapply dict_iadd_ok].
        rewrite E. unfold set_dicts. simpl. by rewrite insert_insert_eq.
      * intros k'. rewrite Hd'. simpl.
        destruct (decide (k = k')) as [<-|Hne].
        -- rewrite !lookup_insert_eq, Ex. simpl.
           by rewrite (not_elem_of_list_to_map_1 _ k) by done.
        -- by rewrite !lookup_insert_ne.
Qed.

Lemma apply_gradients_accepts opt gvs :
  accepts opt → Forall (λ gv, shape gv.1 = shape (value gv.2)) gvs →
  ∃ vs, apply_gradients opt gvs = Ok vs.
Proof.
  intros Hacc. induction 1 as [|[g v] gvs E _ [vs IH]]; simpl in *; [by eexists|].
  destruct (Hacc g (value v) E) as (t & -> & Et). simpl.
  rewrite assign_ok by done. simpl. rewrite IH. simpl. by eexists.
Qed.

Lemma SGD_accepts lr : accepts (SGD lr).
Proof.
  intros g v E. simpl. rewrite tf_subtract_ok by done. by eexists.
Qed.

Lemma negated_gradients_vars (delta : list Tensor) (ws : list TfVariable) :
  length delta = length ws →
  (zip_with (λ x v, (scalar_mul F32.neg_one x, v)) delta ws).*2 = ws.
Proof.
  revert ws. induction delta as [|x delta IH]; intros [|v ws]; simpl; try done.
  intros [= E]. by rewrite IH.
Qed.

Lemma update_server_discriminator_ok client_output opt w :
  accepts opt →
  Forall2 (λ x v, shape x = shape (value v))
    (ClientOutput.discriminator_weights_delta client_output) (weights (discriminator w)) →
  ∃ vs, same_layout (weights (discriminator w)) vs ∧
    update_server_discriminator client_output opt w =
      (Ok (), set_discriminator {| weights := vs |} w).
Proof.
  intros Hacc Hs. unfold update_server_discriminator. run.
  unfold assert_same_structure. rewrite decide_True by by eapply Forall2_length.
  match goal with |- context [apply_gradients opt ?gvs] =>
    destruct (apply_gradients_accepts opt gvs Hacc) as [vs E] end.
  { clear -Hs. induction Hs; simpl; constructor; auto. }
  rewrite E. exists vs. split; [|done].
  apply apply_gradients_layout in E.
  by rewrite negated_gradients_vars in E by by eapply Forall2_length.
Qed.

Lemma set_state_aggregation_state_ok l s a w :
  states w !! l = Some s →
  set_state_aggregation_state l a w =
    (Ok (), set_states (<[l := {| ServerState.generator_weights := ServerState.generator_weights s;
                                  ServerState.discriminator_weights := ServerState.discriminator_weights s;
                                  ServerState.counters := ServerState.counters s;
                                  ServerState.aggregation_state := a |}]> (states w)) w).
Proof.
  intros E. unfold set_state_aggregation_state.
  by erewrite bind_ok; [|by apply read_state_ok].
Qed.

Lemma set_state_generator_weights_ok l s ws w :
  states w !! l = Some s →
  set_state_generator_weights l ws w =
    (Ok (), set_states (<[l := {| ServerState.generator_weights := ws;
                                  ServerState.discriminator_weights := ServerState.discriminator_weights s;
                                  ServerState.counters := ServerState.counters s;
                                  ServerState.aggregation_state := ServerState.aggregation_state s |}]>
                          (states w)) w).
Proof.
  intros E. unfold set_state_generator_weights.
  by erewrite bind_ok; [|by apply read_state_ok].
Qed.

Lemma set_state_discriminator_weights_ok l s ws w :
  states w !! l = Some s →
  set_state_discriminator_weights l ws w =
    (Ok (), set_states (<[l := {| ServerState.generator_weights := ServerState.generator_weights s;
                                  ServerState.discriminator_weights := ws;
                                  ServerState.counters := ServerState.counters s;
                                  ServerState.aggregation_state := ServerState.aggregation_state s |}]>
                          (states w)) w).
Proof.
  intros E. unfold set_state_discriminator_weights.
  by erewrite bind_ok; [|by apply read_state_ok].
Qed.

Ltac norm :=
  try unfold set_states; try unfold set_dicts;
  try unfold set_generator; try unfold set_discriminator;
  cbn [generator discriminator states dicts trace
       ServerState.generator_weights ServerState.discriminator_weights
       ServerState.counters ServerState.aggregation_state].

(** The first lines of the body of a server round whose state loads: up to
    line 219. *)
Ltac server_loads :=
  (erewrite bind_ok; [|by eapply evolve_with_copied_counters_ok]);
  (erewrite bind_ok; [|apply read_state_ok; apply lookup_insert_eq]);
  norm;
  (erewrite bind_ok; [|by apply load_generator_ok]);
  norm;
  (erewrite bind_ok; [|apply read_state_ok; apply lookup_insert_eq]);
  norm;
  (erewrite bind_ok; [|by apply load_discriminator_ok]);
  norm.

Lemma delta_fits_loaded (delta : list Tensor) (ws : list TfVariable) (ts : list Tensor) :
  Forall2 (λ v t, shape (value v) = shape t) ws ts →
  Forall2 (λ x t, shape x = shape t) delta ts →
  Forall2 (λ x v, shape x = shape (value v)) delta (with_values ws ts).
Proof.
  intros Hd. revert delta.
  induction Hd; intros delta Hdelta; inversion Hdelta; subst; simpl; constructor; auto.
Qed.

Lemma update_server_discriminator_run client_output opt w vs :
  length (ClientOutput.discriminator_weights_delta client_output)
    = length (weights (discriminator w)) →
  apply_gradients opt
    (zip_with (λ x v, (scalar_mul F32.neg_one x, v))
       (ClientOutput.discriminator_weights_delta client_output)
       (weights (discriminator w))) = Ok vs →
  update_server_discriminator client_output opt w =
    (Ok (), set_discriminator {| weights := vs |} w).
Proof.
  intros El E. unfold update_server_discriminator. run.
  unfold assert_same_structure. rewrite decide_True by done. by rewrite E.
Qed.

(** A round on ready inputs, step by step: the discriminator as the
    optimizer returns it, the world [w6] in which the generator loop starts,
    what the loop returns, and the state and the world of the return. *)
Lemma server_computation_spec l s d ds client_output opt f agg w :
  round_ready w l s d client_output opt →
  ∃ vs w6 g',
    apply_gradients opt
      (zip_with (λ x v, (scalar_mul F32.neg_one x, v))
         (ClientOutput.discriminator_weights_delta client_output)
         (with_values (weights (discriminator w)) (ServerState.discriminator_weights s)))
      = Ok vs ∧
    generator w6 =
      {| weights := with_values (weights (generator w)) (ServerState.generator_weights s) |} ∧
    discriminator w6 = {| weights := vs |} ∧
    trace w6 = trace w ∧
    for_each ds
      (server_step (create_train_generator_fn (WassersteinGanLossFns F32.ten)
                      (SGD F32.lr_0_005))) 0%Z w6 =
      (Ok (Int32.wrap (rows ds)),
       {| generator := g'; discriminator := {| weights := vs |}; states := states w6;
          dicts := dicts w6; trace := trace w ++ (GeneratorStep <$> ds) |}) ∧
    server_computation l ds client_output opt f agg w =
      (Ok (fresh (dom (states w))),
       {| generator := g'; discriminator := {| weights := vs |};
          states := <[fresh (dom (states w)) :=
                        {| ServerState.generator_weights := _weights g';
                           ServerState.discriminator_weights := value <$> vs;
                           ServerState.counters := fresh (dom (dicts w));
                           ServerState.aggregation_state := agg |}]> (states w);
          dicts := <[fresh (dom (dicts w)) :=
                       round_counters d (ClientOutput.counters client_output) ds]> (dicts w);
          trace := trace w ++ (GeneratorStep <$> ds) |}).
Proof.
  intros [[Es Ed Hg Hd Hdelta Hacc] Hkeys [x1 Ex1] [x2 Ex2]].
  pose proof (delta_fits_loaded _ _ _ Hd Hdelta) as Hfit.
  destruct (apply_gradients_accepts opt
              (zip_with (λ x v, (scalar_mul F32.neg_one x, v))
                 (ClientOutput.discriminator_weights_delta client_output)
                 (with_values (weights (discriminator w))
                    (ServerState.discriminator_weights s))) Hacc) as [vs Evs].
  { clear -Hfit. induction Hfit; simpl; constructor; auto. }
  exists vs.
  set (l' := fresh (dom (states w))). set (c' := fresh (dom (dicts w))).
  unfold server_computation.
  match goal with |- context [tf_function ?body w] => set (python_function := body) end.
  enough (∃ w6 g',
    generator w6 =
      {| weights := with_values (weights (generator w)) (ServerState.generator_weights s) |} ∧
    discriminator w6 = {| weights := vs |} ∧
    trace w6 = trace w ∧
    for_each ds
      (server_step (create_train_generator_fn (WassersteinGanLossFns F32.ten)
                      (SGD F32.lr_0_005))) 0%Z w6 =
      (Ok (Int32.wrap (rows ds)),
       {| generator := g'; discriminator := {| weights := vs |}; states := states w6;
          dicts := dicts w6; trace := trace w ++ (GeneratorStep <$> ds) |}) ∧
    python_function w =
      (Ok l',
       {| generator := g'; discriminator := {| weights := vs |};
          states := <[l' :=
                        {| ServerState.generator_weights := _weights g';
                           ServerState.discriminator_weights := value <$> vs;
                           ServerState.counters := c';
                           ServerState.aggregation_state := agg |}]> (states w);
          dicts := <[c' := round_counters d (ClientOutput.counters client_output) ds]>
                     (dicts w);
          trace := trace w ++ (GeneratorStep <$> ds) |}))
    as (w6 & g' & H1 & H2 & H3 & H4 & H5).
  { exists w6, g'. split; [done|]. do 4 (split; [done|]). by apply tf_function_ok. }
  subst python_function.
  server_loads.
  erewrite bind_ok;
    [|apply update_server_discriminator_run; [by eapply Forall2_length|exact Evs]].
  norm.
  match goal with |- context [mbind _ (for_each (items ?m) _ ()) ?w4] =>
    destruct (sum_counters_ok l'
      {| ServerState.generator_weights := ServerState.generator_weights s;
         ServerState.discriminator_weights := ServerState.discriminator_weights s;
         ServerState.counters := c';
         ServerState.aggregation_state := ServerState.aggregation_state s |}
      (items m) d w4) as (dsum & E & Hsum) end.
  { apply lookup_insert_eq. }
  { apply lookup_insert_eq. }
  { apply items_NoDup. }
  { apply Forall_forall. intros [k v] Hin. simpl.
    apply elem_of_dom, Hkeys. unfold dom, ordered_dict_dom.
    apply elem_of_list_to_set, list_elem_of_fmap. by exists (k, v). }
  erewrite bind_ok; [|exact E]. clear E. norm. rewrite insert_insert_eq.
  erewrite bind_ok; [|apply set_state_aggregation_state_ok; apply lookup_insert_eq].
  norm. rewrite insert_insert_eq.
  match goal with |- context [mbind _ (for_each ds _ 0%Z) ?w6] =>
    destruct (server_loop_spec (WassersteinGanLossFns F32.ten) F32.lr_0_005 ds 0%Z w6
                eq_refl) as (g' & Hlg & E);
    exists w6, g' end.
  rewrite Z.add_0_l in E. cbn [generator discriminator states dicts trace] in E.
  split; [reflexivity|]. split; [reflexivity|]. split; [reflexivity|].
  split; [exact E|].
  erewrite bind_ok; [|exact E]. clear E. norm.
  erewrite bind_ok; [|apply state_counters_ok; apply lookup_insert_eq]. norm.
  erewrite bind_ok; [|eapply dict_iadd_ok;
                       [apply lookup_insert_eq|rewrite Hsum, Ex1; reflexivity]].
  norm. rewrite insert_insert_eq.
  erewrite bind_ok; [|apply state_counters_ok; apply lookup_insert_eq]. norm.
  erewrite bind_ok; [|eapply dict_iadd_ok;
                       [apply lookup_insert_eq
                       |rewrite lookup_insert_ne by done; rewrite Hsum, Ex2; reflexivity]].
  norm. rewrite insert_insert_eq.
  erewrite bind_ok; [|reflexivity]. norm.
  erewrite bind_ok; [|apply set_state_generator_weights_ok; apply lookup_insert_eq].
  norm. rewrite insert_insert_eq.
  erewrite bind_ok; [|reflexivity]. norm.
  erewrite bind_ok; [|apply set_state_discriminator_weights_ok; apply lookup_insert_eq].
  norm. rewrite insert_insert_eq.
  unret. do 3 f_equal.
  apply map_eq. intros k. unfold round_counters, after_round. rewrite map_lookup_imap.
  change ((list_to_map (items (ClientOutput.counters client_output)) : gmap string Z) !! ?k)
    with (ClientOutput.counters client_output !! k) in Hsum.
  destruct (decide (k = "num_rounds")) as [->|Hr].
  { rewrite lookup_insert_eq, Ex2. cbn [mbind option_bind].
    by repeat case_decide. }
  rewrite lookup_insert_ne by done.
  destruct (decide (k = "num_generator_train_examples")) as [->|Hgk].
  { rewrite lookup_insert_eq, Ex1. cbn [mbind option_bind].
    by repeat case_decide. }
  rewrite lookup_insert_ne by done. rewrite Hsum.
  destruct (d !! k); cbn [mbind option_bind fmap option_fmap option_map]; [|done].
  by repeat case_decide.
Qed.

(** *** The store under a server round *)

Lemma ends_bind {A B} I (R : A → Prop) (post : B → Prop) (m : M A) (k : A → M B) :
  ends_with I R m → (∀ a, R a → ends_with I post (k a)) → ends_with I post (m ≫= k).
Proof.
  intros Hm Hk w HI. destruct (Hm w HI) as [HI' HR].
  unfold mbind, M_bind. destruct (m w) as [[a|e] w1]; simpl in *.
  - by apply Hk; [apply HR|].
  - by split.
Qed.

Lemma ends_seq {A B} I (post : B → Prop) (m : M A) (k : A → M B) :
  ends_with I (λ _, True) m → (∀ a, ends_with I post (k a)) → ends_with I post (m ≫= k).
Proof. intros Hm Hk. eapply ends_bind; [exact Hm|]. intros a _. apply Hk. Qed.

Lemma ends_ret {A} I (post : A → Prop) a : post a → ends_with I post (mret a).
Proof. intros Hp w HI. split; [done|]. by intros ? [= <-]. Qed.

Lemma ends_lift {A} I (o : outcome A) : ends_with I (λ _, True) (lift o).
Proof. intros w HI. by split. Qed.

Lemma ends_gets {A} I (f : World → A) : ends_with I (λ _, True) (gets f).
Proof. intros w HI. by split. Qed.

Lemma ends_modify I (f : World → World) :
  (∀ w, I w → I (f w)) → ends_with I (λ _, True) (modify f).
Proof. intros Hf w HI. split; [by apply Hf|done]. Qed.

Lemma ends_for_each {A S} I (xs : list A) (body : S → A → M S) acc :
  (∀ acc x, ends_with I (λ _, True) (body acc x)) →
  ends_with I (λ _, True) (for_each xs body acc).
Proof.
  intros Hb. revert acc. induction xs as [|x xs IH]; intros acc; simpl.
  - by apply ends_ret.
  - apply ends_seq; [apply Hb|]. intros a. apply IH.
Qed.

Section Untouched.
Context (w0 : World) (l c : loc).
Hypothesis fresh_state : l ∉ dom (states w0).
Hypothesis fresh_dict : c ∉ dom (dicts w0).

Local Abbreviation I := (untouched w0 l c).

Lemma untouched_same_store w w' :
  states w' = states w → dicts w' = dicts w → I w → I w'.
Proof. intros Es Ed. unfold untouched. by rewrite Es, Ed. Qed.

Lemma ends_load_generator ws : ends_with I (λ _, True) (load_generator ws).
Proof.
  unfold load_generator. apply ends_seq; [apply ends_gets|]. intros g.
  apply ends_seq; [apply ends_lift|]. intros g'.
  apply ends_modify. intros w. by apply untouched_same_store.
Qed.

Lemma ends_load_discriminator ws : ends_with I (λ _, True) (load_discriminator ws).
Proof.
  unfold load_discriminator. apply ends_seq; [apply ends_gets|]. intros g.
  apply ends_seq; [apply ends_lift|]. intros g'.
  apply ends_modify. intros w. by apply untouched_same_store.
Qed.

Lemma ends_update_server_discriminator client_output opt :
  ends_with I (λ _, True) (update_server_discriminator client_output opt).
Proof.
  unfold update_server_discriminator. apply ends_seq; [apply ends_gets|]. intros d.
  apply ends_seq; [apply ends_lift|]. intros _.
  apply ends_seq; [apply ends_lift|]. intros vs.
  apply ends_modify. intros w. by apply untouched_same_store.
Qed.

Lemma ends_train_generator_fn fns opt gi :
  ends_with I (λ _, True) (create_train_generator_fn fns opt gi).
Proof.
  unfold create_train_generator_fn. apply ends_seq; [apply ends_gets|]. intros g.
  apply ends_seq; [apply ends_gets|]. intros d.
  apply ends_seq; [apply ends_lift|]. intros vs.
  apply ends_seq; [apply ends_modify; intros w; by apply untouched_same_store|]. intros _.
  apply ends_seq; [apply ends_modify; intros w; by apply untouched_same_store|]. intros _.
  by apply ends_ret.
Qed.

Lemma ends_read_state : ends_with I (λ s, ServerState.counters s = c) (read_state l).
Proof.
  intros w HI. unfold read_state. destruct HI as (H1 & H2 & s & Es & Ec).
  rewrite Es. simpl. split; [by repeat split; eauto|]. by intros ? [= <-].
Qed.

Lemma ends_state_counters : ends_with I (λ c', c' = c) (state_counters l).
Proof.
  unfold state_counters. eapply ends_bind; [apply ends_read_state|].
  intros s Ec. by apply ends_ret.
Qed.

Lemma ends_dict_iadd k v : ends_with I (λ _, True) (dict_iadd c k v).
Proof.
  intros w HI. unfold dict_iadd, read_dict, mbind, M_bind.
  destruct (dicts w !! c) as [d|]; [|by split].
  destruct (d !! k) as [x|]; [|by split].
  simpl. split; [|done]. destruct HI as (H1 & H2 & Hs). repeat split; [done| |done].
  intros c0 Hc0. simpl. rewrite lookup_insert_ne; [by apply H2|]. by intros ->.
Qed.

Lemma ends_write_state s :
  ServerState.counters s = c → ends_with I (λ _, True) (write_state l s).
Proof.
  intros Ec. apply ends_modify. intros w (H1 & H2 & Hs). repeat split; [|done|].
  - intros l0 Hl0. simpl. rewrite lookup_insert_ne; [by apply H1|]. by intros ->.
  - exists s. simpl. by rewrite lookup_insert_eq.
Qed.

Lemma ends_set_state_aggregation_state a :
  ends_with I (λ _, True) (set_state_aggregation_state l a).
Proof.
  unfold set_state_aggregation_state. eapply ends_bind; [apply ends_read_state|].
  intros s Ec. by apply ends_write_state.
Qed.

Lemma ends_set_state_generator_weights ws :
  ends_with I (λ _, True) (set_state_generator_weights l ws).
Proof.
  unfold set_state_generator_weights. eapply ends_bind; [apply ends_read_state|].
  intros s Ec. by apply ends_write_state.
Qed.

Lemma ends_set_state_discriminator_weights ws :
  ends_with I (λ _, True) (set_state_discriminator_weights l ws).
Proof.
  unfold set_state_discriminator_weights. eapply ends_bind; [apply ends_read_state|].
  intros s Ec. by apply ends_write_state.
Qed.

Lemma ends_counter_iadd k v :
  ends_with I (λ _, True) (c' ← state_counters l; dict_iadd c' k v).
Proof.
  eapply ends_bind; [apply ends_state_counters|]. intros ? ->. apply ends_dict_iadd.
Qed.
End Untouched.

Lemma server_computation_frame l ds client_output opt f agg w :
  let r := server_computation l ds client_output opt f agg w in
  (∀ l0, l0 ∈ dom (states w) → states r.2 !! l0 = states w !! l0) ∧
  (∀ c0, c0 ∈ dom (dicts w) → dicts r.2 !! c0 = dicts w !! c0) ∧
  ∀ l', r.1 = Ok l' →
    (l' ∉ dom (states w)) ∧
    ∃ s', states r.2 !! l' = Some s' ∧ ServerState.counters s' ∉ dom (dicts w).
Proof.
  unfold server_computation, tf_function.
  destruct (evolve_with_copied_counters l w) as [[l'|e] w1] eqn:Ev.
  - assert ((l' ∉ dom (states w)) ∧ ∃ c, (c ∉ dom (dicts w)) ∧ untouched w l' c w1)
      as (Hl' & c & Hc & HI).
    { revert Ev. unfold evolve_with_copied_counters, read_state, read_dict, new_dict,
        new_state, mbind, M_bind.
      destruct (states w !! l) as [s|]; [|done].
      destruct (dicts w !! ServerState.counters s) as [d|]; [|done].
      simpl. intros [= <- <-]. split; [apply is_fresh|].
      exists (fresh (dom (dicts w))). split; [apply is_fresh|].
      repeat split; simpl.
      - intros l0 Hl0. rewrite lookup_insert_ne; [done|].
        intros <-. by apply is_fresh in Hl0.
      - intros c0 Hc0. rewrite lookup_insert_ne; [done|].
        intros <-. by apply is_fresh in Hc0.
      - eexists. by rewrite lookup_insert_eq. }
    erewrite bind_ok; [|exact Ev].
    match goal with |- context [match ?m w1 with _ => _ end] =>
      assert (ends_with (untouched w l' c) (λ b, b = l') m) as Hend;
        [|destruct (Hend w1 HI) as [HI2 Hres]; destruct (m w1) as [[a|e] w2]] end.
    { eapply ends_bind; [by apply ends_read_state|]. intros s _.
      apply ends_seq; [by apply ends_load_generator|]. intros _.
      eapply ends_bind; [by apply ends_read_state|]. intros s' _.
      apply ends_seq; [by apply ends_load_discriminator|]. intros _.
      apply ends_seq; [by apply ends_update_server_discriminator|]. intros _.
      apply ends_seq.
      { apply ends_for_each. intros _ [k v]. by apply ends_counter_iadd. }
      intros _.
      apply ends_seq; [by apply ends_set_state_aggregation_state|]. intros _.
      apply ends_seq.
      { apply ends_for_each. intros acc gi. unfold server_step.
        apply ends_seq; [by apply ends_train_generator_fn|]. intros n.
        by apply ends_ret. }
      intros n.
      eapply ends_bind; [by apply ends_state_counters|]. intros ? ->.
      apply ends_seq; [by apply ends_dict_iadd|]. intros _.
      eapply ends_bind; [by apply ends_state_counters|]. intros ? ->.
      apply ends_seq; [by apply ends_dict_iadd|]. intros _.
      apply ends_seq; [apply ends_gets|]. intros g.
      apply ends_seq; [by apply ends_set_state_generator_weights|]. intros _.
      apply ends_seq; [apply ends_gets|]. intros d.
      apply ends_seq; [by apply ends_set_state_discriminator_weights|]. intros _.
      by apply ends_ret. }
    + destruct HI2 as (H1 & H2 & s' & Es' & Ec'). cbn [fst snd] in *.
      split; [done|]. split; [done|]. intros l'' [= <-].
      rewrite (Hres a eq_refl). split; [done|]. exists s'. by rewrite Ec'.
    + cbn [fst snd]. by repeat split.
  - erewrite bind_raise; [|exact Ev]. cbn [fst snd]. by repeat split.
Qed.

(** *** float32 facts *)

(** The literals are the float32 values nearest to the decimals of the
    source. *)
Example literals_rounded :
  F32.one = F32.of_Z 1 ∧ F32.neg_one = SFopp (F32.of_Z 1) ∧ F32.ten = F32.of_Z 10 ∧
  F32.lr_0_0005 = SFdiv F32.prec F32.emax (F32.of_Z 5) (F32.of_Z 10000) ∧
  F32.lr_0_005 = SFdiv F32.prec F32.emax (F32.of_Z 5) (F32.of_Z 1000).
Proof. by vm_compute. Qed.

Lemma Zpos_iter_succ (n : nat) (p : positive) :
  Zpos (Nat.iter n Pos.succ p) = (Zpos p + Z.of_nat n)%Z.
Proof.
  induction n as [|n IH]; simpl Nat.iter; [lia|]. rewrite Pos2Z.inj_succ, IH. lia.
Qed.

Lemma digits2_shift23 (m : positive) :
  Zpos (digits2_pos (8388608 * m)) = (Zpos (digits2_pos m) + 23)%Z.
Proof.
  change (digits2_pos (8388608 * m)) with (Nat.iter 23 Pos.succ (digits2_pos m)).
  apply Zpos_iter_succ.
Qed.

(** A product by a unit mantissa [2^23] at exponent [-23] rounds to the
    other factor, whatever the exponent range. *)
Lemma round_unit_multiple (emax : Z) (s : bool) (m : positive) (e : Z) :
  bounded F32.prec emax m e = true →
  binary_round_aux F32.prec emax s (Zpos (8388608 * m)) (-23 + e) loc_Exact
  = S754_finite s m e.
Proof.
  intros Hb. unfold bounded, canonical_mantissa in Hb.
  apply andb_prop in Hb as [Hc He]. apply Z.eqb_eq in Hc.
  unfold binary_round_aux, shr_fexp.
  unfold Zdigits2 at 1. rewrite digits2_shift23.
  replace (Z.pos (digits2_pos m) + 23 + (-23 + e))%Z
    with (Z.pos (digits2_pos m) + e)%Z by lia.
  rewrite Hc. replace (e - (-23 + e))%Z with 23%Z by lia.
  cbn [shr shr_record_of_loc].
  change (SpecFloat.iter_pos shr_1 23
            {| shr_m := Z.pos (8388608 * m); shr_r := false; shr_s := false |})
    with {| shr_m := Z.pos m; shr_r := false; shr_s := false |}.
  cbn [shr_m loc_of_shr_record round_nearest_even Zdigits2].
  replace (-23 + e + 23)%Z with e by lia.
  rewrite Hc, Z.sub_diag. cbn [shr shr_record_of_loc shr_m].
  by rewrite He.
Qed.

(** A normal float32 is a number of the wide format too. *)
Lemma bounded_wide m e :
  bounded F32.prec F32.emax m e = true →
  F32.is_subnormal (S754_finite false m e) = false →
  bounded F32.prec F32.wide_emax m e = true.
Proof.
  unfold bounded, canonical_mantissa, fexp, emin, F32.is_subnormal, F32.prec, F32.emax,
    F32.wide_emax.
  intros [Hc He]%andb_prop Hn. apply Z.eqb_eq in Hc. apply Z.leb_le in He.
  apply Z.leb_gt in Hn. apply andb_true_intro. split.
  - apply Z.eqb_eq. lia.
  - apply Z.leb_le. lia.
Qed.

Lemma flush_flush x : F32.flush (F32.flush x) = F32.flush x.
Proof.
  destruct x as [s|s| |s m e]; try reflexivity.
  cbn [F32.flush]. destruct (F32.is_subnormal _) eqn:E; [reflexivity|].
  cbn [F32.flush]. by rewrite E.
Qed.

Lemma flush_opp x : F32.flush (SFopp x) = SFopp (F32.flush x).
Proof.
  destruct x as [s|s| |s m e]; try reflexivity.
  unfold F32.flush, SFopp, F32.is_subnormal. by destruct (_ <=? _)%Z.
Qed.

Lemma flush_valid x : F32.valid x = true → F32.valid (F32.flush x) = true.
Proof.
  destruct x as [s|s| |s m e]; try done.
  intros Hv. unfold F32.flush. by destruct (F32.is_subnormal _).
Qed.

Lemma flush_cases x :
  (F32.is_subnormal x = true ∧ F32.is_zero (F32.flush x) = true) ∨
  (F32.is_subnormal x = false ∧ F32.flush x = x).
Proof.
  destruct x as [s|s| |s m e]; try (right; by split).
  unfold F32.flush. destruct (F32.is_subnormal _); [left|right]; by split.
Qed.

Lemma mul_unit_l (u : bool) x :
  F32.valid x = true →
  F32.mul (S754_finite u 8388608 (-23)) x =
    (if u then SFopp (F32.flush x) else F32.flush x).
Proof.
  intros Hv. unfold F32.mul.
  change (F32.flush (S754_finite u 8388608 (-23))) with (S754_finite u 8388608 (-23)).
  destruct (flush_cases x) as [[Hs Hz]|[Hs ->]].
  - destruct (F32.flush x) as [s| | |]; try discriminate. by destruct u, s.
  - destruct x as [s|s| |s m e]; try (by destruct u, s); try (by destruct u).
    assert (SFmul F32.prec F32.wide_emax (S754_finite u 8388608 (-23)) (S754_finite s m e)
            = S754_finite (xorb u s) m e) as ->.
    { unfold SFmul. apply round_unit_multiple. by apply bounded_wide. }
    assert (F32.is_subnormal (S754_finite (xorb u s) m e) = false) as -> by exact Hs.
    unfold SFmul. rewrite round_unit_multiple by exact Hv. by destruct u.
Qed.

Lemma mul_one_l x : F32.valid x = true → F32.mul F32.one x = F32.flush x.
Proof. apply (mul_unit_l false). Qed.

Lemma mul_neg_one_l x : F32.valid x = true → F32.mul F32.neg_one x = SFopp (F32.flush x).
Proof. apply (mul_unit_l true). Qed.

Lemma valid_opp x : F32.valid x = true → F32.valid (SFopp x) = true.
Proof. by destruct x. Qed.

Lemma SFsub_opp x y : SFsub F32.prec F32.emax x (SFopp y) = SFadd F32.prec F32.emax x y.
Proof.
  destruct x as [sx|sx| |sx mx ex], y as [sy|sy| |sy my ey]; try reflexivity;
    destruct sx, sy; reflexivity.
Qed.

Lemma sub_opp_flushed x y : F32.sub x (SFopp (F32.flush y)) = F32.add x y.
Proof.
  unfold F32.sub, F32.add. by rewrite flush_opp, flush_flush, SFsub_opp.
Qed.

Lemma sub_diag x : F32.is_finite x = true → F32.sub x x = F32.zero.
Proof.
  intros Hf. unfold F32.sub.
  destruct (flush_cases x) as [[Hs Hz]|[Hs ->]].
  - destruct (F32.flush x) as [s| | |]; try discriminate. by destruct s.
  - destruct x as [s|s| |s m e]; try discriminate.
    + by destruct s.
    + unfold SFsub. by rewrite Z.sub_diag.
Qed.

Lemma sub_diag_finite x : F32.is_finite (F32.sub x x) = true → F32.sub x x = F32.zero.
Proof.
  destruct (F32.is_finite x) eqn:E; [intros _; by apply sub_diag|].
  destruct x as [s|s| |s m e]; try discriminate; by try destruct s.
Qed.

(** With learning rate 1.0 the step adds the delta. *)
Lemma sgd_unit_step a b :
  F32.valid b = true →
  F32.sub a (F32.mul F32.one (F32.mul F32.neg_one b)) = F32.add a b.
Proof.
  intros Hv. rewrite mul_neg_one_l by done.
  rewrite mul_one_l by by apply valid_opp, flush_valid.
  by rewrite flush_opp, flush_flush, sub_opp_flushed.
Qed.

Lemma mul_zero_r lr b :
  F32.is_finite lr = true → F32.is_zero b = true → F32.is_zero (F32.mul lr b) = true.
Proof.
  intros Hlr Hb. destruct b as [sb| | |]; try discriminate.
  unfold F32.mul. change (F32.flush (S754_zero sb)) with (S754_zero sb).
  destruct (flush_cases lr) as [[Hs Hz]|[Hs ->]].
  - by destruct (F32.flush lr) as [s| | |]; try discriminate.
  - by destruct lr as [s|s| |s m e]; try discriminate.
Qed.

(** With a zero delta the step leaves the number as it is, a subnormal
    number apart, which is flushed. *)
Lemma sgd_zero_step lr a b :
  F32.is_finite lr = true → F32.is_zero b = true →
  F32.same_number (F32.sub a (F32.mul lr (F32.mul F32.neg_one b))) (F32.flush a).
Proof.
  intros Hlr Hb.
  assert (F32.is_zero (F32.mul lr (F32.mul F32.neg_one b)) = true) as Hz.
  { apply mul_zero_r; [done|]. by apply mul_zero_r. }
  destruct (F32.mul lr _) as [sz| | |]; try discriminate.
  unfold F32.sub. change (F32.flush (S754_zero sz)) with (S754_zero sz).
  destruct (flush_cases a) as [[Hs Ha]|[Hs Ea]].
  - destruct (F32.flush a) as [s| | |]; try discriminate. right. by destruct s, sz.
  - rewrite Ea. destruct a as [s|s| |s m e].
    + right. by destruct s, sz.
    + by left.
    + by left.
    + left. unfold SFsub, SFopp. cbn [F32.flush]. unfold F32.flush. by rewrite Hs.
Qed.

(** *** The server update under plain SGD *)

Lemma apply_gradients_SGD lr (delta : list Tensor) (ws : list TfVariable) :
  Forall2 (λ x v, shape x = shape (value v)) delta ws →
  apply_gradients (SGD lr) (zip_with (λ x v, (scalar_mul F32.neg_one x, v)) delta ws) =
    Ok (zip_with (λ x v, {| trainable := trainable v; value := stepped lr (value v) x |})
          delta ws).
Proof.
  induction 1 as [|x v delta ws E _ IH]; simpl; [done|].
  rewrite IH, tf_subtract_ok by done. simpl.
  rewrite assign_ok by done. simpl. unfold stepped.
  by rewrite !zip_with_fmap_r.
Qed.

Lemma stepped_values lr (delta : list Tensor) (ws : list TfVariable) :
  value <$> zip_with (λ x v, {| trainable := trainable v; value := stepped lr (value v) x |})
              delta ws
  = zip_with (stepped lr) (value <$> ws) delta.
Proof.
  revert ws. induction delta as [|x delta IH]; intros [|v ws]; simpl; try done.
  by rewrite IH.
Qed.

Lemma update_server_discriminator_SGD lr client_output w :
  Forall2 (λ x v, shape x = shape (value v))
    (ClientOutput.discriminator_weights_delta client_output) (weights (discriminator w)) →
  update_server_discriminator client_output (SGD lr) w =
    (Ok (), set_discriminator
              {| weights :=
                   zip_with (λ x v, {| trainable := trainable v;
                                       value := stepped lr (value v) x |})
                     (ClientOutput.discriminator_weights_delta client_output)
                     (weights (discriminator w)) |} w).
Proof.
  intros Hs. unfold update_server_discriminator. run.
  unfold assert_same_structure. rewrite decide_True by by eapply Forall2_length.
  by rewrite apply_gradients_SGD.
Qed.

Lemma stepped_unit v x :
  Forall (λ a, F32.valid a = true) (data x) → stepped F32.one v x = plus_delta v x.
Proof.
  intros Hv. unfold stepped, plus_delta. f_equal.
  revert Hv. generalize (data v) as xs. induction (data x) as [|b bs IH]; intros xs Hv.
  - by destruct xs.
  - apply Forall_cons in Hv as [Hb Hv]. destruct xs as [|a xs]; cbn [zip_with]; [done|].
    by rewrite sgd_unit_step, IH.
Qed.

Lemma stepped_zero lr v x :
  F32.is_finite lr = true → Forall (λ a, F32.is_zero a = true) (data x) →
  length (data x) = length (data v) → same_numbers (stepped lr v x) (flushed v).
Proof.
  intros Hlr Hz Hlen. split; [done|]. simpl.
  revert Hz Hlen. generalize (data v) as xs. induction (data x) as [|b bs IH]; intros xs Hz Hlen.
  - destruct xs; [constructor|done].
  - apply Forall_cons in Hz as [Hb Hz]. destruct xs as [|a xs]; cbn [zip_with]; [done|].
    rewrite fmap_cons.
    constructor; [by apply sgd_zero_step|]. apply IH; [done|]. by inversion Hlen.
Qed.

Lemma flushed_all_normal v : all_normal v → flushed v = v.
Proof.
  unfold all_normal, flushed. destruct v as [sh xs]. cbn [shape data]. intros Hn. f_equal.
  induction Hn as [|a xs Ha _ IH]; [done|]. rewrite fmap_cons, IH. f_equal.
  by destruct (flush_cases a) as [[Hs _]|[_ ->]]; [congruence|].
Qed.

(** *** Deltas of an untrained discriminator *)

Lemma zeros_like_self_delta ts : zeros_like <$> subtract_all ts ts = zeros_like <$> ts.
Proof.
  unfold subtract_all. induction ts as [|t ts IH]; [done|].
  cbn [zip_with]. rewrite !fmap_cons, IH. f_equal.
  unfold zeros_like. cbn [shape data]. f_equal.
  induction (data t) as [|x xs IHx]; [done|].
  cbn [zip_with]. rewrite !fmap_cons. by f_equal.
Qed.

Lemma finite_self_delta ts :
  any_non_finite (subtract_all ts ts) = false → subtract_all ts ts = zeros_like <$> ts.
Proof.
  unfold subtract_all, any_non_finite. induction ts as [|t ts IH]; [done|].
  cbn [zip_with existsb]. intros [Ht Hts]%orb_false_elim.
  rewrite fmap_cons, IH by done. f_equal.
  unfold zeros_like. f_equal. cbn [data] in Ht.
  induction (data t) as [|x xs IHx]; [done|].
  cbn [zip_with existsb] in *.
  apply orb_false_elim in Ht as [Hx Hxs]. apply negb_false_iff in Hx.
  by rewrite fmap_cons, sub_diag_finite, IHx.
Qed.

Lemma zeros_like_all_zero ts : all_zero (zeros_like <$> ts).
Proof.
  induction ts as [|t ts IH]; simpl; constructor; [|done].
  simpl. induction (data t); simpl; constructor; auto.
Qed.

(** *** Rounds that raise *)

Lemma traverse2_assign_cases vs ts :
  (∃ vs', traverse2 assign vs ts = Ok vs' ∧ length vs' = length vs `min` length ts) ∨
  traverse2 assign vs ts = Raise ValueError.
Proof.
  revert ts. induction vs as [|v vs IH]; intros [|t ts]; try (left; by eexists).
  cbn [traverse2].
  destruct (decide (shape (value v) = shape t)) as [Es|Es];
    [rewrite (assign_ok _ _ Es)|rewrite (assign_raises _ _ Es); by right].
  destruct (IH ts) as [(vs' & E & El)|E]; rewrite E.
  - left. eexists. split; [reflexivity|]. simpl. by rewrite El.
  - by right.
Qed.

Lemma load_weights_cases m ws :
  (∃ m', load_weights m ws = Ok m' ∧ length (weights m') = length (weights m)) ∨
  load_weights m ws = Raise ValueError.
Proof.
  unfold load_weights, map_structure2, assert_same_structure.
  destruct (decide _) as [E|]; simpl; [|by right].
  destruct (traverse2_assign_cases (weights m) ws) as [(vs' & -> & E')| ->]; simpl;
    [|by right].
  left. eexists. split; [done|]. simpl. lia.
Qed.

Lemma update_server_discriminator_count client_output opt w :
  length (ClientOutput.discriminator_weights_delta client_output)
    ≠ length (weights (discriminator w)) →
  update_server_discriminator client_output opt w = (Raise ValueError, w).
Proof.
  intros Hne. unfold update_server_discriminator. run.
  unfold assert_same_structure. by rewrite decide_False.
Qed.

Lemma server_computation_count l s d ds client_output opt f agg w :
  states w !! l = Some s → dicts w !! ServerState.counters s = Some d →
  length (ClientOutput.discriminator_weights_delta client_output)
    ≠ length (weights (discriminator w)) →
  (server_computation l ds client_output opt f agg w).1 = Raise ValueError.
Proof.
  intros Es Ed Hne. unfold server_computation. rewrite tf_function_fst.
  erewrite bind_ok; [|by eapply evolve_with_copied_counters_ok].
  erewrite bind_ok; [|apply read_state_ok; simpl; apply lookup_insert_eq].
  match goal with |- context [mbind _ (load_generator ?ws) ?w1] =>
    assert ((∃ g', load_generator ws w1 = (Ok (), set_generator g' w1)) ∨
            load_generator ws w1 = (Raise ValueError, w1)) as [[g' E]|E] end.
  { unfold load_generator. run.
    match goal with |- context [load_weights ?m ?ws] =>
      destruct (load_weights_cases m ws) as [(g' & -> & _)| ->] end; eauto. }
  2: { by erewrite bind_raise. }
  erewrite bind_ok; [|exact E]. clear E.
  erewrite bind_ok; [|apply read_state_ok; simpl; apply lookup_insert_eq].
  match goal with |- context [mbind _ (load_discriminator ?ws) ?w2] =>
    assert ((∃ d', load_discriminator ws w2 = (Ok (), set_discriminator d' w2) ∧
                   length (weights d') = length (weights (discriminator w))) ∨
            load_discriminator ws w2 = (Raise ValueError, w2)) as [(d' & E & El)|E] end.
  { unfold load_discriminator. run.
    match goal with |- context [load_weights ?m ?ws] =>
      destruct (load_weights_cases m ws) as [(d' & -> & El)| ->] end; eauto. }
  2: { by erewrite bind_raise. }
  erewrite bind_ok; [|exact E]. clear E.
  erewrite bind_raise; [done|].
  apply update_server_discriminator_count. simpl. by rewrite El.
Qed.

Lemma apply_gradients_SGD_shapes lr (delta : list Tensor) (ws : list TfVariable) :
  length delta = length ws →
  ¬ Forall2 (λ x v, shape x = shape (value v)) delta ws →
  apply_gradients (SGD lr) (zip_with (λ x v, (scalar_mul F32.neg_one x, v)) delta ws) =
    Raise ValueError.
Proof.
  revert ws. induction delta as [|x delta IH]; intros [|v ws]; simpl; try done.
  - intros _ []. constructor.
  - intros [= El] Hn. unfold tf_subtract at 1. simpl.
    destruct (decide (shape (value v) = shape x)) as [E|]; simpl; [|done].
    rewrite assign_ok by done. simpl.
    rewrite IH; [done|done|]. intros Hf. apply Hn. by constructor.
Qed.

(** The walk over the client counters stops at the first key that the
    dictionary does not have. *)
Lemma sum_counters_missing l s (kvs : list (string * Z)) k : ∀ d w,
  states w !! l = Some s → dicts w !! ServerState.counters s = Some d →
  first_missing d kvs.*1 = Some k →
  ∃ w',
    for_each kvs (λ _ '(k, v), c ← state_counters l; dict_iadd c k v) () w =
      (Raise (KeyError k), w').
Proof.
  induction kvs as [|[k0 v] kvs IH]; intros d w Es Ed Hm; [done|].
  cbn [for_each]. cbn [fmap list_fmap fst first_missing] in Hm.
  destruct (d !! k0) as [x|] eqn:Ek.
  - destruct (IH (<[k0 := Int32.add x v]> d)
                (set_dicts (<[ServerState.counters s := <[k0 := Int32.add x v]> d]>
                              (dicts w)) w))
      as (w' & E).
    + done.
    + simpl. by rewrite lookup_insert_eq.
    + by erewrite first_missing_insert.
    + exists w'.
      erewrite bind_ok;
        [|erewrite bind_ok; [|by apply state_counters_ok]; by eapply dict_iadd_ok].
      exact E.
  - injection Hm as <-. exists w.
    erewrite bind_raise; [done|].
    erewrite bind_ok; [|by apply state_counters_ok]. by eapply dict_iadd_missing.
Qed.

Lemma round_counters_lookup d client ds k :
  round_counters d client ds !! k = after_round client ds k <$> d !! k.
Proof. unfold round_counters. rewrite map_lookup_imap. by destruct (d !! k). Qed.

(** A counter that is added to holds the int32 sum of what is added. *)
Lemma after_round_sum client ds k x :
  is_Some (client !! k) ∨ k = "num_generator_train_examples" ∨ k = "num_rounds" →
  after_round client ds k x = Int32.wrap (x + default 0%Z (client !! k) + bump ds k).
Proof.
  unfold after_round, bump, Int32.add. intros Ht.
  destruct (client !! k) as [v|]; cbn [default]; unfold id.
  - repeat case_decide; try congruence; rewrite ?wrap_add_l, ?wrap_add_r; f_equal; lia.
  - destruct Ht as [[? [=]]|[->| ->]].
    + repeat case_decide; try done. rewrite wrap_add_r. f_equal. lia.
    + repeat case_decide; try done. f_equal. lia.
Qed.

Lemma after_round_other client ds k x :
  client !! k = None → k ≠ "num_generator_train_examples" → k ≠ "num_rounds" →
  after_round client ds k x = x.
Proof. intros E Hg Hr. unfold after_round. by rewrite E, !decide_False by done. Qed.

Lemma server_computation_counters l s d ds client_output opt f agg w :
  round_ready w l s d client_output opt →
  ∃ l' w',
    server_computation l ds client_output opt f agg w = (Ok l', w') ∧
    ∀ k, counter_of w' l' k =
           after_round (ClientOutput.counters client_output) ds k <$> d !! k.
Proof.
  intros Hr. destruct (server_computation_spec l s d ds client_output opt f agg w Hr)
    as (vs & w6 & g' & _ & _ & _ & _ & _ & E).
  eexists _, _. split; [exact E|]. intros k. unfold counter_of. cbn [states dicts].
  rewrite lookup_insert_eq. cbn [mbind option_bind ServerState.counters].
  rewrite lookup_insert_eq. cbn [mbind option_bind].
  apply round_counters_lookup.
Qed.

Lemma server_computation_missing_key l s d ds client_output opt f agg w k :
  round_loads w l s d client_output opt →
  first_missing d (items (ClientOutput.counters client_output)).*1 = Some k →
  server_computation l ds client_output opt f agg w = (Raise (KeyError k), w).
Proof.
  intros [Es Ed Hg Hd Hdelta Hacc] Hkeys.
  unfold server_computation. apply tf_function_raise.
  server_loads.
  set (l' := fresh (dom (states w))). set (c' := fresh (dom (dicts w))).
  match goal with |- context [mbind _ (update_server_discriminator _ _) ?w3] =>
    destruct (update_server_discriminator_ok client_output opt w3 Hacc) as (vs & Hl & E) end.
  { by apply delta_fits_loaded. }
  erewrite bind_ok; [|exact E]. clear E. norm.
  match goal with |- context [mbind _ (for_each (items ?m) _ ()) ?w4] =>
    destruct (sum_counters_missing l'
      {| ServerState.generator_weights := ServerState.generator_weights s;
         ServerState.discriminator_weights := ServerState.discriminator_weights s;
         ServerState.counters := c';
         ServerState.aggregation_state := ServerState.aggregation_state s |}
      (items m) k d w4) as (w' & E) end.
  { apply lookup_insert_eq. }
  { apply lookup_insert_eq. }
  { exact Hkeys. }
  erewrite bind_raise; [|exact E]. reflexivity.
Qed.

Lemma server_computation_SGD_shapes l s d ds client_output lr f agg w :
  states w !! l = Some s → dicts w !! ServerState.counters s = Some d →
  loadable (generator w) (ServerState.generator_weights s) →
  loadable (discriminator w) (ServerState.discriminator_weights s) →
  length (ClientOutput.discriminator_weights_delta client_output)
    = length (weights (discriminator w)) →
  ¬ Forall2 (λ x v, shape x = shape (value v))
      (ClientOutput.discriminator_weights_delta client_output) (weights (discriminator w)) →
  (server_computation l ds client_output (SGD lr) f agg w).1 = Raise ValueError.
Proof.
  intros Es Ed Hg Hd Hlen Hshape. unfold server_computation. rewrite tf_function_fst.
  server_loads.
  erewrite bind_raise; [done|].
  unfold update_server_discriminator. run.
  assert (length (with_values (weights (discriminator w)) (ServerState.discriminator_weights s))
          = length (weights (discriminator w))) as Hlw.
  { unfold with_values. rewrite length_zip_with. apply Forall2_length in Hd. lia. }
  unfold assert_same_structure. rewrite decide_True by congruence.
  rewrite apply_gradients_SGD_shapes; [done|congruence|].
  intros Hf. apply Hshape. clear -Hf Hd. unfold loadable in Hd.
  revert Hf. generalize (ClientOutput.discriminator_weights_delta client_output).
  induction Hd as [|v t ws ts E _ IH]; intros [|x delta]; simpl; inversion 1; subst;
    constructor; [simpl in *; congruence|by apply IH].
Qed.

(** *** Shapes *)

Lemma loadable_own m : loadable m (_weights m).
Proof.
  unfold loadable, _weights. induction (weights m); simpl; constructor; auto.
Qed.

Lemma loadable_with_values vs ts :
  Forall2 (λ v t, shape (value v) = shape t) vs ts →
  loadable {| weights := with_values vs ts |} ts.
Proof. unfold loadable. cbn [weights]. induction 1; simpl; constructor; auto. Qed.

Lemma layout_loadable vs vs' ts :
  Forall2 (λ v t, shape (value v) = shape t) vs ts → same_layout vs vs' →
  Forall2 (λ v t, shape (value v) = shape t) vs' ts.
Proof.
  intros Hs Hl. revert ts Hs.
  induction Hl as [|v v' vs vs' [_ E] _ IH]; intros ts Hs; inversion Hs; subst;
    constructor; [congruence|by apply IH].
Qed.

Lemma zeros_like_fits ts : Forall2 (λ x t, shape x = shape t) (zeros_like <$> ts) ts.
Proof. induction ts; simpl; constructor; auto. Qed.

Lemma subtract_all_fits xs ys :
  Forall2 (λ a b, shape a = shape b) xs ys →
  Forall2 (λ x t, shape x = shape t) (subtract_all xs ys) ys.
Proof. unfold subtract_all. induction 1; simpl; constructor; auto. Qed.

Lemma client_delta_fits n d from_server :
  Forall2 (λ a b, shape a = shape b) (_weights d)
    (FromServer.discriminator_weights from_server) →
  Forall2 (λ x t, shape x = shape t)
    (ClientOutput.discriminator_weights_delta (client_output_of n d from_server))
    (FromServer.discriminator_weights from_server).
Proof.
  intros Hs. unfold client_output_of. cbn [ClientOutput.discriminator_weights_delta].
  pose proof (subtract_all_fits _ _ Hs) as Hf.
  destruct (any_non_finite _); [|done].
  clear Hs. revert Hf. generalize (subtract_all (_weights d)
                           (FromServer.discriminator_weights from_server)).
  generalize (FromServer.discriminator_weights from_server).
  intros ys xs Hf. induction Hf as [|x t xs ts E _ IH]; [constructor|].
  rewrite fmap_cons. constructor; [exact E|exact IH].
Qed.

(** ** The claims *)

(** C1 (corrected).  A server round on inputs it can complete returns a
    state whose [num_rounds] is, in int32, the input value plus the
    [num_rounds] entry of the client counters (0 when there is none) plus 1,
    and whose [num_generator_train_examples] is, in int32, the input value
    plus the client entry of that name (0 when there is none) plus the sum
    of the leading dimensions of the batches of [gen_inputs_ds].  The sums
    wrap around at [2^31]; while they stay in the int32 range they are the
    sums of integers.  When the client counters name neither key, as those
    of [client_computation] do, and the sums stay in range, the increases
    are exactly 1 and exactly that sum. *)
Theorem server_round_counters l s d ds client_output opt f agg w n g :
  round_ready w l s d client_output opt →
  d !! "num_rounds" = Some n →
  d !! "num_generator_train_examples" = Some g →
  let rounds := (n + default 0 (ClientOutput.counters client_output !! "num_rounds") + 1)%Z in
  let examples :=
    (g + default 0 (ClientOutput.counters client_output !! "num_generator_train_examples")
       + rows ds)%Z in
  ∃ l' w',
    server_computation l ds client_output opt f agg w = (Ok l', w') ∧
    counter_of w' l' "num_rounds" = Some (Int32.wrap rounds) ∧
    counter_of w' l' "num_generator_train_examples" = Some (Int32.wrap examples) ∧
    (Int32.in_range rounds → counter_of w' l' "num_rounds" = Some rounds) ∧
    (Int32.in_range examples →
     counter_of w' l' "num_generator_train_examples" = Some examples) ∧
    (ClientOutput.counters client_output !! "num_rounds" = None →
     Int32.in_range (n + 1) →
     counter_of w' l' "num_rounds" = Some (n + 1)%Z) ∧
    (ClientOutput.counters client_output !! "num_generator_train_examples" = None →
     Int32.in_range (g + rows ds) →
     counter_of w' l' "num_generator_train_examples" = Some (g + rows ds)%Z).
Proof.
  intros Hr En Eg rounds examples.
  destruct (server_computation_counters l s d ds client_output opt f agg w Hr)
    as (l' & w' & E & Hc).
  exists l', w'. split; [exact E|].
  rewrite !Hc, En, Eg. cbn [fmap option_fmap option_map].
  rewrite !after_round_sum by auto.
  change (bump ds "num_rounds") with 1%Z.
  change (bump ds "num_generator_train_examples") with (rows ds).
  fold rounds. fold examples.
  split; [done|]. split; [done|].
  split; [by intros ->%wrap_in_range|]. split; [by intros ->%wrap_in_range|].
  subst rounds examples. split.
  - intros ->. cbn [default]. rewrite Z.add_0_r. by intros ->%wrap_in_range.
  - intros ->. cbn [default]. rewrite Z.add_0_r. by intros ->%wrap_in_range.
Qed.

(** C2 (corrected).  On broadcast weights that fit the models, the client
    round runs one discriminator step per pair of the zipped datasets,
    [min N M] steps in all; the step on the pair [(g, r)] is called on [g]
    and [r] both cut to [min (length r) (length g)] rows; and the example
    count returned is the int32 sum of these minima: their sum while it is
    below [2^31], wrapped around beyond. *)
Theorem client_steps_paired_and_truncated gens reals from_server f w :
  loadable (generator w) (FromServer.generator_weights from_server) →
  loadable (discriminator w) (FromServer.discriminator_weights from_server) →
  let total :=
    sum_Z ((λ '(g, r), Z.of_nat (length r `min` length g)) <$> zip gens reals) in
  ∃ out w',
    client_computation gens reals from_server f w = (Ok out, w') ∧
    trace w' = trace w ++
      ((λ '(g, r), DiscriminatorStep (take (length r `min` length g) g)
                     (take (length r `min` length g) r)) <$> zip gens reals) ∧
    length (trace w') = length (trace w) + length gens `min` length reals ∧
    ClientOutput.counters out !! "num_discriminator_train_examples" =
      Some (Int32.wrap total) ∧
    ((total < 2147483648)%Z →
     ClientOutput.counters out !! "num_discriminator_train_examples" = Some total).
Proof.
  intros Hg Hd total.
  destruct (client_computation_spec gens reals from_server f w Hg Hd) as (d' & _ & E).
  eexists _, _. split; [exact E|]. cbn [trace].
  assert (step_event <$> zip gens reals =
          (λ '(g, r), DiscriminatorStep (take (length r `min` length g) g)
                        (take (length r `min` length g) r)) <$> zip gens reals) as <-.
  { apply list_fmap_ext. by intros _ [g r] _. }
  assert (sum_Z (examples_in <$> zip gens reals) = total) as ->.
  { unfold total. f_equal. apply list_fmap_ext. by intros _ [g r] _. }
  split; [done|]. split.
  { by rewrite length_app, length_fmap, length_zip. }
  unfold client_output_of. cbn [ClientOutput.counters].
  rewrite ordered_dict_lookup_singleton. split; [done|].
  intros Hlt. rewrite wrap_in_range; [done|]. split; [|done].
  assert (0 ≤ total)%Z; [|lia]. unfold total. clear.
  induction (zip gens reals) as [|[g r] ps IH]; [done|].
  rewrite fmap_cons, sum_Z_cons. lia.
Qed.

(** C3.  On broadcast weights that fit the models the client round returns a
    [ClientOutput], whether or not the computed delta is finite.  It leaves
    the models as the loop of discriminator steps leaves them from the
    loaded weights; the computed delta is the difference of the
    discriminator weights then and the broadcast ones, and the delta
    returned has the shapes of the broadcast weights.  When no element of
    the computed delta is NaN or infinite, [update_weight] is the float of
    the example count and the delta is returned as computed; when some
    element is, [update_weight] is 0.0 and the delta returned is all zeros
    of the same shapes. *)
Theorem client_update_weight gens reals from_server f w :
  loadable (generator w) (FromServer.generator_weights from_server) →
  loadable (discriminator w) (FromServer.discriminator_weights from_server) →
  ∃ out w' num_examples,
    for_each (zip gens reals)
      (client_step (create_train_discriminator_fn (WassersteinGanLossFns F32.ten)
                      (SGD F32.lr_0_0005))) 0%Z (client_loaded from_server w)
      = (Ok num_examples, w') ∧
    client_computation gens reals from_server f w = (Ok out, w') ∧
    ClientOutput.counters out = {[ "num_discriminator_train_examples" := num_examples ]} ∧
    Forall2 (λ x t, shape x = shape t)
      (ClientOutput.discriminator_weights_delta out)
      (FromServer.discriminator_weights from_server) ∧
    let computed := subtract_all (_weights (discriminator w'))
                      (FromServer.discriminator_weights from_server) in
    (any_non_finite computed = false →
       ClientOutput.update_weight out = F32.of_Z num_examples ∧
       ClientOutput.discriminator_weights_delta out = computed) ∧
    (any_non_finite computed = true →
       ClientOutput.update_weight out = F32.zero ∧
       ClientOutput.discriminator_weights_delta out = zeros_like <$> computed ∧
       all_zero (ClientOutput.discriminator_weights_delta out)).
Proof.
  intros Hg Hd.
  destruct (client_loop_spec (WassersteinGanLossFns F32.ten) F32.lr_0_0005
              (zip gens reals) 0%Z (client_loaded from_server w)) as (d' & Hl & E);
    [reflexivity|].
  eexists _, _, _. split; [exact E|].
  split; [by eapply client_computation_from_loop|].
  cbn [discriminator]. split; [reflexivity|]. split.
  { apply client_delta_fits. eapply layout_shapes; [|exact Hl].
    by apply (loadable_with_values (weights (discriminator w))). }
  unfold client_output_of.
  cbn [ClientOutput.update_weight ClientOutput.discriminator_weights_delta].
  split; intros ->; repeat split. apply zeros_like_all_zero.
Qed.

(** C4 (corrected).  Under plain SGD with learning rate [lr], on a delta
    whose tensors have the shapes and sizes of the discriminator weights,
    the update step of the server sets each weight to
    [old - lr * (-1.0 * delta)], in the arithmetic of the float32 kernels.
    For [lr = 1.0] and a delta of float32 values this is [old + delta].  For
    a finite [lr] and an all-zero delta every weight keeps its number,
    except that a subnormal weight becomes zero; where no weight is
    subnormal, the weights are numerically unchanged. *)
Theorem sgd_server_update lr client_output w :
  Forall2 (λ x v, shape x = shape (value v) ∧ length (data x) = length (data (value v)))
    (ClientOutput.discriminator_weights_delta client_output) (weights (discriminator w)) →
  ∃ w',
    update_server_discriminator client_output (SGD lr) w = (Ok (), w') ∧
    _weights (discriminator w') =
      zip_with (stepped lr) (_weights (discriminator w))
        (ClientOutput.discriminator_weights_delta client_output) ∧
    (lr = F32.one →
     Forall (λ x, Forall (λ a, F32.valid a = true) (data x))
       (ClientOutput.discriminator_weights_delta client_output) →
     _weights (discriminator w') =
       zip_with plus_delta (_weights (discriminator w))
         (ClientOutput.discriminator_weights_delta client_output)) ∧
    (F32.is_finite lr = true →
     all_zero (ClientOutput.discriminator_weights_delta client_output) →
     Forall2 same_numbers (_weights (discriminator w'))
       (flushed <$> _weights (discriminator w)) ∧
     (Forall all_normal (_weights (discriminator w)) →
      Forall2 same_numbers (_weights (discriminator w')) (_weights (discriminator w)))).
Proof.
  intros Hs. eexists. split.
  { apply update_server_discriminator_SGD. eapply Forall2_impl; [exact Hs|]. by intros ?? []. }
  unfold _weights. cbn [discriminator set_discriminator weights].
  rewrite stepped_values. split; [done|].
  revert Hs. generalize (ClientOutput.discriminator_weights_delta client_output) as delta.
  generalize (weights (discriminator w)) as ws. intros ws delta Hs. split.
  - intros -> Hv. induction Hs as [|x v delta ws _ _ IH]; [done|].
    apply Forall_cons in Hv as [Hx Hv]. rewrite fmap_cons. cbn [zip_with].
    by rewrite stepped_unit, IH.
  - intros Hlr Hz.
    assert (Forall2 same_numbers (zip_with (stepped lr) (value <$> ws) delta)
              (flushed <$> (value <$> ws))) as Hf.
    { induction Hs as [|x v delta ws [_ El] _ IH]; [constructor|].
      apply Forall_cons in Hz as [Hx Hz]. rewrite !fmap_cons. cbn [zip_with].
      constructor; [by apply stepped_zero|by apply IH]. }
    split; [exact Hf|]. intros Hn.
    replace (flushed <$> (value <$> ws)) with (value <$> ws) in Hf; [exact Hf|].
    clear -Hn. induction Hn as [|t ts Ht _ IH]; [done|].
    by rewrite fmap_cons, flushed_all_normal, <- IH.
Qed.

(** C5.  Whatever a server round does, return or raise, the [ServerState]
    object it was handed and that object's counters dictionary are in the
    store as they were; a returned state is another object, and its
    counters are another dictionary. *)
Theorem server_keeps_input_state l s d ds client_output opt f agg w :
  states w !! l = Some s →
  dicts w !! ServerState.counters s = Some d →
  let r := server_computation l ds client_output opt f agg w in
  states r.2 !! l = Some s ∧
  dicts r.2 !! ServerState.counters s = Some d ∧
  ∀ l', r.1 = Ok l' →
    l' ≠ l ∧
    ∃ s', states r.2 !! l' = Some s' ∧ ServerState.counters s' ≠ ServerState.counters s.
Proof.
  intros Es Ed.
  destruct (server_computation_frame l ds client_output opt f agg w) as (H1 & H2 & H3).
  cbn zeta. split; [|split].
  - rewrite H1; [done|]. apply elem_of_dom. by eexists.
  - rewrite H2; [done|]. apply elem_of_dom. by eexists.
  - intros l' Hr. destruct (H3 l' Hr) as (Hl' & s' & Es' & Hc). split.
    + intros ->. apply Hl', elem_of_dom. by eexists.
    + exists s'. split; [done|]. intros Ec. apply Hc. rewrite Ec. apply elem_of_dom.
      by eexists.
Qed.

(** C6 (corrected).  A server round raises a structure error, and leaves
    the state it was handed as it was, whenever the number of tensors of the
    delta differs from the number of discriminator weights.  Tensor shapes
    are not part of that check: at equal count a delta of other shapes is an
    error under plain SGD, whose [apply_gradients] rejects it.  On a delta
    of the count and shapes of the weights, and inputs otherwise ready, the
    round raises nothing and returns a state. *)
Theorem server_structure_check l s d ds client_output opt f agg w :
  states w !! l = Some s →
  dicts w !! ServerState.counters s = Some d →
  (length (ClientOutput.discriminator_weights_delta client_output)
     ≠ length (weights (discriminator w)) →
   let r := server_computation l ds client_output opt f agg w in
   r.1 = Raise ValueError ∧
   states r.2 !! l = Some s ∧ dicts r.2 !! ServerState.counters s = Some d) ∧
  (∀ lr,
     loadable (generator w) (ServerState.generator_weights s) →
     loadable (discriminator w) (ServerState.discriminator_weights s) →
     length (ClientOutput.discriminator_weights_delta client_output)
       = length (weights (discriminator w)) →
     ¬ Forall2 (λ x v, shape x = shape (value v))
         (ClientOutput.discriminator_weights_delta client_output)
         (weights (discriminator w)) →
     (server_computation l ds client_output (SGD lr) f agg w).1 = Raise ValueError) ∧
  (round_ready w l s d client_output opt →
   ∃ l' w', server_computation l ds client_output opt f agg w = (Ok l', w')).
Proof.
  intros Es Ed. split; [|split].
  - intros Hne. cbn zeta. split; [by eapply server_computation_count|].
    destruct (server_computation_frame l ds client_output opt f agg w) as (H1 & H2 & _).
    rewrite H1, H2; [done| |]; apply elem_of_dom; by eexists.
  - intros lr Hg Hd Hlen Hshape. by eapply server_computation_SGD_shapes.
  - intros Hr.
    destruct (server_computation_counters l s d ds client_output opt f agg w Hr)
      as (l' & w' & E & _).
    by exists l', w'.
Qed.

(** C7 (corrected).  When every key of the client counters is a key of the
    server counters, the round returns a state whose counter at each client
    key [k] is, in int32, the prior value plus the client value, plus what
    the server itself adds under [k] (the generator examples of the round
    under [num_generator_train_examples], 1 under [num_rounds], nothing
    elsewhere): that sum while it stays in the int32 range, wrapped around
    otherwise.  When some client key is missing from the server counters no
    entry is created: the round raises [KeyError] on the first such key in
    the order of the client's dictionary, and nothing of the round has
    run. *)
Theorem server_sums_client_counters l s d ds client_output opt f agg w :
  round_loads w l s d client_output opt →
  is_Some (d !! "num_generator_train_examples") →
  is_Some (d !! "num_rounds") →
  (dom (ClientOutput.counters client_output) ⊆ dom d →
   ∃ l' w',
     server_computation l ds client_output opt f agg w = (Ok l', w') ∧
     ∀ k v, ClientOutput.counters client_output !! k = Some v →
       ∃ x, d !! k = Some x ∧
            counter_of w' l' k = Some (Int32.wrap (x + v + bump ds k)) ∧
            (Int32.in_range (x + v + bump ds k) →
             counter_of w' l' k = Some (x + v + bump ds k)%Z)) ∧
  (¬ dom (ClientOutput.counters client_output) ⊆ dom d →
   ∃ k,
     first_missing d (items (ClientOutput.counters client_output)).*1 = Some k ∧
     k ∈ dom (ClientOutput.counters client_output) ∧ (k ∉ dom d) ∧
     server_computation l ds client_output opt f agg w = (Raise (KeyError k), w)).
Proof.
  intros Hl Hge Hro. split.
  - intros Hkeys.
    destruct (server_computation_counters l s d ds client_output opt f agg w)
      as (l' & w' & E & Hc); [by constructor|].
    exists l', w'. split; [exact E|]. intros k v Ek.
    assert (is_Some (d !! k)) as [x Ex].
    { apply elem_of_dom, Hkeys, ordered_dict_elem_of_dom. by eexists. }
    exists x. split; [done|].
    rewrite Hc, Ex. cbn [fmap option_fmap option_map].
    rewrite after_round_sum by (left; by eexists). rewrite Ek. cbn [default]. unfold id.
    split; [done|]. by intros ->%wrap_in_range.
  - intros Hkeys.
    destruct (first_missing d (items (ClientOutput.counters client_output)).*1)
      as [k|] eqn:Ek; [|by apply first_missing_keys in Ek].
    exists k. split; [done|].
    destruct (first_missing_Some _ _ _ Ek) as [Hin Hk].
    split; [|split].
    + unfold dom, ordered_dict_dom. by apply elem_of_list_to_set.
    + by apply not_elem_of_dom.
    + by apply (server_computation_missing_key l s d).
Qed.

(** C8.  On broadcast weights that fit the models and two empty datasets the
    client round runs no step, leaves the discriminator at the broadcast
    weights, and returns a delta of all zeros, an [update_weight] of 0 and
    the counters [num_discriminator_train_examples = 0]. *)
Theorem client_zero_steps from_server f w :
  loadable (generator w) (FromServer.generator_weights from_server) →
  loadable (discriminator w) (FromServer.discriminator_weights from_server) →
  ∃ out w',
    client_computation [] [] from_server f w = (Ok out, w') ∧
    trace w' = trace w ∧
    _weights (discriminator w') = FromServer.discriminator_weights from_server ∧
    ClientOutput.discriminator_weights_delta out =
      zeros_like <$> FromServer.discriminator_weights from_server ∧
    all_zero (ClientOutput.discriminator_weights_delta out) ∧
    ClientOutput.update_weight out = F32.zero ∧
    ClientOutput.counters out = {[ "num_discriminator_train_examples" := 0%Z ]}.
Proof.
  intros Hg Hd.
  assert (_weights (discriminator (client_loaded from_server w))
          = FromServer.discriminator_weights from_server) as Ew.
  { unfold _weights. simpl. apply with_values_values. by eapply Forall2_length. }
  eexists _, _. split.
  { eapply client_computation_from_loop; [done|done|reflexivity|apply same_layout_refl]. }
  split; [done|]. split; [done|].
  unfold client_output_of. rewrite Ew. simpl.
  destruct (any_non_finite _) eqn:Ef.
  - rewrite zeros_like_self_delta. by repeat split; [apply zeros_like_all_zero|..].
  - rewrite finite_self_delta by done. by repeat split; [apply zeros_like_all_zero|..].
Qed.

(** C9.  The client round does not depend on its [train_discriminator_fn]
    argument, nor the server round on its [train_generator_fn] argument:
    each builds the step it runs from the Wasserstein losses with penalty
    10.0 and a new SGD optimizer.  The client returns what the loop of that
    discriminator step, with learning rate 0.0005, leaves from the loaded
    weights; the server returns the generator, and the trace, that the loop
    of that generator step, with learning rate 0.005, leaves from the
    loaded generator and the updated discriminator. *)
Theorem train_fn_argument_ignored :
  (∀ gens reals from_server (f1 f2 : TrainDiscriminatorFn) w,
     client_computation gens reals from_server f1 w =
     client_computation gens reals from_server f2 w) ∧
  (∀ l ds client_output opt (f1 f2 : TrainGeneratorFn) agg w,
     server_computation l ds client_output opt f1 agg w =
     server_computation l ds client_output opt f2 agg w) ∧
  (∀ gens reals from_server f w,
     loadable (generator w) (FromServer.generator_weights from_server) →
     loadable (discriminator w) (FromServer.discriminator_weights from_server) →
     ∃ n w1,
       for_each (zip gens reals)
         (client_step (create_train_discriminator_fn (WassersteinGanLossFns F32.ten)
                         (SGD F32.lr_0_0005))) 0%Z (client_loaded from_server w)
         = (Ok n, w1) ∧
       client_computation gens reals from_server f w =
         (Ok (client_output_of n (discriminator w1) from_server), w1)) ∧
  (∀ l s d ds client_output opt f agg w,
     round_ready w l s d client_output opt →
     ∃ vs w6 n w7 l' w' s',
       apply_gradients opt
         (zip_with (λ x v, (scalar_mul F32.neg_one x, v))
            (ClientOutput.discriminator_weights_delta client_output)
            (with_values (weights (discriminator w))
               (ServerState.discriminator_weights s))) = Ok vs ∧
       generator w6 =
         {| weights := with_values (weights (generator w))
                         (ServerState.generator_weights s) |} ∧
       discriminator w6 = {| weights := vs |} ∧
       trace w6 = trace w ∧
       for_each ds
         (server_step (create_train_generator_fn (WassersteinGanLossFns F32.ten)
                         (SGD F32.lr_0_005))) 0%Z w6
         = (Ok n, w7) ∧
       server_computation l ds client_output opt f agg w = (Ok l', w') ∧
       generator w' = generator w7 ∧
       discriminator w' = discriminator w7 ∧
       trace w' = trace w7 ∧
       states w' !! l' = Some s' ∧
       ServerState.generator_weights s' = _weights (generator w7) ∧
       ServerState.discriminator_weights s' = _weights (discriminator w7) ∧
       counter_of w' l' "num_generator_train_examples" =
         (λ x, Int32.add
                 match ClientOutput.counters client_output
                         !! "num_generator_train_examples" with
                 | Some v => Int32.add x v
                 | None => x
                 end n) <$> d !! "num_generator_train_examples").
Proof.
  split; [done|]. split; [done|]. split.
  - intros gens reals from_server f w Hg Hd.
    destruct (client_loop_spec (WassersteinGanLossFns F32.ten) F32.lr_0_0005
                (zip gens reals) 0%Z (client_loaded from_server w)) as (d' & Hl & E);
      [reflexivity|].
    eexists _, _. split; [exact E|].
    by eapply client_computation_from_loop.
  - intros l s d ds client_output opt f agg w Hr.
    destruct (server_computation_spec l s d ds client_output opt f agg w Hr)
      as (vs & w6 & g' & Evs & H1 & H2 & H3 & Eloop & E).
    eexists vs, w6, _, _, _, _, _.
    split; [exact Evs|]. split; [exact H1|]. split; [exact H2|]. split; [exact H3|].
    split; [exact Eloop|]. split; [exact E|].
    cbn [generator discriminator trace states].
    do 3 (split; [reflexivity|]).
    split; [apply lookup_insert_eq|].
    cbn [ServerState.generator_weights ServerState.discriminator_weights].
    do 2 (split; [reflexivity|]).
    unfold counter_of. cbn [states dicts]. rewrite lookup_insert_eq.
    cbn [mbind option_bind ServerState.counters]. rewrite lookup_insert_eq.
    cbn [mbind option_bind]. rewrite round_counters_lookup.
    unfold after_round. by destruct (d !! "num_generator_train_examples").
Qed.

(** C10.  On broadcast weights that fit the models, the client round returns
    with the generator as it was loaded: every generator variable, the
    trainable ones among them, holds the tensor of
    [from_server.generator_weights] at its position. *)
Theorem client_keeps_generator gens reals from_server f w :
  loadable (generator w) (FromServer.generator_weights from_server) →
  loadable (discriminator w) (FromServer.discriminator_weights from_server) →
  ∃ out w',
    client_computation gens reals from_server f w = (Ok out, w') ∧
    _weights (generator w') = FromServer.generator_weights from_server ∧
    trainable_variables (generator w') =
      List.filter trainable
        (with_values (weights (generator w)) (FromServer.generator_weights from_server)).
Proof.
  intros Hg Hd.
  destruct (client_computation_spec gens reals from_server f w Hg Hd) as (d' & _ & E).
  eexists _, _. split; [exact E|]. simpl. split; [|done].
  unfold _weights. simpl. apply with_values_values. by eapply Forall2_length.
Qed.
(** ** Further properties of the code *)

(** *** The two training steps *)

Lemma keeps_fixed_refl vs : keeps_fixed vs vs.
Proof. induction vs; constructor; auto. Qed.

Lemma keeps_fixed_trans vs1 vs2 vs3 :
  keeps_fixed vs1 vs2 → keeps_fixed vs2 vs3 → keeps_fixed vs1 vs3.
Proof.
  intros H12. revert vs3.
  induction H12 as [|a b ? ? (Et & Es & Ev) ? IH]; intros vs3 H23;
    inversion H23 as [|? c ? ? (Et' & Es' & Ev')]; subst; constructor.
  - split; [congruence|]. split; [congruence|].
    intros Ha. rewrite Ev', Ev; [done|done|congruence].
  - by apply IH.
Qed.

Lemma keeps_fixed_layout vs vs' : keeps_fixed vs vs' → same_layout vs vs'.
Proof. induction 1 as [|???? (? & ? & ?)]; constructor; auto. Qed.

Lemma write_trainable_keeps_fixed ws new :
  same_layout (List.filter trainable ws) new → keeps_fixed ws (write_trainable ws new).
Proof.
  revert new. induction ws as [|v ws IH]; intros new; simpl; [constructor|].
  destruct (trainable v) eqn:Et.
  - inversion 1 as [|? n ? new' [? ?]]; subst.
    constructor; [split; [congruence|split; [done|congruence]]|]. by apply IH.
  - intros Hl. constructor; [done|]. by apply IH.
Qed.

(** Whatever the optimizer, [minimize] hands back the variables it was given,
    with new values. *)
Lemma minimize_layout opt loss vars vs :
  minimize opt loss vars = Ok vs → same_layout vars vs.
Proof.
  unfold minimize. intros E. apply apply_gradients_layout in E.
  rewrite snd_zip in E; [done|].
  pose proof (gradients_shape loss (value <$> vars)) as Hs.
  apply Forall2_length in Hs. rewrite length_fmap in Hs. lia.
Qed.

Lemma train_discriminator_fn_frame fns opt gi rd w :
  let r := create_train_discriminator_fn fns opt gi rd w in
  generator r.2 = generator w ∧
  states r.2 = states w ∧ dicts r.2 = dicts w ∧
  keeps_fixed (weights (discriminator w)) (weights (discriminator r.2)) ∧
  match r.1 with
  | Ok n => n = Z.of_nat (length rd) ∧ trace r.2 = trace w ++ [DiscriminatorStep gi rd]
  | Raise _ => trace r.2 = trace w
  end.
Proof.
  unfold create_train_discriminator_fn. run.
  match goal with |- context [minimize opt ?l ?v] =>
    destruct (minimize opt l v) as [vs|e] eqn:E end; simpl.
  - repeat split; try done.
    apply write_trainable_keeps_fixed. by eapply minimize_layout.
  - repeat split; try done. apply keeps_fixed_refl.
Qed.

Lemma train_generator_fn_frame fns opt gi w :
  let r := create_train_generator_fn fns opt gi w in
  discriminator r.2 = discriminator w ∧
  states r.2 = states w ∧ dicts r.2 = dicts w ∧
  keeps_fixed (weights (generator w)) (weights (generator r.2)) ∧
  match r.1 with
  | Ok n => n = Z.of_nat (length gi) ∧ trace r.2 = trace w ++ [GeneratorStep gi]
  | Raise _ => trace r.2 = trace w
  end.
Proof.
  unfold create_train_generator_fn. run.
  match goal with |- context [minimize opt ?l ?v] =>
    destruct (minimize opt l v) as [vs|e] eqn:E end; simpl.
  - repeat split; try done.
    apply write_trainable_keeps_fixed. by eapply minimize_layout.
  - repeat split; try done. apply keeps_fixed_refl.
Qed.

(** X1.  One discriminator step, under any optimizer, writes nothing but the
    trainable variables of the discriminator: the generator, the store and
    every fixed discriminator variable are as before, and every variable
    keeps its shape.  A step that returns has been run once on the two
    batches as given and returns the leading dimension of [real_data]; a
    step that raises has recorded nothing. *)
Theorem discriminator_step_frame fns opt gi rd w :
  let r := create_train_discriminator_fn fns opt gi rd w in
  generator r.2 = generator w ∧
  states r.2 = states w ∧ dicts r.2 = dicts w ∧
  keeps_fixed (weights (discriminator w)) (weights (discriminator r.2)) ∧
  match r.1 with
  | Ok n => n = Z.of_nat (length rd) ∧ trace r.2 = trace w ++ [DiscriminatorStep gi rd]
  | Raise _ => trace r.2 = trace w
  end.
Proof. apply train_discriminator_fn_frame. Qed.

(** X2.  One generator step, under any optimizer, writes nothing but the
    trainable variables of the generator: the discriminator, the store and
    every fixed generator variable are as before, and every variable keeps
    its shape.  A step that returns has been run once on the batch as given
    and returns its leading dimension; a step that raises has recorded
    nothing. *)
Theorem generator_step_frame fns opt gi w :
  let r := create_train_generator_fn fns opt gi w in
  discriminator r.2 = discriminator w ∧
  states r.2 = states w ∧ dicts r.2 = dicts w ∧
  keeps_fixed (weights (generator w)) (weights (generator r.2)) ∧
  match r.1 with
  | Ok n => n = Z.of_nat (length gi) ∧ trace r.2 = trace w ++ [GeneratorStep gi]
  | Raise _ => trace r.2 = trace w
  end.
Proof. apply train_generator_fn_frame. Qed.

(** *** The client round *)

Lemma traverse2_assign_inv vs : ∀ ts vs',
  length vs = length ts → traverse2 assign vs ts = Ok vs' →
  Forall2 (λ v t, shape (value v) = shape t) vs ts.
Proof.
  induction vs as [|v vs IH]; intros [|t ts] vs' El; try done.
  injection El as El. cbn [traverse2].
  destruct (decide (shape (value v) = shape t)) as [Es|Es].
  - rewrite (assign_ok _ _ Es).
    destruct (traverse2 assign vs ts) as [vs''|] eqn:E; [|done].
    intros _. constructor; [done|]. by eapply IH.
  - by rewrite (assign_raises _ _ Es).
Qed.

Lemma load_weights_raises m ws : ¬ loadable m ws → load_weights m ws = Raise ValueError.
Proof.
  intros Hn. destruct (load_weights_cases m ws) as [(m' & E & _)|E]; [|done].
  exfalso. apply Hn. revert E. unfold load_weights, map_structure2, assert_same_structure.
  destruct (decide (length (weights m) = length ws)) as [El|]; [|done]. simpl.
  destruct (traverse2 assign (weights m) ws) as [vs|] eqn:E; [|done].
  intros _. by eapply traverse2_assign_inv.
Qed.

Lemma load_generator_raises ws w :
  ¬ loadable (generator w) ws → load_generator ws w = (Raise ValueError, w).
Proof. intros Hn. unfold load_generator. run. by rewrite load_weights_raises. Qed.

Lemma load_discriminator_raises ws w :
  ¬ loadable (discriminator w) ws → load_discriminator ws w = (Raise ValueError, w).
Proof. intros Hn. unfold load_discriminator. run. by rewrite load_weights_raises. Qed.

(** X3.  The client round returns a [ClientOutput] exactly when the broadcast
    weights fit the two models, tensor by tensor in number and shape.  When
    they do not, it raises a structure error before any training step has
    run. *)
Theorem client_returns_iff_loadable gens reals from_server f w :
  let r := client_computation gens reals from_server f w in
  ((∃ out, r.1 = Ok out) ↔
   loadable (generator w) (FromServer.generator_weights from_server) ∧
   loadable (discriminator w) (FromServer.discriminator_weights from_server)) ∧
  (¬ (loadable (generator w) (FromServer.generator_weights from_server) ∧
      loadable (discriminator w) (FromServer.discriminator_weights from_server)) →
   r.1 = Raise ValueError ∧ trace r.2 = trace w).
Proof.
  cbn zeta.
  assert (¬ (loadable (generator w) (FromServer.generator_weights from_server) ∧
             loadable (discriminator w) (FromServer.discriminator_weights from_server)) →
          (client_computation gens reals from_server f w).1 = Raise ValueError ∧
          trace (client_computation gens reals from_server f w).2 = trace w) as Hfail.
  { intros Hn. unfold client_computation.
    rewrite (tf_function_raise _ w ValueError); [done|].
    destruct (decide (Forall2 (λ v t, shape (value v) = shape t) (weights (generator w))
                        (FromServer.generator_weights from_server))) as [Hg|Hg].
    - erewrite bind_ok; [|by apply load_generator_ok].
      erewrite bind_raise;
        [|apply load_discriminator_raises; simpl; intros Hd; by apply Hn].
      done.
    - erewrite bind_raise; [|by apply load_generator_raises]. done. }
  split; [|exact Hfail]. split.
  - intros [out E].
    destruct (decide (Forall2 (λ v t, shape (value v) = shape t) (weights (generator w))
                        (FromServer.generator_weights from_server))) as [Hg|Hg];
      [destruct (decide (Forall2 (λ v t, shape (value v) = shape t)
                           (weights (discriminator w))
                           (FromServer.discriminator_weights from_server))) as [Hd|Hd]|].
    + done.
    + destruct Hfail as [E' _]; [by intros [_ ?]|]. congruence.
    + destruct Hfail as [E' _]; [by intros [? _]|]. congruence.
  - intros [Hg Hd].
    destruct (client_computation_spec gens reals from_server f w Hg Hd) as (d' & _ & E).
    rewrite E. by eexists.
Qed.

Lemma client_loop_keeps_fixed fns opt pairs : ∀ acc w,
  keeps_fixed (weights (discriminator w))
    (weights (discriminator
       (for_each pairs (client_step (create_train_discriminator_fn fns opt)) acc w).2)).
Proof.
  induction pairs as [|[gi rd] pairs IH]; intros acc w; [apply keeps_fixed_refl|].
  cbn [for_each].
  pose proof (train_discriminator_fn_frame fns opt
                (take (length rd `min` length gi) gi)
                (take (length rd `min` length gi) rd) w) as Hfr.
  cbn zeta in Hfr.
  destruct (create_train_discriminator_fn fns opt
              (take (length rd `min` length gi) gi)
              (take (length rd `min` length gi) rd) w) as [[n|e] w1] eqn:Estep;
    destruct Hfr as (_ & _ & _ & Hk & _); cbn [snd] in Hk.
  - erewrite bind_ok;
      [|unfold client_step; cbn beta iota; erewrite bind_ok; [|exact Estep]; reflexivity].
    eapply keeps_fixed_trans; [exact Hk|apply IH].
  - erewrite bind_raise;
      [|unfold client_step; cbn beta iota; erewrite bind_raise; [|exact Estep]; reflexivity].
    exact Hk.
Qed.

Lemma zeros_of_self_difference (d : list spec_float) :
  (λ _, F32.zero) <$> zip_with F32.sub d d = (λ _, F32.zero) <$> d.
Proof. induction d as [|x d IH]; [done|]. cbn [zip_with]. rewrite !fmap_cons. by f_equal. Qed.

Lemma finite_self_difference (d : list spec_float) :
  existsb (λ x, negb (F32.is_finite x)) (zip_with F32.sub d d) = false →
  zip_with F32.sub d d = (λ _, F32.zero) <$> d.
Proof.
  induction d as [|x d IH]; [done|]. cbn [zip_with existsb].
  intros [Hx Hd]%orb_false_elim. apply negb_false_iff in Hx.
  by rewrite fmap_cons, sub_diag_finite, IH.
Qed.

Lemma any_non_finite_lookup ts i t :
  any_non_finite ts = false → ts !! i = Some t →
  existsb (λ x, negb (F32.is_finite x)) (data t) = false.
Proof.
  unfold any_non_finite. revert i. induction ts as [|t' ts IH]; intros i; [done|].
  cbn [existsb]. intros [Ht Hts]%orb_false_elim. destruct i as [|i]; simpl.
  - by intros [= <-].
  - by apply IH.
Qed.

(** X4.  A discriminator variable that is not trainable holds the broadcast
    tensor when the client round returns, and the delta returned for it is
    the zero tensor of its shape. *)
Theorem client_fixed_variables_zero_delta gens reals from_server f w :
  loadable (generator w) (FromServer.generator_weights from_server) →
  loadable (discriminator w) (FromServer.discriminator_weights from_server) →
  ∃ out w',
    client_computation gens reals from_server f w = (Ok out, w') ∧
    ∀ i v t, weights (discriminator w) !! i = Some v → trainable v = false →
      FromServer.discriminator_weights from_server !! i = Some t →
      _weights (discriminator w') !! i = Some t ∧
      ClientOutput.discriminator_weights_delta out !! i = Some (zeros_like t).
Proof.
  intros Hg Hd.
  destruct (client_loop_spec (WassersteinGanLossFns F32.ten) F32.lr_0_0005
              (zip gens reals) 0%Z (client_loaded from_server w)) as (d' & Hl & E);
    [reflexivity|].
  pose proof (client_loop_keeps_fixed (WassersteinGanLossFns F32.ten) (SGD F32.lr_0_0005)
                (zip gens reals) 0%Z (client_loaded from_server w)) as Hk.
  rewrite E in Hk. cbn [snd discriminator client_loaded weights] in Hk.
  eexists _, _. split; [by eapply client_computation_from_loop|].
  intros i v t Ev Et Ei. cbn [discriminator].
  assert (∃ v', weights d' !! i = Some v' ∧ value v' = t) as (v' & Ev' & <-).
  { unfold with_values in Hk.
    assert (zip_with (λ v t, {| trainable := trainable v; value := t |})
              (weights (discriminator w))
              (FromServer.discriminator_weights from_server) !! i
            = Some {| trainable := trainable v; value := t |}) as Ew
      by (rewrite lookup_zip_with, Ev; simpl; by rewrite Ei).
    destruct (Forall2_lookup_l _ _ _ _ _ Hk Ew) as (v' & Ev' & _ & _ & Hv).
    exists v'. split; [done|]. by apply Hv. }
  assert (_weights d' !! i = Some (value v')) as Ewi
    by (unfold _weights; by rewrite list_lookup_fmap, Ev').
  split; [done|].
  unfold client_output_of. cbn [ClientOutput.discriminator_weights_delta].
  assert (subtract_all (_weights d') (FromServer.discriminator_weights from_server) !! i
          = Some {| shape := shape (value v');
                    data := zip_with F32.sub (data (value v')) (data (value v')) |}) as Er
    by (unfold subtract_all; rewrite lookup_zip_with, Ewi; simpl; by rewrite Ei).
  destruct (any_non_finite _) eqn:Ef.
  - rewrite list_lookup_fmap, Er. simpl. unfold zeros_like. simpl.
    by rewrite zeros_of_self_difference.
  - rewrite Er. f_equal. unfold zeros_like. f_equal.
    apply finite_self_difference.
    by apply (any_non_finite_lookup _ _ _ Ef Er).
Qed.

Lemma rows_cons b ds : rows (b :: ds) = (Z.of_nat (length b) + rows ds)%Z.
Proof. reflexivity. Qed.

Lemma rows_nonneg ds : (0 ≤ rows ds)%Z.
Proof. induction ds as [|b ds IH]; [done|]. rewrite rows_cons. lia. Qed.

Lemma examples_bounds gens : ∀ reals,
  (0 ≤ sum_Z (examples_in <$> zip gens reals) ≤ rows reals)%Z ∧
  (sum_Z (examples_in <$> zip gens reals) ≤ rows gens)%Z ∧
  (Forall2 (λ g r : Batch, length g = length r) gens reals →
   sum_Z (examples_in <$> zip gens reals) = rows reals).
Proof.
  induction gens as [|g gens IH]; intros reals.
  - change (sum_Z (examples_in <$> zip [] reals)) with 0%Z.
    pose proof (rows_nonneg reals). repeat split; try done. by inversion 1.
  - destruct reals as [|r reals].
    + change (sum_Z (examples_in <$> zip (g :: gens) [])) with 0%Z.
      pose proof (rows_nonneg (g :: gens)). repeat split; try done.
    + destruct (IH reals) as ((H0 & H1) & H2 & H3).
      change (zip (g :: gens) (r :: reals)) with ((g, r) :: zip gens reals).
      rewrite fmap_cons, sum_Z_cons, !rows_cons.
      change (examples_in (g, r)) with (Z.of_nat (length r `min` length g)).
      split; [lia|]. split; [lia|].
      intros Hf. inversion Hf as [|???? El Hf']; subst. rewrite (H3 Hf'). lia.
Qed.

(** X5.  The example count of a client round is an int32 number.  When one
    of the two datasets has fewer than [2^31] rows, the count is at most the
    number of rows of either dataset, and never negative; when moreover the
    two datasets have as many batches and batches of equal sizes, it is the
    number of rows of the real data.  [update_weight] is the float of the
    count or 0.0. *)
Theorem client_example_count_bounds gens reals from_server f w :
  loadable (generator w) (FromServer.generator_weights from_server) →
  loadable (discriminator w) (FromServer.discriminator_weights from_server) →
  ∃ out w' n,
    client_computation gens reals from_server f w = (Ok out, w') ∧
    ClientOutput.counters out !! "num_discriminator_train_examples" = Some n ∧
    Int32.in_range n ∧
    ((rows reals < 2147483648 ∨ rows gens < 2147483648)%Z →
     (0 ≤ n ≤ rows reals)%Z ∧ (n ≤ rows gens)%Z ∧
     (Forall2 (λ g r : Batch, length g = length r) gens reals → n = rows reals)) ∧
    (ClientOutput.update_weight out = F32.of_Z n ∨ ClientOutput.update_weight out = F32.zero).
Proof.
  intros Hg Hd.
  destruct (client_computation_spec gens reals from_server f w Hg Hd) as (d' & _ & E).
  destruct (examples_bounds gens reals) as (Hb1 & Hb2 & Hb3).
  eexists _, _, _. split; [exact E|].
  unfold client_output_of. cbn [ClientOutput.counters ClientOutput.update_weight].
  split; [apply ordered_dict_lookup_singleton|]. split; [apply wrap_range|]. split.
  - intros Hsmall. rewrite wrap_in_range by (unfold Int32.in_range; lia).
    split; [done|]. split; done.
  - destruct (any_non_finite _); [by right|by left].
Qed.

(** *** The server round *)

Lemma server_loop_keeps_fixed fns opt ds : ∀ acc w,
  keeps_fixed (weights (generator w))
    (weights (generator
       (for_each ds (server_step (create_train_generator_fn fns opt)) acc w).2)).
Proof.
  induction ds as [|gi ds IH]; intros acc w; [apply keeps_fixed_refl|].
  cbn [for_each].
  pose proof (train_generator_fn_frame fns opt gi w) as Hfr. cbn zeta in Hfr.
  destruct (create_train_generator_fn fns opt gi w) as [[n|e] w1] eqn:Estep;
    destruct Hfr as (_ & _ & _ & Hk & _); cbn [snd] in Hk.
  - erewrite bind_ok; [|unfold server_step; erewrite bind_ok; [|exact Estep]; reflexivity].
    eapply keeps_fixed_trans; [exact Hk|apply IH].
  - erewrite bind_raise;
      [|unfold server_step; erewrite bind_raise; [|exact Estep]; reflexivity].
    exact Hk.
Qed.

(** A round on ready inputs, with the models it leaves: the discriminator as
    the optimizer returned it, the generator trained from the weights of the
    state. *)
Lemma server_computation_detail l s d ds client_output opt f agg w :
  round_ready w l s d client_output opt →
  ∃ g' vs,
    apply_gradients opt
      (zip_with (λ x v, (scalar_mul F32.neg_one x, v))
         (ClientOutput.discriminator_weights_delta client_output)
         (with_values (weights (discriminator w)) (ServerState.discriminator_weights s)))
      = Ok vs ∧
    keeps_fixed (with_values (weights (generator w)) (ServerState.generator_weights s))
      (weights g') ∧
    (ds = [] →
     weights g' = with_values (weights (generator w)) (ServerState.generator_weights s)) ∧
    server_computation l ds client_output opt f agg w =
      (Ok (fresh (dom (states w))),
       {| generator := g'; discriminator := {| weights := vs |};
          states := <[fresh (dom (states w)) :=
                        {| ServerState.generator_weights := _weights g';
                           ServerState.discriminator_weights := value <$> vs;
                           ServerState.counters := fresh (dom (dicts w));
                           ServerState.aggregation_state := agg |}]> (states w);
          dicts := <[fresh (dom (dicts w)) :=
                       round_counters d (ClientOutput.counters client_output) ds]> (dicts w);
          trace := trace w ++ (GeneratorStep <$> ds) |}).
Proof.
  intros Hr.
  destruct (server_computation_spec l s d ds client_output opt f agg w Hr)
    as (vs & w6 & g' & Evs & H1 & H2 & H3 & Eloop & E).
  exists g', vs. split; [exact Evs|].
  pose proof (server_loop_keeps_fixed (WassersteinGanLossFns F32.ten)
                (SGD F32.lr_0_005) ds 0%Z w6) as Hk.
  rewrite Eloop, H1 in Hk. cbn [snd generator weights] in Hk.
  split; [exact Hk|]. split; [|exact E].
  intros ->. cbn [for_each] in Eloop. unfold mret, M_ret in Eloop.
  injection Eloop as Ew. rewrite Ew in H1. cbn [generator] in H1. by rewrite H1.
Qed.

Lemma layout_shape_list vs vs' :
  same_layout vs vs' → shape ∘ value <$> vs' = shape ∘ value <$> vs.
Proof.
  induction 1 as [|???? [_ E] _ IH]; [done|].
  rewrite !fmap_cons, IH. cbn [compose]. by rewrite E.
Qed.

Lemma with_values_shape_list vs ts :
  Forall2 (λ v t, shape (value v) = shape t) vs ts →
  shape ∘ value <$> with_values vs ts = shape <$> ts.
Proof. induction 1; simpl; [done|]. by f_equal. Qed.

Lemma shapes_fit (delta ts ts' : list Tensor) :
  shape <$> ts' = shape <$> ts →
  Forall2 (λ x t, shape x = shape t) delta ts →
  Forall2 (λ x t, shape x = shape t) delta ts'.
Proof.
  intros E Hf. revert ts' E.
  induction Hf as [|x t delta ts Ex _ IH]; intros ts' E.
  - destruct ts'; [constructor|done].
  - destruct ts' as [|t' ts']; [done|].
    injection E as E1 E2. constructor; [congruence|by apply IH].
Qed.

Lemma round_counters_dom d client ds : dom (round_counters d client ds) = dom d.
Proof.
  apply set_eq. intros k. rewrite !elem_of_dom. unfold round_counters.
  rewrite map_lookup_imap. destruct (d !! k); simpl; split; intros [? ?]; by eexists.
Qed.

(** X6.  The state a completed server round returns holds the values the two
    models have at return and the aggregation state it was given; its weights
    have the shapes, and its counters the keys, of the input state.  So the
    round can be run again from it: with the same models and optimizer it is
    ready for every client output the input state was ready for. *)
Theorem server_round_can_be_repeated l s d ds client_output opt f agg w :
  round_ready w l s d client_output opt →
  ∃ l' w' s' d',
    server_computation l ds client_output opt f agg w = (Ok l', w') ∧
    states w' !! l' = Some s' ∧ dicts w' !! ServerState.counters s' = Some d' ∧
    ServerState.generator_weights s' = _weights (generator w') ∧
    ServerState.discriminator_weights s' = _weights (discriminator w') ∧
    ServerState.aggregation_state s' = agg ∧
    shape <$> ServerState.generator_weights s' = shape <$> ServerState.generator_weights s ∧
    shape <$> ServerState.discriminator_weights s'
      = shape <$> ServerState.discriminator_weights s ∧
    dom d' = dom d ∧
    ∀ next_output,
      Forall2 (λ x t, shape x = shape t)
        (ClientOutput.discriminator_weights_delta next_output)
        (ServerState.discriminator_weights s) →
      dom (ClientOutput.counters next_output) ⊆ dom d →
      round_ready w' l' s' d' next_output opt.
Proof.
  intros Hr.
  destruct (server_computation_detail l s d ds client_output opt f agg w Hr)
    as (g' & vs & Evs & Hk & _ & E).
  destruct Hr as [[Es Ed Hg Hd Hdelta Hacc] Hkeys Hex Hro].
  assert (shape <$> _weights g' = shape <$> ServerState.generator_weights s) as Sg.
  { unfold _weights. rewrite <- list_fmap_compose.
    rewrite (layout_shape_list _ _ (keeps_fixed_layout _ _ Hk)).
    by apply with_values_shape_list. }
  assert (shape <$> (value <$> vs) = shape <$> ServerState.discriminator_weights s) as Sd.
  { rewrite <- list_fmap_compose. apply apply_gradients_layout in Evs.
    rewrite negated_gradients_vars in Evs.
    - rewrite (layout_shape_list _ _ Evs). by apply with_values_shape_list.
    - unfold with_values. rewrite length_zip_with.
      apply Forall2_length in Hd, Hdelta. lia. }
  eexists _, _, _, _. split; [exact E|]. cbn [states dicts generator discriminator].
  split; [apply lookup_insert_eq|]. cbn [ServerState.counters].
  split; [apply lookup_insert_eq|].
  cbn [ServerState.generator_weights ServerState.discriminator_weights
       ServerState.aggregation_state].
  repeat split; try done.
  - apply round_counters_dom.
  - apply lookup_insert_eq.
  - apply lookup_insert_eq.
  - apply loadable_own.
  - apply (loadable_own {| weights := vs |}).
  - cbn [ServerState.discriminator_weights]. by eapply shapes_fit.
  - by rewrite round_counters_dom.
  - apply elem_of_dom. rewrite round_counters_dom. by apply elem_of_dom.
  - apply elem_of_dom. rewrite round_counters_dom. by apply elem_of_dom.
Qed.

Lemma stepped_unit_all (ts delta : list Tensor) :
  Forall (λ x, Forall (λ a, F32.valid a = true) (data x)) delta →
  zip_with (stepped F32.one) ts delta = zip_with plus_delta ts delta.
Proof.
  intros Hv. revert ts. induction Hv as [|x delta Hx _ IH]; intros [|t ts]; try done.
  cbn [zip_with]. by rewrite stepped_unit, IH.
Qed.

(** X7.  Under plain SGD with learning rate [lr] the discriminator weights of
    the state a completed round returns are those of the input state, each
    stepped by its delta, [old - lr * (-1.0 * delta)] in the arithmetic of
    the float32 kernels, which read and write a subnormal number as zero:
    they depend neither on the values the models held before the call nor
    on the generator training of the round.  For [lr = 1.0] and a delta of
    float32 values they are [old + delta] in that arithmetic. *)
Theorem server_round_sgd_weights l s d ds client_output lr f agg w :
  round_ready w l s d client_output (SGD lr) →
  ∃ l' w' s',
    server_computation l ds client_output (SGD lr) f agg w = (Ok l', w') ∧
    states w' !! l' = Some s' ∧
    ServerState.discriminator_weights s' =
      zip_with (stepped lr) (ServerState.discriminator_weights s)
        (ClientOutput.discriminator_weights_delta client_output) ∧
    (lr = F32.one →
     Forall (λ x, Forall (λ a, F32.valid a = true) (data x))
       (ClientOutput.discriminator_weights_delta client_output) →
     ServerState.discriminator_weights s' =
       zip_with plus_delta (ServerState.discriminator_weights s)
         (ClientOutput.discriminator_weights_delta client_output)).
Proof.
  intros Hr.
  destruct (server_computation_detail l s d ds client_output (SGD lr) f agg w Hr)
    as (g' & vs & Evs & _ & _ & E).
  destruct Hr as [[Es Ed Hg Hd Hdelta Hacc] Hkeys Hex Hro].
  rewrite apply_gradients_SGD in Evs by by apply delta_fits_loaded.
  injection Evs as <-.
  eexists _, _, _. split; [exact E|]. cbn [states].
  split; [apply lookup_insert_eq|]. cbn [ServerState.discriminator_weights].
  rewrite stepped_values, with_values_values by by eapply Forall2_length.
  split; [done|]. intros -> Hv. by apply stepped_unit_all.
Qed.

(** X8.  A completed server round has run one generator step per batch of
    [gen_inputs_ds], in order, each on the whole batch.  Generator variables
    that are not trainable come back in the returned state with the tensors
    of the input state; on an empty dataset all generator weights do, and
    [num_generator_train_examples] grows, in int32, by the client's value
    alone. *)
Theorem server_generator_training l s d ds client_output opt f agg w :
  round_ready w l s d client_output opt →
  ∃ l' w' s',
    server_computation l ds client_output opt f agg w = (Ok l', w') ∧
    states w' !! l' = Some s' ∧
    trace w' = trace w ++ (GeneratorStep <$> ds) ∧
    (∀ i v t, weights (generator w) !! i = Some v → trainable v = false →
       ServerState.generator_weights s !! i = Some t →
       ServerState.generator_weights s' !! i = Some t) ∧
    (ds = [] →
     ServerState.generator_weights s' = ServerState.generator_weights s ∧
     counter_of w' l' "num_generator_train_examples" =
       (λ x, Int32.wrap (x + default 0%Z (ClientOutput.counters client_output
                                            !! "num_generator_train_examples")))
         <$> d !! "num_generator_train_examples").
Proof.
  intros Hr.
  destruct (server_computation_detail l s d ds client_output opt f agg w Hr)
    as (g' & vs & _ & Hk & Hnil & E).
  destruct Hr as [[Es Ed Hg Hd Hdelta Hacc] Hkeys Hex Hro].
  eexists _, _, _. split; [exact E|]. cbn [states trace].
  split; [apply lookup_insert_eq|]. split; [done|].
  cbn [ServerState.generator_weights]. split.
  - intros i v t Ev Et Ei.
    assert (with_values (weights (generator w)) (ServerState.generator_weights s) !! i
            = Some {| trainable := trainable v; value := t |}) as Ew
      by (unfold with_values; rewrite lookup_zip_with, Ev; simpl; by rewrite Ei).
    destruct (Forall2_lookup_l _ _ _ _ _ Hk Ew) as (v' & Ev' & _ & _ & Hv).
    unfold _weights. rewrite list_lookup_fmap, Ev'. simpl. f_equal. by apply Hv.
  - intros ->. split.
    + unfold _weights. rewrite (Hnil eq_refl).
      apply with_values_values. by eapply Forall2_length.
    + unfold counter_of. cbn [states dicts]. rewrite lookup_insert_eq.
      cbn [mbind option_bind ServerState.counters]. rewrite lookup_insert_eq.
      cbn [mbind option_bind]. rewrite round_counters_lookup.
      destruct (d !! "num_generator_train_examples"); [|done].
      cbn [fmap option_fmap option_map]. rewrite after_round_sum by auto.
      change (bump [] "num_generator_train_examples") with 0%Z. by rewrite Z.add_0_r.
Qed.

Lemma bump_nonneg ds k : (0 ≤ bump ds k)%Z.
Proof.
  unfold bump. repeat case_decide; try lia. apply rows_nonneg.
Qed.

(** X9.  When no counter of the client is negative and no sum leaves the
    int32 range, a completed server round lowers no counter: every counter
    of the input state is in the returned state with a value at least as
    large, [num_rounds] with a larger one, and the returned state has no
    other counters. *)
Theorem server_counters_never_decrease l s d ds client_output opt f agg w :
  round_ready w l s d client_output opt →
  (∀ k v, ClientOutput.counters client_output !! k = Some v → (0 ≤ v)%Z) →
  (∀ k x, d !! k = Some x →
     (-2147483648 ≤ x)%Z ∧
     (x + default 0 (ClientOutput.counters client_output !! k) + bump ds k
        < 2147483648)%Z) →
  ∃ l' w',
    server_computation l ds client_output opt f agg w = (Ok l', w') ∧
    (∀ k x, d !! k = Some x →
       ∃ x', counter_of w' l' k = Some x' ∧ (x ≤ x')%Z ∧ (k = "num_rounds" → (x < x')%Z)) ∧
    (∀ k, d !! k = None → counter_of w' l' k = None).
Proof.
  intros Hr Hpos Hfit.
  destruct (server_computation_counters l s d ds client_output opt f agg w Hr)
    as (l' & w' & E & Hc).
  exists l', w'. split; [exact E|]. split.
  - intros k x Ex. rewrite Hc, Ex. cbn [fmap option_fmap option_map].
    eexists. split; [done|].
    destruct (Hfit k x Ex) as [Hlo Hhi].
    pose proof (bump_nonneg ds k) as Hb.
    assert (0 ≤ default 0 (ClientOutput.counters client_output !! k))%Z as Hv.
    { destruct (ClientOutput.counters client_output !! k) as [v|] eqn:Ev; simpl; [|done].
      by eapply Hpos. }
    destruct (decide (is_Some (ClientOutput.counters client_output !! k) ∨
                      k = "num_generator_train_examples" ∨ k = "num_rounds")) as [Ht|Ht].
    + rewrite after_round_sum by done.
      rewrite wrap_in_range by (unfold Int32.in_range; lia).
      split; [lia|]. intros ->. change (bump ds "num_rounds") with 1%Z. lia.
    + rewrite after_round_other.
      * split; [lia|]. intros ->. destruct Ht. auto.
      * destruct (ClientOutput.counters client_output !! k) eqn:Ek; [|done].
        destruct Ht. left. by eexists.
      * intros ->. destruct Ht. auto.
      * intros ->. destruct Ht. auto.
  - intros k Ek. by rewrite Hc, Ek.
Qed.

(** X10.  The two counters the server adds to itself must exist.  On inputs
    that load and whose client keys the state has, a state without
    [num_generator_train_examples] makes the round raise [KeyError] on that
    key, and a state with it but without [num_rounds] makes it raise
    [KeyError] on [num_rounds].  In both cases nothing of the round has run:
    the models, the store and the record of steps are as before the
    call. *)
Theorem server_round_needs_own_counters l s d ds client_output opt f agg w :
  round_loads w l s d client_output opt →
  dom (ClientOutput.counters client_output) ⊆ dom d →
  (d !! "num_generator_train_examples" = None →
   server_computation l ds client_output opt f agg w
     = (Raise (KeyError "num_generator_train_examples"), w)) ∧
  (is_Some (d !! "num_generator_train_examples") → d !! "num_rounds" = None →
   server_computation l ds client_output opt f agg w
     = (Raise (KeyError "num_rounds"), w)).
Proof.
  intros [Es Ed Hg Hd Hdelta Hacc] Hkeys.
  pose proof (delta_fits_loaded _ _ _ Hd Hdelta) as Hfit.
  destruct (apply_gradients_accepts opt
              (zip_with (λ x v, (scalar_mul F32.neg_one x, v))
                 (ClientOutput.discriminator_weights_delta client_output)
                 (with_values (weights (discriminator w))
                    (ServerState.discriminator_weights s))) Hacc) as [vs Evs].
  { clear -Hfit. induction Hfit; simpl; constructor; auto. }
  set (l' := fresh (dom (states w))). set (c' := fresh (dom (dicts w))).
  enough (∀ k,
    (k = "num_generator_train_examples" ∧ d !! "num_generator_train_examples" = None) ∨
    (k = "num_rounds" ∧ is_Some (d !! "num_generator_train_examples") ∧
     d !! "num_rounds" = None) →
    server_computation l ds client_output opt f agg w = (Raise (KeyError k), w)) as Hk.
  { split; [intros Hn; apply Hk; by left|intros Hx Hn; apply Hk; by right]. }
  intros k Hcase.
  unfold server_computation. apply tf_function_raise.
  server_loads.
  erewrite bind_ok;
    [|apply update_server_discriminator_run; [by eapply Forall2_length|exact Evs]].
  norm.
  match goal with |- context [mbind _ (for_each (items ?m) _ ()) ?w4] =>
    destruct (sum_counters_ok l'
      {| ServerState.generator_weights := ServerState.generator_weights s;
         ServerState.discriminator_weights := ServerState.discriminator_weights s;
         ServerState.counters := c';
         ServerState.aggregation_state := ServerState.aggregation_state s |}
      (items m) d w4) as (dsum & E & Hsum) end.
  { apply lookup_insert_eq. }
  { apply lookup_insert_eq. }
  { apply items_NoDup. }
  { apply Forall_forall. intros [k0 v] Hin. simpl.
    apply elem_of_dom, Hkeys. unfold dom, ordered_dict_dom.
    apply elem_of_list_to_set, list_elem_of_fmap. by exists (k0, v). }
  erewrite bind_ok; [|exact E]. clear E. norm. rewrite insert_insert_eq.
  erewrite bind_ok; [|apply set_state_aggregation_state_ok; apply lookup_insert_eq].
  norm. rewrite insert_insert_eq.
  match goal with |- context [mbind _ (for_each ds _ 0%Z) ?w6] =>
    destruct (server_loop_spec (WassersteinGanLossFns F32.ten) F32.lr_0_005 ds 0%Z w6
                eq_refl) as (g' & Hlg & E) end.
  erewrite bind_ok; [|exact E]. clear E. norm.
  erewrite bind_ok; [|apply state_counters_ok; apply lookup_insert_eq]. norm.
  destruct Hcase as [[-> Hn]|(-> & [x Ex] & Hn)].
  - erewrite bind_raise; [reflexivity|].
    eapply dict_iadd_missing; [apply lookup_insert_eq|]. by rewrite Hsum, Hn.
  - erewrite bind_ok; [|eapply dict_iadd_ok;
                         [apply lookup_insert_eq|rewrite Hsum, Ex; reflexivity]].
    norm. rewrite insert_insert_eq.
    erewrite bind_ok; [|apply state_counters_ok; apply lookup_insert_eq]. norm.
    erewrite bind_raise; [reflexivity|].
    eapply dict_iadd_missing; [apply lookup_insert_eq|].
    rewrite lookup_insert_ne by done. by rewrite Hsum, Hn.
Qed.

(** *** The initial state and whole rounds *)

Lemma server_initial_state_run w :
  server_initial_state w =
    (Ok (fresh (dom (states w))),
     {| generator := generator w; discriminator := discriminator w;
        states := <[fresh (dom (states w)) :=
                      {| ServerState.generator_weights := _weights (generator w);
                         ServerState.discriminator_weights := _weights (discriminator w);
                         ServerState.counters := fresh (dom (dicts w));
                         ServerState.aggregation_state := no_aggregation_state |}]>
                  (states w);
        dicts := <[fresh (dom (dicts w)) := zero_counters]> (dicts w);
        trace := trace w |}).
Proof. reflexivity. Qed.

Lemma zero_counters_dom :
  dom zero_counters =
    ({[ "num_discriminator_train_examples"; "num_generator_train_examples";
        "num_rounds" ]} : gset string).
Proof. unfold zero_counters. rewrite !dom_insert_L, dom_singleton_L. set_solver. Qed.

Lemma zero_counters_lookup k :
  zero_counters !! k =
    if decide (k ∈ ["num_discriminator_train_examples"; "num_generator_train_examples";
                    "num_rounds"])
    then Some 0%Z else None.
Proof.
  unfold zero_counters. case_decide as Hk.
  - repeat (apply elem_of_cons in Hk as [->|Hk]); [done..|]. by apply elem_of_nil in Hk.
  - rewrite !lookup_insert_ne, lookup_singleton_ne; [done|..];
      intros <-; apply Hk; set_solver.
Qed.

(** X11.  [server_initial_state] returns a new state object with a new
    counters dictionary and leaves the models and every object of the store
    as they are.  The state holds the current values of the two models, the
    empty aggregation state, and the three counters at 0 and no other; it is
    ready for a round with any optimizer that takes its gradients and any
    client output whose delta has the shapes of the discriminator weights
    and whose counters are among the three. *)
Theorem server_initial_state_ready w :
  ∃ l w' s,
    server_initial_state w = (Ok l, w') ∧
    (l ∉ dom (states w)) ∧ states w' !! l = Some s ∧
    (ServerState.counters s ∉ dom (dicts w)) ∧
    dicts w' !! ServerState.counters s = Some zero_counters ∧
    ServerState.generator_weights s = _weights (generator w) ∧
    ServerState.discriminator_weights s = _weights (discriminator w) ∧
    ServerState.aggregation_state s = no_aggregation_state ∧
    (∀ k, counter_of w' l k =
            if decide (k ∈ ["num_discriminator_train_examples";
                            "num_generator_train_examples"; "num_rounds"])
            then Some 0%Z else None) ∧
    generator w' = generator w ∧ discriminator w' = discriminator w ∧
    trace w' = trace w ∧
    (∀ l0, l0 ∈ dom (states w) → states w' !! l0 = states w !! l0) ∧
    (∀ c0, c0 ∈ dom (dicts w) → dicts w' !! c0 = dicts w !! c0) ∧
    ∀ client_output opt,
      accepts opt →
      Forall2 (λ x t, shape x = shape t)
        (ClientOutput.discriminator_weights_delta client_output)
        (_weights (discriminator w)) →
      dom (ClientOutput.counters client_output) ⊆ dom zero_counters →
      round_ready w' l s zero_counters client_output opt.
Proof.
  eexists _, _, _. split; [apply server_initial_state_run|].
  cbn [states dicts generator discriminator trace].
  split; [apply is_fresh|]. split; [apply lookup_insert_eq|].
  cbn [ServerState.counters ServerState.generator_weights
       ServerState.discriminator_weights ServerState.aggregation_state].
  split; [apply is_fresh|]. split; [apply lookup_insert_eq|].
  do 3 (split; [done|]). split.
  { intros k. unfold counter_of. cbn [states dicts]. rewrite lookup_insert_eq.
    cbn [mbind option_bind ServerState.counters]. rewrite lookup_insert_eq.
    cbn [mbind option_bind]. apply zero_counters_lookup. }
  do 3 (split; [done|]). split; [|split].
  - intros l0 Hl0. rewrite lookup_insert_ne; [done|]. intros <-. by apply is_fresh in Hl0.
  - intros c0 Hc0. rewrite lookup_insert_ne; [done|]. intros <-. by apply is_fresh in Hc0.
  - intros client_output opt Hacc Hfit Hkeys.
    split; [split| | |]; cbn [states dicts generator discriminator ServerState.counters
                               ServerState.generator_weights
                               ServerState.discriminator_weights];
      try done;
      try apply lookup_insert_eq; try apply loadable_own;
      apply elem_of_dom; rewrite zero_counters_dom; set_solver.
Qed.

Lemma untrained_delta n d from_server :
  _weights d = FromServer.discriminator_weights from_server →
  ClientOutput.discriminator_weights_delta (client_output_of n d from_server) =
    zeros_like <$> FromServer.discriminator_weights from_server.
Proof.
  intros Ew. unfold client_output_of. cbn [ClientOutput.discriminator_weights_delta].
  rewrite Ew. destruct (any_non_finite _) eqn:E.
  - apply zeros_like_self_delta.
  - by apply finite_self_delta.
Qed.

Lemma stepped_zeros_all lr (ts : list Tensor) :
  F32.is_finite lr = true →
  Forall2 same_numbers (zip_with (stepped lr) ts (zeros_like <$> ts)) (flushed <$> ts).
Proof.
  intros Hlr. induction ts as [|t ts IH]; simpl; constructor; [|done].
  apply stepped_zero; [done| |].
  - cbn [zeros_like data]. induction (data t); simpl; constructor; auto.
  - cbn [zeros_like data]. by rewrite length_fmap.
Qed.

Lemma flushed_all_normal_list (ts : list Tensor) :
  Forall all_normal ts → flushed <$> ts = ts.
Proof.
  induction 1 as [|t ts Ht _ IH]; [done|]. by rewrite fmap_cons, flushed_all_normal, IH.
Qed.

(** X12.  A client that gets no pair of batches and a server with plain SGD
    make a round that leaves the discriminator where it was, up to the
    flushing of subnormal numbers: the client, run on the weights of the
    state, returns; the server, run on what the client returned, returns a
    state whose discriminator weights hold the numbers of the input state
    as the kernels read them, whatever the finite learning rate: the same
    numbers where no weight is subnormal.  The count of discriminator
    examples is the one before. *)
Theorem untrained_round_keeps_discriminator l s d gens reals ds lr f f' agg w :
  states w !! l = Some s → dicts w !! ServerState.counters s = Some d →
  loadable (generator w) (ServerState.generator_weights s) →
  loadable (discriminator w) (ServerState.discriminator_weights s) →
  is_Some (d !! "num_discriminator_train_examples") →
  is_Some (d !! "num_generator_train_examples") →
  is_Some (d !! "num_rounds") →
  F32.is_finite lr = true →
  gens = [] ∨ reals = [] →
  ∃ out w1 l' w2 s',
    client_computation gens reals (broadcast s) f w = (Ok out, w1) ∧
    server_computation l ds out (SGD lr) f' agg w1 = (Ok l', w2) ∧
    states w2 !! l' = Some s' ∧
    Forall2 same_numbers (ServerState.discriminator_weights s')
      (flushed <$> ServerState.discriminator_weights s) ∧
    (Forall all_normal (ServerState.discriminator_weights s) →
     Forall2 same_numbers (ServerState.discriminator_weights s')
       (ServerState.discriminator_weights s)) ∧
    counter_of w2 l' "num_discriminator_train_examples" =
      Int32.wrap <$> d !! "num_discriminator_train_examples" ∧
    (∀ x, d !! "num_discriminator_train_examples" = Some x → Int32.in_range x →
       counter_of w2 l' "num_discriminator_train_examples" = Some x).
Proof.
  intros Es Ed Hg Hd [x0 Ex0] Hx1 Hx2 Hlr Hnil.
  assert (zip gens reals = []) as Ez.
  { destruct Hnil as [-> | ->]; [done|]. by destruct gens. }
  set (w1 := client_loaded (broadcast s) w).
  set (out := client_output_of 0 (discriminator w1) (broadcast s)).
  assert (client_computation gens reals (broadcast s) f w = (Ok out, w1)) as Ec.
  { apply client_computation_from_loop; [done|done| |apply same_layout_refl].
    by rewrite Ez. }
  assert (ClientOutput.discriminator_weights_delta out =
            zeros_like <$> ServerState.discriminator_weights s) as Edelta.
  { apply untrained_delta. unfold w1, client_loaded, _weights, broadcast.
    cbn [discriminator weights FromServer.discriminator_weights].
    apply with_values_values. by eapply Forall2_length. }
  assert (round_ready w1 l s d out (SGD lr)) as Hr.
  { split; [split|..]; try done.
    - by apply loadable_with_values.
    - by apply loadable_with_values.
    - rewrite Edelta. apply zeros_like_fits.
    - apply SGD_accepts.
    - unfold out, client_output_of. cbn [ClientOutput.counters].
      rewrite ordered_dict_dom_singleton. apply singleton_subseteq_l, elem_of_dom.
      by eexists. }
  assert (ClientOutput.counters out = {[ "num_discriminator_train_examples" := 0%Z ]})
    as Ecnt by reflexivity.
  clearbody out w1.
  destruct (server_computation_detail l s d ds out (SGD lr) f' agg w1 Hr)
    as (g' & vs & Evs & _ & _ & E).
  rewrite apply_gradients_SGD in Evs.
  2:{ apply delta_fits_loaded; [apply Hr|]. rewrite Edelta. apply zeros_like_fits. }
  injection Evs as <-.
  eexists out, w1, _, _, _. split; [exact Ec|]. split; [exact E|].
  cbn [states]. split; [apply lookup_insert_eq|].
  cbn [ServerState.discriminator_weights].
  assert (Forall2 same_numbers
            (value <$> zip_with (λ x v, {| trainable := trainable v;
                                           value := stepped lr (value v) x |})
                         (ClientOutput.discriminator_weights_delta out)
                         (with_values (weights (discriminator w1))
                            (ServerState.discriminator_weights s)))
            (flushed <$> ServerState.discriminator_weights s)) as Hsame.
  { rewrite stepped_values, Edelta.
    rewrite with_values_values by (eapply Forall2_length; apply Hr).
    by apply stepped_zeros_all. }
  split; [exact Hsame|]. split.
  { intros Hn. by rewrite flushed_all_normal_list in Hsame. }
  assert (counter_of
            {| generator := g';
               discriminator :=
                 {| weights :=
                      zip_with (λ x v, {| trainable := trainable v;
                                          value := stepped lr (value v) x |})
                        (ClientOutput.discriminator_weights_delta out)
                        (with_values (weights (discriminator w1))
                           (ServerState.discriminator_weights s)) |};
               states := <[fresh (dom (states w1)) :=
                 {| ServerState.generator_weights := _weights g';
                    ServerState.discriminator_weights :=
                      value <$> zip_with (λ x v, {| trainable := trainable v;
                                                    value := stepped lr (value v) x |})
                                  (ClientOutput.discriminator_weights_delta out)
                                  (with_values (weights (discriminator w1))
                                     (ServerState.discriminator_weights s));
                    ServerState.counters := fresh (dom (dicts w1));
                    ServerState.aggregation_state := agg |}]> (states w1);
               dicts := <[fresh (dom (dicts w1)) :=
                 round_counters d (ClientOutput.counters out) ds]> (dicts w1);
               trace := trace w1 ++ (GeneratorStep <$> ds) |}
            (fresh (dom (states w1))) "num_discriminator_train_examples"
          = Some (Int32.wrap x0)) as Ecount.
  { unfold counter_of. cbn [states dicts]. rewrite lookup_insert_eq.
    cbn [mbind option_bind ServerState.counters]. rewrite lookup_insert_eq.
    cbn [mbind option_bind]. rewrite round_counters_lookup, Ex0.
    cbn [fmap option_fmap option_map]. rewrite after_round_sum.
    2:{ left. rewrite Ecnt. rewrite ordered_dict_lookup_singleton. by eexists. }
    rewrite Ecnt, ordered_dict_lookup_singleton.
    change (bump ds "num_discriminator_train_examples") with 0%Z.
    cbn [default]. unfold id. by rewrite !Z.add_0_r. }
  rewrite Ecount, Ex0. split; [done|].
  intros x [= <-] Hx. by rewrite wrap_in_range.
Qed.

(** X13.  The first round.  From any two models, [server_initial_state],
    then [client_computation] on the weights of that state, then
    [server_computation] on what the client returned all return, whatever
    the datasets, for every server optimizer that takes its gradients.  The
    state after the round counts one round, as discriminator examples the
    int32 sum over the zipped pairs of the smaller number of rows, and as
    generator examples the int32 sum of the rows of [gen_inputs_ds]: the
    sums themselves while they are below [2^31].  It is another object than
    the initial state, which still counts no round. *)
Theorem first_round_counters gens reals ds opt f f' agg w :
  accepts opt →
  let total := sum_Z (examples_in <$> zip gens reals) in
  ∃ l w0 s0 out w1 l' w2,
    server_initial_state w = (Ok l, w0) ∧ states w0 !! l = Some s0 ∧
    client_computation gens reals (broadcast s0) f w0 = (Ok out, w1) ∧
    server_computation l ds out opt f' agg w1 = (Ok l', w2) ∧
    counter_of w2 l' "num_rounds" = Some 1%Z ∧
    counter_of w2 l' "num_discriminator_train_examples" = Some (Int32.wrap total) ∧
    counter_of w2 l' "num_generator_train_examples" = Some (Int32.wrap (rows ds)) ∧
    ((total < 2147483648)%Z →
     counter_of w2 l' "num_discriminator_train_examples" = Some total) ∧
    ((rows ds < 2147483648)%Z →
     counter_of w2 l' "num_generator_train_examples" = Some (rows ds)) ∧
    l' ≠ l ∧ counter_of w2 l "num_rounds" = Some 0%Z.
Proof.
  intros Hacc total.
  eexists _, _, _. rewrite server_initial_state_run.
  set (l := fresh (dom (states w))). set (c := fresh (dom (dicts w))).
  set (s0 := {| ServerState.generator_weights := _weights (generator w);
                ServerState.discriminator_weights := _weights (discriminator w);
                ServerState.counters := c;
                ServerState.aggregation_state := no_aggregation_state |}).
  set (w0 := {| generator := generator w; discriminator := discriminator w;
                states := <[l := s0]> (states w);
                dicts := <[c := zero_counters]> (dicts w); trace := trace w |}).
  destruct (client_computation_spec gens reals (broadcast s0) f w0)
    as (d' & Hl & Ec); [apply loadable_own..|].
  fold total in Ec.
  match type of Ec with _ = (Ok ?o, ?w') => set (out := o) in *; set (w1 := w') in * end.
  assert (ClientOutput.counters out =
            {[ "num_discriminator_train_examples" := Int32.wrap total ]}) as Ecnt
    by reflexivity.
  assert (round_ready w1 l s0 zero_counters out opt) as Hr.
  { split; [split|..].
    - apply lookup_insert_eq.
    - apply lookup_insert_eq.
    - apply (loadable_with_values (weights (generator w)) (_weights (generator w))),
        loadable_own.
    - eapply layout_loadable; [|exact Hl].
      apply (loadable_with_values (weights (discriminator w))
               (_weights (discriminator w))), loadable_own.
    - apply (client_delta_fits _ d' (broadcast s0)).
      eapply layout_shapes; [|exact Hl].
      apply (loadable_with_values (weights (discriminator w))
               (_weights (discriminator w))), loadable_own.
    - exact Hacc.
    - rewrite Ecnt, ordered_dict_dom_singleton, zero_counters_dom. set_solver.
    - by rewrite zero_counters_lookup.
    - by rewrite zero_counters_lookup. }
  destruct (server_computation_detail l s0 zero_counters ds out opt f' agg w1 Hr)
    as (g' & vs & _ & _ & _ & E).
  eexists out, w1, _, _. split; [reflexivity|]. split; [apply lookup_insert_eq|].
  split; [exact Ec|]. split; [exact E|].
  assert (∀ k, counter_of
                 {| generator := g'; discriminator := {| weights := vs |};
                    states := <[fresh (dom (states w1)) :=
                      {| ServerState.generator_weights := _weights g';
                         ServerState.discriminator_weights := value <$> vs;
                         ServerState.counters := fresh (dom (dicts w1));
                         ServerState.aggregation_state := agg |}]> (states w1);
                    dicts := <[fresh (dom (dicts w1)) :=
                      round_counters zero_counters (ClientOutput.counters out) ds]>
                      (dicts w1);
                    trace := trace w1 ++ (GeneratorStep <$> ds) |}
                 (fresh (dom (states w1))) k =
               after_round (ClientOutput.counters out) ds k <$> zero_counters !! k) as Hc.
  { intros k. unfold counter_of. cbn [states dicts]. rewrite lookup_insert_eq.
    cbn [mbind option_bind ServerState.counters]. rewrite lookup_insert_eq.
    cbn [mbind option_bind]. apply round_counters_lookup. }
  assert (l ∈ dom (states w1)) as Hin.
  { unfold w1, w0. cbn [states]. apply elem_of_dom. rewrite lookup_insert_eq. by eexists. }
  assert (c ∈ dom (dicts w1)) as Hcin.
  { unfold w1, w0. cbn [dicts]. apply elem_of_dom. rewrite lookup_insert_eq. by eexists. }
  assert (fresh (dom (states w1)) ≠ l) as Hl'.
  { intros El. pose proof (is_fresh (dom (states w1))) as Hf. rewrite El in Hf. done. }
  assert (fresh (dom (dicts w1)) ≠ c) as Hc'.
  { intros El. pose proof (is_fresh (dom (dicts w1))) as Hf. rewrite El in Hf. done. }
  clearbody out.
  assert (counter_of
            {| generator := g'; discriminator := {| weights := vs |};
               states := <[fresh (dom (states w1)) :=
                 {| ServerState.generator_weights := _weights g';
                    ServerState.discriminator_weights := value <$> vs;
                    ServerState.counters := fresh (dom (dicts w1));
                    ServerState.aggregation_state := agg |}]> (states w1);
               dicts := <[fresh (dom (dicts w1)) :=
                 round_counters zero_counters (ClientOutput.counters out) ds]>
                 (dicts w1);
               trace := trace w1 ++ (GeneratorStep <$> ds) |}
            (fresh (dom (states w1))) "num_discriminator_train_examples"
          = Some (Int32.wrap total)) as Edisc.
  { rewrite Hc, zero_counters_lookup. rewrite decide_True by (rewrite !elem_of_cons; auto).
    cbn [fmap option_fmap option_map]. rewrite after_round_sum.
    2:{ left. rewrite Ecnt, ordered_dict_lookup_singleton. by eexists. }
    rewrite Ecnt, ordered_dict_lookup_singleton.
    change (bump ds "num_discriminator_train_examples") with 0%Z.
    cbn [default]. unfold id. by rewrite Z.add_0_l, Z.add_0_r, wrap_wrap. }
  assert (counter_of
            {| generator := g'; discriminator := {| weights := vs |};
               states := <[fresh (dom (states w1)) :=
                 {| ServerState.generator_weights := _weights g';
                    ServerState.discriminator_weights := value <$> vs;
                    ServerState.counters := fresh (dom (dicts w1));
                    ServerState.aggregation_state := agg |}]> (states w1);
               dicts := <[fresh (dom (dicts w1)) :=
                 round_counters zero_counters (ClientOutput.counters out) ds]>
                 (dicts w1);
               trace := trace w1 ++ (GeneratorStep <$> ds) |}
            (fresh (dom (states w1))) "num_generator_train_examples"
          = Some (Int32.wrap (rows ds))) as Egen.
  { rewrite Hc, zero_counters_lookup. rewrite decide_True by (rewrite !elem_of_cons; auto).
    cbn [fmap option_fmap option_map]. rewrite after_round_sum by auto.
    rewrite Ecnt, ordered_dict_lookup_singleton_ne by done.
    change (bump ds "num_generator_train_examples") with (rows ds).
    cbn [default]. by rewrite !Z.add_0_l. }
  split; [|split; [|split; [|split; [|split; [|split]]]]].
  - rewrite Hc, zero_counters_lookup. rewrite decide_True by (rewrite !elem_of_cons; auto).
    cbn [fmap option_fmap option_map]. rewrite after_round_sum by auto.
    rewrite Ecnt, ordered_dict_lookup_singleton_ne by done. reflexivity.
  - exact Edisc.
  - exact Egen.
  - intros Hlt. rewrite Edisc, wrap_in_range; [done|].
    destruct (examples_bounds gens reals) as ((H0 & _) & _). fold total in H0.
    unfold Int32.in_range. lia.
  - intros Hlt. rewrite Egen, wrap_in_range; [done|].
    pose proof (rows_nonneg ds). unfold Int32.in_range. lia.
  - exact Hl'.
  - unfold counter_of. cbn [states dicts].
    rewrite (lookup_insert_ne _ _ _ _ Hl').
    assert (states w1 !! l = Some s0) as -> by apply lookup_insert_eq.
    cbn [mbind option_bind]. change (ServerState.counters s0) with c.
    rewrite (lookup_insert_ne _ _ _ _ Hc').
    assert (dicts w1 !! c = Some zero_counters) as -> by apply lookup_insert_eq.
    reflexivity.
Qed.

(** *** The check for anonymous tuples *)

Lemma prefix_app needle : ∀ hay,
  String.prefix needle hay = true ↔ ∃ b, hay = needle +:+ b.
Proof.
  induction needle as [|c needle IH]; intros hay.
  - split; [intros _; by exists hay|intros _; by destruct hay].
  - destruct hay as [|c' hay]; cbn [String.prefix].
    + split; [done|intros [b Hb]; discriminate Hb].
    + destruct (Ascii.ascii_dec c c') as [->|Hne].
      * rewrite IH. split; intros [b Hb]; exists b.
        -- cbn [append]. by rewrite Hb.
        -- cbn [append] in Hb. by injection Hb.
      * split; [done|]. intros [b Hb]. cbn [append] in Hb. injection Hb as -> _. done.
Qed.

Lemma str_contains_inside needle : ∀ hay,
  str_contains needle hay = true ↔ has_inside needle hay.
Proof.
  unfold has_inside. induction hay as [|c hay IH]; cbn [str_contains].
  - rewrite orb_false_r, prefix_app. split.
    + intros [b Hb]. by exists EmptyString, b.
    + intros ([|??] & b & Hb); [by exists b|discriminate Hb].
  - rewrite orb_true_iff, prefix_app, IH. split.
    + intros [[b Hb]|(a & b & Hb)].
      * by exists EmptyString, b.
      * exists (String c a), b. cbn [append]. by rewrite Hb.
    + intros ([|c' a] & b & Hb).
      * left. by exists b.
      * right. cbn [append] in Hb. injection Hb as _ Hb. by exists a, b.
Qed.

Lemma check_anon_cases t :
  (check_anon t = Ok () ∧ ¬ has_inside "Struct" t) ∨
  (check_anon t = Raise ValueError ∧ has_inside "Struct" t).
Proof.
  unfold check_anon. destruct (str_contains "Struct" t) eqn:E.
  - right. split; [done|]. by apply str_contains_inside.
  - left. split; [done|]. intros Hi%str_contains_inside. congruence.
Qed.

Lemma visit_leaves_check leaves :
  (visit_leaves check_anon leaves = Ok () ↔ Forall (λ t, ¬ has_inside "Struct" t) leaves) ∧
  (visit_leaves check_anon leaves = Ok () ∨
   visit_leaves check_anon leaves = Raise ValueError).
Proof.
  induction leaves as [|t leaves [IH1 IH2]]; cbn [visit_leaves].
  - split; [split; [constructor|done]|by left].
  - destruct (check_anon_cases t) as [[-> Ht]|[-> Ht]]; cbn [mbind outcome_bind].
    + split; [|exact IH2]. rewrite IH1. split.
      * intros Hl. by constructor.
      * by intros [_ Hl]%Forall_cons.
    + split; [|by right].
      split; [done|]. intros [Hn _]%Forall_cons. by destruct Hn.
Qed.

(** X14.  [assert_no_anon_tuples] returns its argument itself exactly when
    no leaf of the structure has a type whose name contains [Struct], and
    raises [ValueError] otherwise: it never returns anything else and never
    raises another exception. *)
Theorem assert_no_anon_tuples_spec (x : Nest) :
  (assert_no_anon_tuples x = Ok x ↔ Forall (λ t, ¬ has_inside "Struct" t) (flatten x)) ∧
  (Exists (has_inside "Struct") (flatten x) → assert_no_anon_tuples x = Raise ValueError) ∧
  (assert_no_anon_tuples x = Ok x ∨ assert_no_anon_tuples x = Raise ValueError) ∧
  (∀ y, assert_no_anon_tuples x = Ok y → y = x).
Proof.
  unfold assert_no_anon_tuples.
  destruct (visit_leaves_check (flatten x)) as [Hiff Hor].
  destruct (visit_leaves check_anon (flatten x)) as [[]|e]; cbn [mbind outcome_bind].
  - assert (Forall (λ t, ¬ has_inside "Struct" t) (flatten x)) as Hf by by apply Hiff.
    split; [|split; [|split]].
    + done.
    + intros Hex. apply Exists_exists in Hex as (t & Hin & Ht).
      rewrite Forall_forall in Hf. by destruct (Hf t Hin).
    + by left.
    + by intros y [= <-].
  - destruct Hor as [?|[= ->]]; [done|]. split; [|split; [|split]].
    + split; [done|]. intros Hf. by apply Hiff in Hf.
    + done.
    + by right.
    + done.
Qed.

End Proofs.

(** * The claims on the sample inputs *)

Section Samples.
#[local] Existing Instance Sample.capabilities.

Lemma server_round_counters_witness :
  round_ready Sample.world 1%positive Sample.state Sample.counters
    Sample.client_output (SGD F32.one) ∧
  Sample.counters !! "num_rounds" = Some 0%Z ∧
  Sample.counters !! "num_generator_train_examples" = Some 0%Z ∧
  ∃ l' w',
    server_computation 1%positive Sample.gen_inputs_ds Sample.client_output (SGD F32.one)
      Sample.train_generator_fn () Sample.world = (Ok l', w') ∧
    counter_of w' l' "num_rounds" = Some 1%Z ∧
    counter_of w' l' "num_generator_train_examples" = Some 3%Z.
Proof.
  assert (round_ready Sample.world 1%positive Sample.state Sample.counters
            Sample.client_output (SGD F32.one)) as Hr.
  { split; [|compute_done|by eexists|by eexists].
    split; [reflexivity|reflexivity|repeat constructor..|apply SGD_accepts]. }
  split; [exact Hr|]. split; [reflexivity|]. split; [reflexivity|].
  destruct (server_round_counters 1%positive Sample.state Sample.counters
              Sample.gen_inputs_ds Sample.client_output (SGD F32.one)
              Sample.train_generator_fn () Sample.world 0%Z 0%Z Hr eq_refl eq_refl)
    as (l' & w' & E & _ & _ & Hn & Hg & _).
  exists l', w'. split; [exact E|]. split; [apply Hn|apply Hg]; by vm_compute.
Defined.

Lemma server_round_counters_counterexample :
  (let r := server_computation 1%positive [] Sample.round_counting_output (SGD F32.one)
              Sample.train_generator_fn () Sample.world in
   r.1 = Ok 2%positive ∧
   counter_of Sample.world 1%positive "num_rounds" = Some 0%Z ∧
   counter_of r.2 2%positive "num_rounds" = Some 6%Z ∧
   counter_of r.2 2%positive "num_rounds" ≠ Some (0 + 1)%Z) ∧
  (let r := server_computation 1%positive Sample.gen_inputs_ds Sample.client_output
              (SGD F32.one) Sample.train_generator_fn () Sample.world_at_last_round in
   r.1 = Ok 2%positive ∧
   counter_of Sample.world_at_last_round 1%positive "num_rounds" = Some 2147483647%Z ∧
   counter_of r.2 2%positive "num_rounds" = Some (-2147483648)%Z ∧
   counter_of r.2 2%positive "num_rounds" ≠ Some (2147483647 + 1)%Z).
Proof. vm_compute. repeat split; discriminate. Qed.

Lemma client_steps_paired_and_truncated_witness :
  loadable (generator Sample.world) (FromServer.generator_weights Sample.from_server) ∧
  loadable (discriminator Sample.world)
    (FromServer.discriminator_weights Sample.from_server) ∧
  ∃ out w',
    client_computation Sample.gen_inputs_ds Sample.real_data_ds Sample.from_server
      Sample.train_discriminator_fn Sample.world = (Ok out, w') ∧
    trace w' = [DiscriminatorStep [Sample.row] [Sample.row];
                DiscriminatorStep [Sample.row] [Sample.row]] ∧
    length (trace w') = 2 ∧
    ClientOutput.counters out !! "num_discriminator_train_examples" = Some 2%Z.
Proof.
  assert (loadable (generator Sample.world)
            (FromServer.generator_weights Sample.from_server)) as Hg
    by repeat constructor.
  assert (loadable (discriminator Sample.world)
            (FromServer.discriminator_weights Sample.from_server)) as Hd
    by repeat constructor.
  split; [exact Hg|]. split; [exact Hd|].
  destruct (client_steps_paired_and_truncated Sample.gen_inputs_ds Sample.real_data_ds
              Sample.from_server Sample.train_discriminator_fn Sample.world Hg Hd)
    as (out & w' & E & Ht & Hlen & _ & Hcount).
  exists out, w'. split; [exact E|]. split; [exact Ht|]. split; [exact Hlen|].
  apply Hcount. reflexivity.
Defined.

Lemma client_steps_paired_and_truncated_counterexample :
  let gens := [Sample.big_batch; Sample.big_batch] in
  let reals := [Sample.big_batch; Sample.big_batch] in
  let r := client_computation gens reals Sample.from_server
             Sample.train_discriminator_fn Sample.world in
  sum_Z ((λ '(g, r), Z.of_nat (length r `min` length g)) <$> zip gens reals)
    = 2147483648%Z ∧
  ∃ out, r.1 = Ok out ∧
    ClientOutput.counters out !! "num_discriminator_train_examples"
      = Some (-2147483648)%Z ∧
    ClientOutput.counters out !! "num_discriminator_train_examples"
      ≠ Some (sum_Z ((λ '(g, r), Z.of_nat (length r `min` length g)) <$> zip gens reals)).
Proof.
  intros gens reals r.
  assert (length Sample.big_batch = Pos.to_nat 1073741824) as Hlen
    by apply length_replicate.
  assert (sum_Z ((λ '(g, r), Z.of_nat (length r `min` length g)) <$> zip gens reals)
          = 2147483648%Z) as Hsum.
  { unfold gens, reals. cbn [zip zip_with fmap list_fmap].
    rewrite !sum_Z_cons, Nat.min_id, Hlen, positive_nat_Z. reflexivity. }
  split; [exact Hsum|]. rewrite Hsum.
  destruct (client_computation_spec gens reals Sample.from_server
              Sample.train_discriminator_fn Sample.world) as (d' & _ & E);
    [repeat constructor..|].
  assert (sum_Z (examples_in <$> zip gens reals) = 2147483648%Z) as Hex.
  { exact Hsum. }
  rewrite Hex in E. unfold r. rewrite E. eexists. split; [reflexivity|].
  unfold client_output_of. cbn [ClientOutput.counters].
  rewrite ordered_dict_lookup_singleton. split; [reflexivity|]. discriminate.
Qed.

Lemma client_update_weight_witness :
  loadable (generator Sample.world) (FromServer.generator_weights Sample.from_server) ∧
  loadable (discriminator Sample.world)
    (FromServer.discriminator_weights Sample.from_server) ∧
  loadable (discriminator Sample.world)
    (FromServer.discriminator_weights Sample.infinite_from_server) ∧
  (∃ out w',
     client_computation Sample.gen_inputs_ds Sample.real_data_ds Sample.from_server
       Sample.train_discriminator_fn Sample.world = (Ok out, w') ∧
     any_non_finite (subtract_all (_weights (discriminator w'))
                       (FromServer.discriminator_weights Sample.from_server)) = false ∧
     ClientOutput.update_weight out = F32.of_Z 2 ∧
     ClientOutput.discriminator_weights_delta out =
       subtract_all (_weights (discriminator w'))
         (FromServer.discriminator_weights Sample.from_server)) ∧
  (∃ out w',
     client_computation Sample.gen_inputs_ds Sample.real_data_ds
       Sample.infinite_from_server Sample.train_discriminator_fn Sample.world
       = (Ok out, w') ∧
     any_non_finite (subtract_all (_weights (discriminator w'))
                       (FromServer.discriminator_weights Sample.infinite_from_server))
       = true ∧
     ClientOutput.update_weight out = F32.zero ∧
     ClientOutput.discriminator_weights_delta out = [Sample.vec [F32.zero; F32.zero]] ∧
     all_zero (ClientOutput.discriminator_weights_delta out)).
Proof.
  assert (loadable (generator Sample.world)
            (FromServer.generator_weights Sample.from_server)) as Hg
    by repeat constructor.
  assert (loadable (discriminator Sample.world)
            (FromServer.discriminator_weights Sample.from_server)) as Hd
    by repeat constructor.
  assert (loadable (discriminator Sample.world)
            (FromServer.discriminator_weights Sample.infinite_from_server)) as Hd'
    by repeat constructor.
  split; [exact Hg|]. split; [exact Hd|]. split; [exact Hd'|]. split.
  - destruct (client_update_weight Sample.gen_inputs_ds Sample.real_data_ds
                Sample.from_server Sample.train_discriminator_fn Sample.world Hg Hd)
      as (out & w' & n & Eloop & E & Ecount & _ & Hfinite & _).
    assert (Ok n = Ok 2%Z) as En.
    { change (Ok n) with (Ok n, w').1. rewrite <- Eloop. by vm_compute. }
    assert (any_non_finite (subtract_all (_weights (discriminator w'))
                              (FromServer.discriminator_weights Sample.from_server))
            = false) as Ef.
    { replace w' with
        (for_each (zip Sample.gen_inputs_ds Sample.real_data_ds)
           (client_step (create_train_discriminator_fn (WassersteinGanLossFns F32.ten)
                           (SGD F32.lr_0_0005))) 0%Z
           (client_loaded Sample.from_server Sample.world)).2
        by (by rewrite Eloop).
      by vm_compute. }
    injection En as ->.
    exists out, w'. split; [exact E|]. split; [exact Ef|]. exact (Hfinite Ef).
  - destruct (client_update_weight Sample.gen_inputs_ds Sample.real_data_ds
                Sample.infinite_from_server Sample.train_discriminator_fn Sample.world
                Hg Hd')
      as (out & w' & n & Eloop & E & Ecount & _ & _ & Hnonfinite).
    assert (any_non_finite (subtract_all (_weights (discriminator w'))
                              (FromServer.discriminator_weights
                                 Sample.infinite_from_server)) = true
            ∧ zeros_like <$> subtract_all (_weights (discriminator w'))
                               (FromServer.discriminator_weights
                                  Sample.infinite_from_server)
              = [Sample.vec [F32.zero; F32.zero]]) as [Ef Ez].
    { replace w' with
        (for_each (zip Sample.gen_inputs_ds Sample.real_data_ds)
           (client_step (create_train_discriminator_fn (WassersteinGanLossFns F32.ten)
                           (SGD F32.lr_0_0005))) 0%Z
           (client_loaded Sample.infinite_from_server Sample.world)).2
        by (by rewrite Eloop).
      by vm_compute. }
    destruct (Hnonfinite Ef) as (Hw & Hdelta & Hzero).
    exists out, w'. split; [exact E|]. split; [exact Ef|]. split; [exact Hw|].
    split; [by rewrite Hdelta|exact Hzero].
Defined.

Lemma sgd_server_update_witness :
  Forall2 (λ x v, shape x = shape (value v) ∧ length (data x) = length (data (value v)))
    (ClientOutput.discriminator_weights_delta Sample.client_output)
    (weights (discriminator Sample.world)) ∧
  Forall (λ x, Forall (λ a, F32.valid a = true) (data x))
    (ClientOutput.discriminator_weights_delta Sample.client_output) ∧
  Forall2 (λ x v, shape x = shape (value v) ∧ length (data x) = length (data (value v)))
    (ClientOutput.discriminator_weights_delta Sample.zero_client_output)
    (weights (discriminator Sample.world)) ∧
  all_zero (ClientOutput.discriminator_weights_delta Sample.zero_client_output) ∧
  Forall all_normal (_weights (discriminator Sample.world)) ∧
  (∃ w',
     update_server_discriminator Sample.client_output (SGD F32.one) Sample.world
       = (Ok (), w') ∧
     _weights (discriminator w') =
       [Sample.vec [S754_finite false 8388608 (-22); F32.one]]) ∧
  (∃ w',
     update_server_discriminator Sample.zero_client_output (SGD Sample.half) Sample.world
       = (Ok (), w') ∧
     Forall2 same_numbers (_weights (discriminator w'))
       (_weights (discriminator Sample.world))).
Proof.
  assert (Forall2 (λ x v, shape x = shape (value v) ∧
                          length (data x) = length (data (value v)))
            (ClientOutput.discriminator_weights_delta Sample.client_output)
            (weights (discriminator Sample.world))) as Hs
    by repeat constructor.
  assert (Forall (λ x, Forall (λ a, F32.valid a = true) (data x))
            (ClientOutput.discriminator_weights_delta Sample.client_output)) as Hv
    by repeat constructor.
  assert (Forall2 (λ x v, shape x = shape (value v) ∧
                          length (data x) = length (data (value v)))
            (ClientOutput.discriminator_weights_delta Sample.zero_client_output)
            (weights (discriminator Sample.world))) as Hs0
    by repeat constructor.
  assert (all_zero (ClientOutput.discriminator_weights_delta Sample.zero_client_output))
    as Hz by repeat constructor.
  assert (Forall all_normal (_weights (discriminator Sample.world))) as Hn
    by repeat constructor.
  split; [exact Hs|]. split; [exact Hv|]. split; [exact Hs0|]. split; [exact Hz|].
  split; [exact Hn|]. split.
  - destruct (sgd_server_update F32.one Sample.client_output Sample.world Hs)
      as (w' & E & _ & Hone & _).
    exists w'. split; [exact E|]. exact (Hone eq_refl Hv).
  - destruct (sgd_server_update Sample.half Sample.zero_client_output Sample.world Hs0)
      as (w' & E & _ & _ & Hzero).
    exists w'. split; [exact E|]. exact (proj2 (Hzero eq_refl Hz) Hn).
Defined.

Lemma sgd_server_update_counterexample :
  (let r := update_server_discriminator Sample.client_output (SGD Sample.half)
              Sample.world in
   r.1 = Ok () ∧
   _weights (discriminator Sample.world) = [Sample.vec [F32.one; F32.zero]] ∧
   ClientOutput.discriminator_weights_delta Sample.client_output
     = [Sample.vec [F32.one; F32.one]] ∧
   _weights (discriminator r.2)
     = [Sample.vec [S754_finite false 12582912 (-23); Sample.half]] ∧
   _weights (discriminator r.2)
     ≠ zip_with plus_delta (_weights (discriminator Sample.world))
         (ClientOutput.discriminator_weights_delta Sample.client_output)) ∧
  (let r := update_server_discriminator Sample.zero_client_output (SGD Sample.half)
              Sample.world_with_subnormal_weight in
   r.1 = Ok () ∧
   all_zero (ClientOutput.discriminator_weights_delta Sample.zero_client_output) ∧
   _weights (discriminator Sample.world_with_subnormal_weight)
     = [Sample.vec [Sample.tiny; F32.one]] ∧
   _weights (discriminator r.2) = [Sample.vec [F32.zero; F32.one]] ∧
   ¬ Forall2 same_numbers (_weights (discriminator r.2))
       (_weights (discriminator Sample.world_with_subnormal_weight))).
Proof.
  split.
  - vm_compute. repeat split; discriminate.
  - cbn zeta.
    assert (_weights (discriminator
              (update_server_discriminator Sample.zero_client_output (SGD Sample.half)
                 Sample.world_with_subnormal_weight).2)
            = [Sample.vec [F32.zero; F32.one]]) as Ew by (by vm_compute).
    split; [by vm_compute|]. split; [repeat constructor|]. split; [reflexivity|].
    split; [exact Ew|]. rewrite Ew. intros Hf.
    apply Forall2_cons_1 in Hf as [[_ Hd] _]. cbn [Sample.vec data] in Hd.
    apply Forall2_cons_1 in Hd as [[Hx|[_ Hx]] _]; discriminate Hx.
Qed.

Lemma server_keeps_input_state_witness :
  states Sample.world !! 1%positive = Some Sample.state ∧
  dicts Sample.world !! ServerState.counters Sample.state = Some Sample.counters ∧
  let r := server_computation 1%positive Sample.gen_inputs_ds Sample.client_output
             (SGD F32.one) Sample.train_generator_fn () Sample.world in
  states r.2 !! 1%positive = Some Sample.state ∧
  dicts r.2 !! ServerState.counters Sample.state = Some Sample.counters ∧
  ∀ l', r.1 = Ok l' →
    l' ≠ 1%positive ∧
    ∃ s', states r.2 !! l' = Some s' ∧
          ServerState.counters s' ≠ ServerState.counters Sample.state.
Proof.
  assert (states Sample.world !! 1%positive = Some Sample.state) as Es by reflexivity.
  assert (dicts Sample.world !! ServerState.counters Sample.state = Some Sample.counters)
    as Ed by reflexivity.
  split; [exact Es|]. split; [exact Ed|].
  exact (server_keeps_input_state 1%positive Sample.state Sample.counters
           Sample.gen_inputs_ds Sample.client_output (SGD F32.one)
           Sample.train_generator_fn () Sample.world Es Ed).
Defined.

Lemma server_structure_check_witness :
  states Sample.world !! 1%positive = Some Sample.state ∧
  dicts Sample.world !! ServerState.counters Sample.state = Some Sample.counters ∧
  length (ClientOutput.discriminator_weights_delta Sample.other_count_output)
    ≠ length (weights (discriminator Sample.world)) ∧
  (let r := server_computation 1%positive Sample.gen_inputs_ds Sample.other_count_output
              (SGD F32.one) Sample.train_generator_fn () Sample.world in
   r.1 = Raise ValueError ∧
   states r.2 !! 1%positive = Some Sample.state ∧
   dicts r.2 !! ServerState.counters Sample.state = Some Sample.counters) ∧
  (server_computation 1%positive Sample.gen_inputs_ds Sample.other_shape_output
     (SGD F32.one) Sample.train_generator_fn () Sample.world).1 = Raise ValueError ∧
  ∃ l' w',
    server_computation 1%positive Sample.gen_inputs_ds Sample.client_output
      (SGD F32.one) Sample.train_generator_fn () Sample.world = (Ok l', w').
Proof.
  assert (states Sample.world !! 1%positive = Some Sample.state) as Es by reflexivity.
  assert (dicts Sample.world !! ServerState.counters Sample.state = Some Sample.counters)
    as Ed by reflexivity.
  assert (length (ClientOutput.discriminator_weights_delta Sample.other_count_output)
            ≠ length (weights (discriminator Sample.world))) as Hne by (simpl; lia).
  split; [exact Es|]. split; [exact Ed|]. split; [exact Hne|]. split; [|split].
  - exact (proj1 (server_structure_check 1%positive Sample.state Sample.counters
                    Sample.gen_inputs_ds Sample.other_count_output (SGD F32.one)
                    Sample.train_generator_fn () Sample.world Es Ed) Hne).
  - apply (proj1 (proj2 (server_structure_check 1%positive Sample.state Sample.counters
                    Sample.gen_inputs_ds Sample.other_shape_output (SGD F32.one)
                    Sample.train_generator_fn () Sample.world Es Ed)) F32.one).
    + repeat constructor.
    + repeat constructor.
    + reflexivity.
    + intros Hf. inversion Hf as [|???? E]. discriminate E.
  - apply (proj2 (proj2 (server_structure_check 1%positive Sample.state Sample.counters
                    Sample.gen_inputs_ds Sample.client_output (SGD F32.one)
                    Sample.train_generator_fn () Sample.world Es Ed))).
    split; [|compute_done|by eexists|by eexists].
    split; [reflexivity|reflexivity|repeat constructor..|apply SGD_accepts].
Defined.

Lemma server_structure_check_counterexample :
  length (ClientOutput.discriminator_weights_delta Sample.other_shape_output)
    = length (weights (discriminator Sample.world)) ∧
  shape <$> ClientOutput.discriminator_weights_delta Sample.other_shape_output
    ≠ shape <$> _weights (discriminator Sample.world) ∧
  (server_computation 1%positive Sample.gen_inputs_ds Sample.other_shape_output
     Sample.keep_optimizer Sample.train_generator_fn () Sample.world).1 = Ok 2%positive.
Proof. vm_compute. repeat split; discriminate. Qed.

Lemma server_sums_client_counters_witness :
  round_loads Sample.world 1%positive Sample.state Sample.counters
    Sample.client_output (SGD F32.one) ∧
  round_loads Sample.world 1%positive Sample.state Sample.counters
    Sample.two_new_keys_output (SGD F32.one) ∧
  is_Some (Sample.counters !! "num_generator_train_examples") ∧
  is_Some (Sample.counters !! "num_rounds") ∧
  dom (ClientOutput.counters Sample.client_output) ⊆ dom Sample.counters ∧
  ¬ dom (ClientOutput.counters Sample.two_new_keys_output) ⊆ dom Sample.counters ∧
  (∃ l' w',
     server_computation 1%positive Sample.gen_inputs_ds Sample.client_output
       (SGD F32.one) Sample.train_generator_fn () Sample.world = (Ok l', w') ∧
     counter_of w' l' "num_discriminator_train_examples" = Some 7%Z) ∧
  server_computation 1%positive Sample.gen_inputs_ds Sample.two_new_keys_output
    (SGD F32.one) Sample.train_generator_fn () Sample.world
    = (Raise (KeyError "zebra"), Sample.world).
Proof.
  assert (round_loads Sample.world 1%positive Sample.state Sample.counters
            Sample.client_output (SGD F32.one)) as Hl
    by (split; [reflexivity|reflexivity|repeat constructor..|apply SGD_accepts]).
  assert (round_loads Sample.world 1%positive Sample.state Sample.counters
            Sample.two_new_keys_output (SGD F32.one)) as Hl2
    by (split; [reflexivity|reflexivity|repeat constructor..|apply SGD_accepts]).
  assert (is_Some (Sample.counters !! "num_generator_train_examples")) as Hg
    by by eexists.
  assert (is_Some (Sample.counters !! "num_rounds")) as Hr by by eexists.
  assert (dom (ClientOutput.counters Sample.client_output) ⊆ dom Sample.counters)
    as Hk by compute_done.
  assert (¬ dom (ClientOutput.counters Sample.two_new_keys_output) ⊆ dom Sample.counters)
    as Hk2 by compute_done.
  split; [exact Hl|]. split; [exact Hl2|]. split; [exact Hg|]. split; [exact Hr|].
  split; [exact Hk|]. split; [exact Hk2|]. split.
  - destruct (proj1 (server_sums_client_counters 1%positive Sample.state Sample.counters
                       Sample.gen_inputs_ds Sample.client_output (SGD F32.one)
                       Sample.train_generator_fn () Sample.world Hl Hg Hr) Hk)
      as (l' & w' & E & Hsum).
    exists l', w'. split; [exact E|].
    destruct (Hsum "num_discriminator_train_examples" 7%Z eq_refl)
      as (x & Ex & _ & Hx).
    injection Ex as <-. apply Hx. by vm_compute.
  - destruct (proj2 (server_sums_client_counters 1%positive Sample.state Sample.counters
                       Sample.gen_inputs_ds Sample.two_new_keys_output (SGD F32.one)
                       Sample.train_generator_fn () Sample.world Hl2 Hg Hr) Hk2)
      as (k & Ek & _ & _ & E).
    injection Ek as <-. exact E.
Defined.

Lemma server_sums_client_counters_counterexample :
  let r := server_computation 1%positive Sample.gen_inputs_ds Sample.new_key_output
             (SGD F32.one) Sample.train_generator_fn () Sample.world in
  ClientOutput.counters Sample.new_key_output !! "num_batches" = Some 3%Z ∧
  counter_of Sample.world 1%positive "num_batches" = None ∧
  r.1 = Raise (KeyError "num_batches") ∧
  ¬ ∃ l', r.1 = Ok l' ∧ counter_of r.2 l' "num_batches" = Some 3%Z.
Proof.
  assert ((server_computation 1%positive Sample.gen_inputs_ds Sample.new_key_output
             (SGD F32.one) Sample.train_generator_fn () Sample.world).1
          = Raise (KeyError "num_batches")) as E by (vm_compute; reflexivity).
  cbn zeta. split; [by vm_compute|]. split; [by vm_compute|]. split; [exact E|].
  intros (l' & E' & _). rewrite E in E'. discriminate E'.
Qed.

Lemma client_zero_steps_witness :
  loadable (generator Sample.world) (FromServer.generator_weights Sample.from_server) ∧
  loadable (discriminator Sample.world)
    (FromServer.discriminator_weights Sample.from_server) ∧
  ∃ out w',
    client_computation [] [] Sample.from_server Sample.train_discriminator_fn
      Sample.world = (Ok out, w') ∧
    trace w' = trace Sample.world ∧
    _weights (discriminator w') = FromServer.discriminator_weights Sample.from_server ∧
    ClientOutput.discriminator_weights_delta out =
      [Sample.vec [F32.zero; F32.zero]] ∧
    all_zero (ClientOutput.discriminator_weights_delta out) ∧
    ClientOutput.update_weight out = F32.zero ∧
    ClientOutput.counters out = {[ "num_discriminator_train_examples" := 0%Z ]}.
Proof.
  assert (loadable (generator Sample.world)
            (FromServer.generator_weights Sample.from_server)) as Hg
    by repeat constructor.
  assert (loadable (discriminator Sample.world)
            (FromServer.discriminator_weights Sample.from_server)) as Hd
    by repeat constructor.
  split; [exact Hg|]. split; [exact Hd|].
  exact (client_zero_steps Sample.from_server Sample.train_discriminator_fn
           Sample.world Hg Hd).
Defined.

Lemma train_fn_argument_ignored_witness :
  loadable (generator Sample.world) (FromServer.generator_weights Sample.from_server) ∧
  loadable (discriminator Sample.world)
    (FromServer.discriminator_weights Sample.from_server) ∧
  round_ready Sample.world 1%positive Sample.state Sample.counters
    Sample.client_output (SGD F32.one) ∧
  client_computation Sample.gen_inputs_ds Sample.real_data_ds Sample.from_server
    Sample.train_discriminator_fn Sample.world =
  client_computation Sample.gen_inputs_ds Sample.real_data_ds Sample.from_server
    (λ _ _, lift (Raise ValueError)) Sample.world ∧
  server_computation 1%positive Sample.gen_inputs_ds Sample.client_output (SGD F32.one)
    Sample.train_generator_fn () Sample.world =
  server_computation 1%positive Sample.gen_inputs_ds Sample.client_output (SGD F32.one)
    (λ _, lift (Raise ValueError)) () Sample.world ∧
  (∃ n w1,
     for_each (zip Sample.gen_inputs_ds Sample.real_data_ds)
       (client_step (create_train_discriminator_fn (WassersteinGanLossFns F32.ten)
                       (SGD F32.lr_0_0005))) 0%Z
       (client_loaded Sample.from_server Sample.world) = (Ok n, w1) ∧
     client_computation Sample.gen_inputs_ds Sample.real_data_ds Sample.from_server
       Sample.train_discriminator_fn Sample.world =
       (Ok (client_output_of n (discriminator w1) Sample.from_server), w1)) ∧
  (∃ w6 n w7 l' w',
     generator w6 =
       {| weights := with_values (weights (generator Sample.world))
                       (ServerState.generator_weights Sample.state) |} ∧
     trace w6 = trace Sample.world ∧
     for_each Sample.gen_inputs_ds
       (server_step (create_train_generator_fn (WassersteinGanLossFns F32.ten)
                       (SGD F32.lr_0_005))) 0%Z w6 = (Ok n, w7) ∧
     server_computation 1%positive Sample.gen_inputs_ds Sample.client_output
       (SGD F32.one) Sample.train_generator_fn () Sample.world = (Ok l', w') ∧
     generator w' = generator w7 ∧
     trace w' = trace w7).
Proof.
  assert (loadable (generator Sample.world)
            (FromServer.generator_weights Sample.from_server)) as Hg
    by repeat constructor.
  assert (loadable (discriminator Sample.world)
            (FromServer.discriminator_weights Sample.from_server)) as Hd
    by repeat constructor.
  assert (round_ready Sample.world 1%positive Sample.state Sample.counters
            Sample.client_output (SGD F32.one)) as Hr.
  { split; [|compute_done|by eexists|by eexists].
    split; [reflexivity|reflexivity|repeat constructor..|apply SGD_accepts]. }
  split; [exact Hg|]. split; [exact Hd|]. split; [exact Hr|].
  destruct train_fn_argument_ignored as (Hclient & Hserver & Hruns & Hround).
  split; [apply Hclient|]. split; [apply Hserver|]. split.
  - exact (Hruns Sample.gen_inputs_ds Sample.real_data_ds Sample.from_server
             Sample.train_discriminator_fn Sample.world Hg Hd).
  - destruct (Hround 1%positive Sample.state Sample.counters Sample.gen_inputs_ds
                Sample.client_output (SGD F32.one) Sample.train_generator_fn ()
                Sample.world Hr)
      as (vs & w6 & n & w7 & l' & w' & s' & _ & H1 & _ & H3 & Eloop & E & H4 & _ & H5 & _).
    exists w6, n, w7, l', w'. repeat split; assumption.
Defined.

Lemma client_keeps_generator_witness :
  loadable (generator Sample.world) (FromServer.generator_weights Sample.from_server) ∧
  loadable (discriminator Sample.world)
    (FromServer.discriminator_weights Sample.from_server) ∧
  ∃ out w',
    client_computation Sample.gen_inputs_ds Sample.real_data_ds Sample.from_server
      Sample.train_discriminator_fn Sample.world = (Ok out, w') ∧
    _weights (generator w') = [Sample.vec [F32.ten]; Sample.vec [F32.one]] ∧
    trainable_variables (generator w') = [Sample.cell [F32.ten]].
Proof.
  assert (loadable (generator Sample.world)
            (FromServer.generator_weights Sample.from_server)) as Hg
    by repeat constructor.
  assert (loadable (discriminator Sample.world)
            (FromServer.discriminator_weights Sample.from_server)) as Hd
    by repeat constructor.
  split; [exact Hg|]. split; [exact Hd|].
  exact (client_keeps_generator Sample.gen_inputs_ds Sample.real_data_ds
           Sample.from_server Sample.train_discriminator_fn Sample.world Hg Hd).
Defined.
Lemma client_fixed_variables_zero_delta_witness :
  loadable (generator FurtherSample.world_with_fixed_variable)
    (FromServer.generator_weights FurtherSample.from_server_two_weights) ∧
  loadable (discriminator FurtherSample.world_with_fixed_variable)
    (FromServer.discriminator_weights FurtherSample.from_server_two_weights) ∧
  ∃ out w',
    client_computation Sample.gen_inputs_ds Sample.real_data_ds FurtherSample.from_server_two_weights
      Sample.train_discriminator_fn FurtherSample.world_with_fixed_variable = (Ok out, w') ∧
    _weights (discriminator w') !! 1%nat = Some (Sample.vec [F32.one]) ∧
    ClientOutput.discriminator_weights_delta out !! 1%nat
      = Some (zeros_like (Sample.vec [F32.one])).
Proof.
  assert (loadable (generator FurtherSample.world_with_fixed_variable)
            (FromServer.generator_weights FurtherSample.from_server_two_weights)) as Hg
    by repeat constructor.
  assert (loadable (discriminator FurtherSample.world_with_fixed_variable)
            (FromServer.discriminator_weights FurtherSample.from_server_two_weights)) as Hd
    by repeat constructor.
  split; [exact Hg|]. split; [exact Hd|].
  destruct (client_fixed_variables_zero_delta Sample.gen_inputs_ds Sample.real_data_ds
              FurtherSample.from_server_two_weights Sample.train_discriminator_fn
              FurtherSample.world_with_fixed_variable Hg Hd) as (out & w' & E & Hfix).
  exists out, w'. split; [exact E|].
  exact (Hfix 1%nat (Sample.fixed_cell [F32.zero]) (Sample.vec [F32.one])
           eq_refl eq_refl eq_refl).
Defined.

Lemma client_example_count_bounds_witness :
  loadable (generator Sample.world) (FromServer.generator_weights Sample.from_server) ∧
  loadable (discriminator Sample.world)
    (FromServer.discriminator_weights Sample.from_server) ∧
  ∃ out w' n,
    client_computation Sample.gen_inputs_ds Sample.real_data_ds Sample.from_server
      Sample.train_discriminator_fn Sample.world = (Ok out, w') ∧
    ClientOutput.counters out !! "num_discriminator_train_examples" = Some n ∧
    Int32.in_range n ∧
    (0 ≤ n ≤ rows Sample.real_data_ds)%Z ∧ (n ≤ rows Sample.gen_inputs_ds)%Z ∧
    (ClientOutput.update_weight out = F32.of_Z n ∨
     ClientOutput.update_weight out = F32.zero).
Proof.
  assert (loadable (generator Sample.world)
            (FromServer.generator_weights Sample.from_server)) as Hg
    by repeat constructor.
  assert (loadable (discriminator Sample.world)
            (FromServer.discriminator_weights Sample.from_server)) as Hd
    by repeat constructor.
  split; [exact Hg|]. split; [exact Hd|].
  destruct (client_example_count_bounds Sample.gen_inputs_ds Sample.real_data_ds
              Sample.from_server Sample.train_discriminator_fn Sample.world Hg Hd)
    as (out & w' & n & E & Hn & Hr & Hb & Hu).
  assert (rows Sample.real_data_ds < 2147483648)%Z as Hsmall by (by vm_compute).
  destruct (Hb (or_introl Hsmall)) as (H1 & H2 & _).
  exists out, w', n. do 3 (split; [assumption|]). split; [exact H1|].
  split; [exact H2|exact Hu].
Defined.

Lemma server_round_can_be_repeated_witness :
  round_ready Sample.world 1%positive Sample.state Sample.counters
    Sample.client_output (SGD F32.one) ∧
  ∃ l' w' s' d',
    server_computation 1%positive Sample.gen_inputs_ds Sample.client_output (SGD F32.one)
      Sample.train_generator_fn () Sample.world = (Ok l', w') ∧
    states w' !! l' = Some s' ∧ dicts w' !! ServerState.counters s' = Some d' ∧
    ServerState.generator_weights s' = _weights (generator w') ∧
    ServerState.discriminator_weights s' = _weights (discriminator w') ∧
    ServerState.aggregation_state s' = () ∧
    dom d' = dom Sample.counters ∧
    round_ready w' l' s' d' Sample.zero_client_output (SGD F32.one).
Proof.
  assert (round_ready Sample.world 1%positive Sample.state Sample.counters
            Sample.client_output (SGD F32.one)) as Hr.
  { split; [|compute_done|by eexists|by eexists].
    split; [reflexivity|reflexivity|repeat constructor..|apply SGD_accepts]. }
  split; [exact Hr|].
  destruct (server_round_can_be_repeated 1%positive Sample.state Sample.counters
              Sample.gen_inputs_ds Sample.client_output (SGD F32.one)
              Sample.train_generator_fn () Sample.world Hr)
    as (l' & w' & s' & d' & E & Es & Ed & Hg & Hd & Ha & _ & _ & Hdom & Hnext).
  exists l', w', s', d'. do 6 (split; [assumption|]). split; [exact Hdom|].
  apply Hnext; [repeat constructor|compute_done].
Defined.

Lemma server_round_sgd_weights_witness :
  round_ready Sample.world 1%positive Sample.state Sample.counters
    Sample.client_output (SGD F32.one) ∧
  round_ready Sample.world_with_subnormal_state 1%positive Sample.subnormal_state
    Sample.counters Sample.zero_client_output (SGD Sample.half) ∧
  (∃ l' w' s',
     server_computation 1%positive Sample.gen_inputs_ds Sample.client_output
       (SGD F32.one) Sample.train_generator_fn () Sample.world = (Ok l', w') ∧
     states w' !! l' = Some s' ∧
     ServerState.discriminator_weights s' =
       zip_with (stepped F32.one) (ServerState.discriminator_weights Sample.state)
         (ClientOutput.discriminator_weights_delta Sample.client_output) ∧
     ServerState.discriminator_weights s' =
       zip_with plus_delta (ServerState.discriminator_weights Sample.state)
         (ClientOutput.discriminator_weights_delta Sample.client_output)) ∧
  (∃ l' w' s',
     server_computation 1%positive Sample.gen_inputs_ds Sample.zero_client_output
       (SGD Sample.half) Sample.train_generator_fn () Sample.world_with_subnormal_state
       = (Ok l', w') ∧
     states w' !! l' = Some s' ∧
     ServerState.discriminator_weights Sample.subnormal_state
       = [Sample.vec [Sample.tiny; F32.one]] ∧
     ServerState.discriminator_weights s' = [Sample.vec [F32.zero; F32.one]]).
Proof.
  assert (round_ready Sample.world 1%positive Sample.state Sample.counters
            Sample.client_output (SGD F32.one)) as Hr.
  { split; [|compute_done|by eexists|by eexists].
    split; [reflexivity|reflexivity|repeat constructor..|apply SGD_accepts]. }
  assert (round_ready Sample.world_with_subnormal_state 1%positive
            Sample.subnormal_state Sample.counters Sample.zero_client_output
            (SGD Sample.half)) as Hr0.
  { split; [|compute_done|by eexists|by eexists].
    split; [reflexivity|reflexivity|repeat constructor..|apply SGD_accepts]. }
  split; [exact Hr|]. split; [exact Hr0|]. split.
  - destruct (server_round_sgd_weights 1%positive Sample.state Sample.counters
                Sample.gen_inputs_ds Sample.client_output F32.one
                Sample.train_generator_fn () Sample.world Hr)
      as (l' & w' & s' & E & Es & Hstep & Hone).
    exists l', w', s'. do 3 (split; [assumption|]).
    apply Hone; [reflexivity|repeat constructor].
  - destruct (server_round_sgd_weights 1%positive Sample.subnormal_state Sample.counters
                Sample.gen_inputs_ds Sample.zero_client_output Sample.half
                Sample.train_generator_fn () Sample.world_with_subnormal_state Hr0)
      as (l' & w' & s' & E & Es & Hstep & _).
    exists l', w', s'. do 2 (split; [assumption|]). split; [reflexivity|].
    rewrite Hstep. by vm_compute.
Defined.

Lemma server_generator_training_witness :
  round_ready Sample.world 1%positive Sample.state Sample.counters
    Sample.client_output (SGD F32.one) ∧
  ∃ l' w' s',
    server_computation 1%positive Sample.gen_inputs_ds Sample.client_output (SGD F32.one)
      Sample.train_generator_fn () Sample.world = (Ok l', w') ∧
    states w' !! l' = Some s' ∧
    trace w' = trace Sample.world ++ (GeneratorStep <$> Sample.gen_inputs_ds) ∧
    ServerState.generator_weights s' !! 1%nat = Some (Sample.vec [F32.zero]).
Proof.
  assert (round_ready Sample.world 1%positive Sample.state Sample.counters
            Sample.client_output (SGD F32.one)) as Hr.
  { split; [|compute_done|by eexists|by eexists].
    split; [reflexivity|reflexivity|repeat constructor..|apply SGD_accepts]. }
  split; [exact Hr|].
  destruct (server_generator_training 1%positive Sample.state Sample.counters
              Sample.gen_inputs_ds Sample.client_output (SGD F32.one)
              Sample.train_generator_fn () Sample.world Hr)
    as (l' & w' & s' & E & Es & Ht & Hfix & _).
  exists l', w', s'. do 3 (split; [assumption|]).
  exact (Hfix 1%nat (Sample.fixed_cell [F32.zero]) (Sample.vec [F32.zero])
           eq_refl eq_refl eq_refl).
Defined.

Lemma server_counters_never_decrease_witness :
  round_ready Sample.world 1%positive Sample.state Sample.counters
    Sample.client_output (SGD F32.one) ∧
  (∀ k v, ClientOutput.counters Sample.client_output !! k = Some v → (0 ≤ v)%Z) ∧
  (∀ k x, Sample.counters !! k = Some x →
     (-2147483648 ≤ x)%Z ∧
     (x + default 0 (ClientOutput.counters Sample.client_output !! k)
        + bump Sample.gen_inputs_ds k < 2147483648)%Z) ∧
  ∃ l' w',
    server_computation 1%positive Sample.gen_inputs_ds Sample.client_output (SGD F32.one)
      Sample.train_generator_fn () Sample.world = (Ok l', w') ∧
    (∀ k x, Sample.counters !! k = Some x →
       ∃ x', counter_of w' l' k = Some x' ∧ (x ≤ x')%Z ∧
             (k = "num_rounds" → (x < x')%Z)) ∧
    (∀ k, Sample.counters !! k = None → counter_of w' l' k = None).
Proof.
  assert (round_ready Sample.world 1%positive Sample.state Sample.counters
            Sample.client_output (SGD F32.one)) as Hr.
  { split; [|compute_done|by eexists|by eexists].
    split; [reflexivity|reflexivity|repeat constructor..|apply SGD_accepts]. }
  assert (∀ k v, ClientOutput.counters Sample.client_output !! k = Some v → (0 ≤ v)%Z)
    as Hpos.
  { intros k v Hkv. unfold Sample.client_output in Hkv.
    cbn [ClientOutput.counters] in Hkv.
    destruct (decide (k = "num_discriminator_train_examples")) as [->|Hne].
    - rewrite ordered_dict_lookup_singleton in Hkv. injection Hkv as <-. lia.
    - by rewrite ordered_dict_lookup_singleton_ne in Hkv. }
  assert (∀ k x, Sample.counters !! k = Some x →
            (-2147483648 ≤ x)%Z ∧
            (x + default 0 (ClientOutput.counters Sample.client_output !! k)
               + bump Sample.gen_inputs_ds k < 2147483648)%Z) as Hfits.
  { intros k x Hkx. unfold Sample.counters in Hkx.
    rewrite !lookup_insert_Some, lookup_singleton_Some in Hkx.
    destruct Hkx as [[<- <-]|[_ [[<- <-]|[_ [<- <-]]]]]; split; by vm_compute. }
  split; [exact Hr|]. split; [exact Hpos|]. split; [exact Hfits|].
  exact (server_counters_never_decrease 1%positive Sample.state Sample.counters
           Sample.gen_inputs_ds Sample.client_output (SGD F32.one)
           Sample.train_generator_fn () Sample.world Hr Hpos Hfits).
Defined.

Lemma server_round_needs_own_counters_witness :
  round_loads FurtherSample.world_without_round_counters 1%positive Sample.state
    FurtherSample.client_counters_only Sample.client_output (SGD F32.one) ∧
  dom (ClientOutput.counters Sample.client_output)
    ⊆ dom FurtherSample.client_counters_only ∧
  FurtherSample.client_counters_only !! "num_generator_train_examples" = None ∧
  server_computation 1%positive Sample.gen_inputs_ds Sample.client_output (SGD F32.one)
    Sample.train_generator_fn () FurtherSample.world_without_round_counters
    = (Raise (KeyError "num_generator_train_examples"),
       FurtherSample.world_without_round_counters).
Proof.
  assert (round_loads FurtherSample.world_without_round_counters 1%positive Sample.state
            FurtherSample.client_counters_only Sample.client_output (SGD F32.one)) as Hl
    by (split; [reflexivity|reflexivity|repeat constructor..|apply SGD_accepts]).
  assert (dom (ClientOutput.counters Sample.client_output)
            ⊆ dom FurtherSample.client_counters_only) as Hk by compute_done.
  split; [exact Hl|]. split; [exact Hk|]. split; [reflexivity|].
  exact (proj1 (server_round_needs_own_counters 1%positive Sample.state
                  FurtherSample.client_counters_only Sample.gen_inputs_ds
                  Sample.client_output (SGD F32.one) Sample.train_generator_fn ()
                  FurtherSample.world_without_round_counters Hl Hk) eq_refl).
Defined.

Lemma untrained_round_keeps_discriminator_witness :
  states Sample.world !! 1%positive = Some Sample.state ∧
  dicts Sample.world !! ServerState.counters Sample.state = Some Sample.counters ∧
  loadable (generator Sample.world) (ServerState.generator_weights Sample.state) ∧
  loadable (discriminator Sample.world) (ServerState.discriminator_weights Sample.state) ∧
  F32.is_finite Sample.half = true ∧
  Forall all_normal (ServerState.discriminator_weights Sample.state) ∧
  (∃ out w1 l' w2 s',
     client_computation [] Sample.real_data_ds (broadcast Sample.state)
       Sample.train_discriminator_fn Sample.world = (Ok out, w1) ∧
     server_computation 1%positive Sample.gen_inputs_ds out (SGD Sample.half)
       Sample.train_generator_fn () w1 = (Ok l', w2) ∧
     states w2 !! l' = Some s' ∧
     Forall2 same_numbers (ServerState.discriminator_weights s')
       (ServerState.discriminator_weights Sample.state) ∧
     counter_of w2 l' "num_discriminator_train_examples" = Some 0%Z) ∧
  (∃ out w1 l' w2 s',
     client_computation [] Sample.real_data_ds (broadcast Sample.subnormal_state)
       Sample.train_discriminator_fn Sample.world_with_subnormal_state = (Ok out, w1) ∧
     server_computation 1%positive Sample.gen_inputs_ds out (SGD Sample.half)
       Sample.train_generator_fn () w1 = (Ok l', w2) ∧
     states w2 !! l' = Some s' ∧
     ServerState.discriminator_weights Sample.subnormal_state
       = [Sample.vec [Sample.tiny; F32.one]] ∧
     Forall2 same_numbers (ServerState.discriminator_weights s')
       [Sample.vec [F32.zero; F32.one]]).
Proof.
  assert (loadable (generator Sample.world)
            (ServerState.generator_weights Sample.state)) as Hg by repeat constructor.
  assert (loadable (discriminator Sample.world)
            (ServerState.discriminator_weights Sample.state)) as Hd by repeat constructor.
  assert (Forall all_normal (ServerState.discriminator_weights Sample.state)) as Hn
    by repeat constructor.
  split; [reflexivity|]. split; [reflexivity|]. split; [exact Hg|]. split; [exact Hd|].
  split; [reflexivity|]. split; [exact Hn|]. split.
  - destruct (untrained_round_keeps_discriminator 1%positive Sample.state
                Sample.counters [] Sample.real_data_ds Sample.gen_inputs_ds Sample.half
                Sample.train_discriminator_fn Sample.train_generator_fn () Sample.world
                eq_refl eq_refl Hg Hd (ex_intro _ 0%Z eq_refl) (ex_intro _ 0%Z eq_refl)
                (ex_intro _ 0%Z eq_refl) eq_refl (or_introl eq_refl))
      as (out & w1 & l' & w2 & s' & E1 & E2 & Es & _ & Hsame & _ & Hcount).
    exists out, w1, l', w2, s'. do 3 (split; [assumption|]).
    split; [exact (Hsame Hn)|]. apply Hcount; [reflexivity|by vm_compute].
  - assert (loadable (generator Sample.world_with_subnormal_state)
              (ServerState.generator_weights Sample.subnormal_state)) as Hg0
      by repeat constructor.
    assert (loadable (discriminator Sample.world_with_subnormal_state)
              (ServerState.discriminator_weights Sample.subnormal_state)) as Hd0
      by repeat constructor.
    destruct (untrained_round_keeps_discriminator 1%positive Sample.subnormal_state
                Sample.counters [] Sample.real_data_ds Sample.gen_inputs_ds Sample.half
                Sample.train_discriminator_fn Sample.train_generator_fn ()
                Sample.world_with_subnormal_state
                eq_refl eq_refl Hg0 Hd0 (ex_intro _ 0%Z eq_refl)
                (ex_intro _ 0%Z eq_refl) (ex_intro _ 0%Z eq_refl) eq_refl
                (or_introl eq_refl))
      as (out & w1 & l' & w2 & s' & E1 & E2 & Es & Hflushed & _).
    exists out, w1, l', w2, s'. do 3 (split; [assumption|]).
    split; [reflexivity|]. exact Hflushed.
Defined.

Lemma first_round_counters_witness :
  accepts (SGD F32.one) ∧
  ∃ l w0 s0 out w1 l' w2,
    server_initial_state Sample.world = (Ok l, w0) ∧ states w0 !! l = Some s0 ∧
    client_computation Sample.gen_inputs_ds Sample.real_data_ds (broadcast s0)
      Sample.train_discriminator_fn w0 = (Ok out, w1) ∧
    server_computation l Sample.gen_inputs_ds out (SGD F32.one)
      Sample.train_generator_fn () w1 = (Ok l', w2) ∧
    counter_of w2 l' "num_rounds" = Some 1%Z ∧
    counter_of w2 l' "num_discriminator_train_examples" = Some 2%Z ∧
    counter_of w2 l' "num_generator_train_examples" = Some 3%Z ∧
    l' ≠ l ∧ counter_of w2 l "num_rounds" = Some 0%Z.
Proof.
  split; [apply SGD_accepts|].
  destruct (first_round_counters Sample.gen_inputs_ds Sample.real_data_ds
              Sample.gen_inputs_ds (SGD F32.one) Sample.train_discriminator_fn
              Sample.train_generator_fn () Sample.world (SGD_accepts F32.one))
    as (l & w0 & s0 & out & w1 & l' & w2 & E0 & Es & E1 & E2 & Hr & _ & _ & Hd & Hg
        & Hne & Hold).
  exists l, w0, s0, out, w1, l', w2. do 5 (split; [assumption|]).
  split; [apply Hd; by vm_compute|]. split; [apply Hg; by vm_compute|].
  split; assumption.
Defined.

End Samples.
